(** * Aseprite file reader and writer (aseprite.py): model and properties

    The development follows the source top-down:

    - [Py]: the fragments of Python the program relies on (exceptions,
      slices and slice assignment on byte sequences, [struct.pack_into] and
      [struct.unpack], the UTF-8 codec behind [str.encode]/[bytes.decode]);
    - [Aseprite]: the sprite dictionary, [read_aseprite_file] and
      [write_aseprite_file], with [zlib] taken as a parameter;
    - [Dump]: [dump_pixels], with the text it prints;
    - the properties of the reader, of the writer and of [dump_pixels].

    Conventions: Python integers are [Z]; a [bytes]/[bytearray] value is a
    [list byte]; a [str] is the list of its code points; native struct
    formats (no [=] prefix) are read on a little-endian host with the usual
    C sizes (short 2, int 4), alignment included. *)

From Stdlib Require Import String Ascii ZArith List Lia Bool.
From Stdlib Require Strings.Byte.
Import ListNotations.
Local Open Scope Z_scope.

Abbreviation byte := Byte.byte.

(* ===================================================================== *)
(** ** Python fragments *)
(* ===================================================================== *)

Module Py.

(** The exceptions the two functions can raise. *)
Inductive exn : Set :=
| struct_error          (* struct.error *)
| AssertionError
| KeyError
| UnicodeDecodeError
| UnicodeEncodeError
| zlib_error.           (* zlib.error *)

Inductive result (A : Type) : Type :=
| Ok (a : A)
| Raise (e : exn).
Arguments Ok {A} a.
Arguments Raise {A} e.

Definition bind {A B} (m : result A) (k : A -> result B) : result B :=
  match m with
  | Ok a => k a
  | Raise e => Raise e
  end.

(** [d[k]] on a dictionary whose key may be absent. *)
Definition getitem {A} (o : option A) : result A :=
  match o with
  | Some a => Ok a
  | None => Raise KeyError
  end.

(** [assert c]. *)
Definition assert (c : bool) : result unit :=
  if c then Ok tt else Raise AssertionError.

(** *** Bytes *)

Definition b2z (b : byte) : Z := Z.of_N (Byte.to_N b).

Definition z2b (z : Z) : byte :=
  match Byte.of_N (Z.to_N z) with
  | Some b => b
  | None => Byte.x00
  end.

Definition len {A} (l : list A) : Z := Z.of_nat (length l).

(** *** Slices: [l[i:j]] and [l[i:j] = v] (step 1), negative indices
    counted from the end and every index clamped to the sequence. *)

Definition clamp (n i : Z) : Z :=
  if i <? 0 then Z.max 0 (i + n) else Z.min i n.

Definition pyslice {A} (l : list A) (i j : Z) : list A :=
  let lo := clamp (len l) i in
  let hi := clamp (len l) j in
  firstn (Z.to_nat (hi - lo)) (skipn (Z.to_nat lo) l).

Definition pyslice_assign {A} (l : list A) (i j : Z) (v : list A) : list A :=
  let lo := clamp (len l) i in
  let hi := Z.max lo (clamp (len l) j) in
  firstn (Z.to_nat lo) l ++ v ++ skipn (Z.to_nat hi) l.

(** *** struct: format strings *)

Inductive fcode : Set :=
| fB    (* unsigned char *)
| fH    (* unsigned short *)
| fh    (* short *)
| fI.   (* unsigned int *)

Definition fsize (c : fcode) : nat :=
  match c with
  | fB => 1
  | fH | fh => 2
  | fI => 4
  end.

Definition code_of (c : ascii) : option fcode :=
  match c with
  | "B"%char => Some fB
  | "H"%char => Some fH
  | "h"%char => Some fh
  | "I"%char => Some fI
  | _ => None
  end.

Definition digit_of (c : ascii) : option nat :=
  let n := nat_of_ascii c in
  if ((48 <=? n) && (n <=? 57))%nat then Some (n - 48)%nat else None.

(** The codes of a format, a repeat count applying to the code after it. *)
Fixpoint parse_codes (s : string) (count : option nat) : option (list fcode) :=
  match s with
  | EmptyString =>
      match count with
      | None => Some []
      | Some _ => None
      end
  | String c s' =>
      match digit_of c with
      | Some d =>
          parse_codes s' (Some (10 * match count with Some k => k | None => 0 end + d)%nat)
      | None =>
          match code_of c, parse_codes s' None with
          | Some f, Some fs =>
              Some (repeat f match count with Some k => k | None => 1%nat end ++ fs)
          | _, _ => None
          end
      end
  end.

(** [(native, codes)]: a leading [=] selects standard sizes without
    alignment, no prefix the native ones with alignment. *)
Definition parse_fmt (s : string) : option (bool * list fcode) :=
  match s with
  | String "="%char s' => option_map (pair false) (parse_codes s' None)
  | _ => option_map (pair true) (parse_codes s None)
  end.

(** Padding bytes that bring offset [off] to a multiple of [n]. *)
Definition padding (native : bool) (off n : nat) : nat :=
  if native then ((n - off mod n) mod n)%nat else 0%nat.

Fixpoint calcsize_from (native : bool) (off : nat) (fs : list fcode) : nat :=
  match fs with
  | [] => off
  | c :: fs' =>
      calcsize_from native (off + padding native off (fsize c) + fsize c) fs'
  end.

Definition calcsize (native : bool) (fs : list fcode) : nat :=
  calcsize_from native 0 fs.

(** *** struct: little-endian integers *)

Fixpoint le_decode (bs : list byte) : Z :=
  match bs with
  | [] => 0
  | b :: bs' => b2z b + 256 * le_decode bs'
  end.

Fixpoint le_encode (n : nat) (v : Z) : list byte :=
  match n with
  | O => []
  | S k => z2b (v mod 256) :: le_encode k (v / 256)
  end.

Definition in_range (c : fcode) (v : Z) : bool :=
  match c with
  | fB => (0 <=? v) && (v <? 256)
  | fH => (0 <=? v) && (v <? 65536)
  | fh => (-32768 <=? v) && (v <? 32768)
  | fI => (0 <=? v) && (v <? 4294967296)
  end.

Definition enc (c : fcode) (v : Z) : list byte :=
  match c with
  | fh => le_encode 2 (v mod 65536)
  | _ => le_encode (fsize c) v
  end.

Definition dec (c : fcode) (bs : list byte) : Z :=
  match c with
  | fh => let u := le_decode bs in if u <? 32768 then u else u - 65536
  | _ => le_decode bs
  end.

(** *** struct.unpack *)

Fixpoint unpack_fields (native : bool) (off : nat) (fs : list fcode)
    (bs : list byte) : list Z :=
  match fs with
  | [] => []
  | c :: fs' =>
      let pad := padding native off (fsize c) in
      let bs' := skipn pad bs in
      dec c (firstn (fsize c) bs')
        :: unpack_fields native (off + pad + fsize c) fs' (skipn (fsize c) bs')
  end.

(** [struct.unpack(fmt, buffer)]: the buffer must have exactly the size the
    format calls for. *)
Definition unpack (fmt : string) (bs : list byte) : result (list Z) :=
  match parse_fmt fmt with
  | None => Raise struct_error
  | Some (native, fs) =>
      if (length bs =? calcsize native fs)%nat
      then Ok (unpack_fields native 0 fs bs)
      else Raise struct_error
  end.

(** *** struct.pack_into *)

Fixpoint encode_fields (native : bool) (off : nat) (fs : list fcode)
    (vs : list Z) : list byte :=
  match fs, vs with
  | c :: fs', v :: vs' =>
      let pad := padding native off (fsize c) in
      repeat Byte.x00 pad ++ enc c v
        ++ encode_fields native (off + pad + fsize c) fs' vs'
  | _, _ => []
  end.

Fixpoint args_ok (fs : list fcode) (vs : list Z) : bool :=
  match fs, vs with
  | [], [] => true
  | c :: fs', v :: vs' => in_range c v && args_ok fs' vs'
  | _, _ => false
  end.

(** [struct.pack_into(fmt, buffer, offset, v1, v2, ...)], returning the
    buffer after the write.  A negative offset counts from the end; the
    write must lie inside the buffer and every argument inside the range
    of its code. *)
Definition pack_into (fmt : string) (data : list byte) (offset : Z)
    (vs : list Z) : result (list byte) :=
  match parse_fmt fmt with
  | None => Raise struct_error
  | Some (native, fs) =>
      let size := Z.of_nat (calcsize native fs) in
      if (offset <? 0) && ((0 <? offset + size) || (offset + len data <? 0))
      then Raise struct_error
      else
        let off := if offset <? 0 then offset + len data else offset in
        if len data - off <? size then Raise struct_error
        else if negb (args_ok fs vs) then Raise struct_error
        else Ok (firstn (Z.to_nat off) data
                   ++ encode_fields native 0 fs vs
                   ++ skipn (Z.to_nat (off + size)) data)
  end.

(** *** UTF-8 *)

(** A [str] is the sequence of its code points. *)
Definition str := list Z.

Definition utf8_encode_char (c : Z) : result (list byte) :=
  if (0 <=? c) && (c <? 128) then Ok [z2b c]
  else if (128 <=? c) && (c <? 2048) then
    Ok [z2b (192 + c / 64); z2b (128 + c mod 64)]
  else if (2048 <=? c) && (c <? 65536) then
    if (55296 <=? c) && (c <? 57344) then Raise UnicodeEncodeError
    else Ok [z2b (224 + c / 4096); z2b (128 + (c / 64) mod 64);
             z2b (128 + c mod 64)]
  else if (65536 <=? c) && (c <? 1114112) then
    Ok [z2b (240 + c / 262144); z2b (128 + (c / 4096) mod 64);
        z2b (128 + (c / 64) mod 64); z2b (128 + c mod 64)]
  else Raise UnicodeEncodeError.

(** [bytearray(s, 'utf-8')] / [s.encode('utf-8')]. *)
Fixpoint utf8_encode (s : str) : result (list byte) :=
  match s with
  | [] => Ok []
  | c :: s' =>
      bind (utf8_encode_char c) (fun bs =>
      bind (utf8_encode s') (fun rest => Ok (bs ++ rest)))
  end.

Definition between (lo x hi : Z) : bool := (lo <=? x) && (x <=? hi).

(** Continuation byte ranges allowed for the second byte after lead [b0]. *)
Definition second_ok (b0 b1 : Z) : bool :=
  if b0 =? 224 then between 160 b1 191
  else if b0 =? 237 then between 128 b1 159
  else if b0 =? 240 then between 144 b1 191
  else if b0 =? 244 then between 128 b1 143
  else between 128 b1 191.

Definition cont (b : Z) : bool := between 128 b 191.

(** [b.decode('utf-8')] with the default strict error handling. *)
Fixpoint utf8_decode (bs : list byte) : result str :=
  match bs with
  | [] => Ok []
  | x0 :: r0 =>
      let b0 := b2z x0 in
      if b0 <? 128 then
        bind (utf8_decode r0) (fun s => Ok (b0 :: s))
      else if between 194 b0 223 then
        match r0 with
        | x1 :: r1 =>
            let b1 := b2z x1 in
            if cont b1 then
              bind (utf8_decode r1) (fun s =>
                Ok (((b0 - 192) * 64 + (b1 - 128)) :: s))
            else Raise UnicodeDecodeError
        | _ => Raise UnicodeDecodeError
        end
      else if between 224 b0 239 then
        match r0 with
        | x1 :: x2 :: r2 =>
            let b1 := b2z x1 in
            let b2 := b2z x2 in
            if second_ok b0 b1 && cont b2 then
              bind (utf8_decode r2) (fun s =>
                Ok (((b0 - 224) * 4096 + (b1 - 128) * 64 + (b2 - 128)) :: s))
            else Raise UnicodeDecodeError
        | _ => Raise UnicodeDecodeError
        end
      else if between 240 b0 244 then
        match r0 with
        | x1 :: x2 :: x3 :: r3 =>
            let b1 := b2z x1 in
            let b2 := b2z x2 in
            let b3 := b2z x3 in
            if second_ok b0 b1 && cont b2 && cont b3 then
              bind (utf8_decode r3) (fun s =>
                Ok (((b0 - 240) * 262144 + (b1 - 128) * 4096
                     + (b2 - 128) * 64 + (b3 - 128)) :: s))
            else Raise UnicodeDecodeError
        | _ => Raise UnicodeDecodeError
        end
      else Raise UnicodeDecodeError
  end.

End Py.

Export Py.

Declare Scope py_scope.
Notation "x <- m ;; k" := (bind m (fun x => k))
  (at level 61, m at next level, right associativity) : py_scope.
Notation "' p <- m ;; k" := (bind m (fun p => k))
  (at level 61, p pattern, m at next level, right associativity) : py_scope.
Local Open Scope py_scope.


(* ===================================================================== *)
(** ** The sprite dictionary *)
(* ===================================================================== *)

(** The dictionaries of the source as records, one field per key.  A key
    that one of the two functions tests for, or that the reader sets only on
    some paths, is an [option]. *)

Record Layer : Type := mkLayer {
  layer_flags : Z;
  layer_type : Z;
  child_level : Z;
  blend_mode : Z;
  layer_opacity : Z;
  layer_name : str
}.

Record Tag : Type := mkTag {
  tag_name : str;
  tag_from : Z;
  tag_to : Z;
  loop_dir : Z
}.

Record Cel : Type := mkCel {
  cel_layer : Z;
  cel_x : Z;
  cel_y : Z;
  cel_opacity : Z;
  linked : option Z;
  cel_w : option Z;
  cel_h : option Z;
  pixels : option (list byte)
}.

Record Frame : Type := mkFrame {
  duration : Z;
  cels : list Cel
}.

(** A palette entry: the tuple [(r, g, b, a)]. *)
Definition Color : Type := Z * Z * Z * Z.

Record Sprite : Type := mkSprite {
  sprite_name : str;
  sprite_w : Z;
  sprite_h : Z;
  trans : Z;
  frames : list Frame;
  layers : option (list Layer);
  speed : Z;
  indexed : bool;
  palette : option (list Color);
  tags : option (list Tag)
}.

Definition set_palette (s : Sprite) (p : option (list Color)) : Sprite :=
  mkSprite (sprite_name s) (sprite_w s) (sprite_h s) (trans s) (frames s)
    (layers s) (speed s) (indexed s) p (tags s).

Definition set_tags (s : Sprite) (t : option (list Tag)) : Sprite :=
  mkSprite (sprite_name s) (sprite_w s) (sprite_h s) (trans s) (frames s)
    (layers s) (speed s) (indexed s) (palette s) t.

Definition set_layers (s : Sprite) (l : option (list Layer)) : Sprite :=
  mkSprite (sprite_name s) (sprite_w s) (sprite_h s) (trans s) (frames s)
    l (speed s) (indexed s) (palette s) (tags s).

Definition set_frames (s : Sprite) (f : list Frame) : Sprite :=
  mkSprite (sprite_name s) (sprite_w s) (sprite_h s) (trans s) f
    (layers s) (speed s) (indexed s) (palette s) (tags s).

Definition add_cel (f : Frame) (c : Cel) : Frame :=
  mkFrame (duration f) (cels f ++ [c]).

(** Chunk types. *)
Definition LAYER : Z := 0x2004.
Definition CEL : Z := 0x2005.
Definition TAGS : Z := 0x2018.
Definition PALETTE : Z := 0x2019.
Definition USER : Z := 0x2020.
Definition SLICE : Z := 0x2022.

(** [tuple[k]] on the result of [struct.unpack]. *)
Definition item (t : list Z) (k : nat) : Z := nth k t 0.

(* ===================================================================== *)
(** ** read_aseprite_file and write_aseprite_file *)
(* ===================================================================== *)

Section Aseprite.

(** [zlib.compress] and [zlib.decompress]. *)
Variable zlib_compress : list byte -> list byte.
Variable zlib_decompress : list byte -> result (list byte).

(** *** The reader *)

(** [for pe in range(0, pal_size)]: one 6-byte entry per turn. *)
Fixpoint read_palette_entries (data : list byte) (n : nat) (sprite : Sprite)
    (ptr : Z) : result (Sprite * Z) :=
  match n with
  | O => Ok (sprite, ptr)
  | S n' =>
      entry <- unpack "HBBBB" (pyslice data ptr (ptr + 6)) ;;
      pal <- getitem (palette sprite) ;;
      let sprite :=
        set_palette sprite
          (Some (pal ++ [(item entry 1, item entry 2, item entry 3, item entry 4)])) in
      read_palette_entries data n' sprite (ptr + 6)
  end.

(** [chunk_type == PALETTE]. *)
Definition read_palette (data : list byte) (sprite : Sprite) (ptr : Z)
    : result (Sprite * Z) :=
  let sprite := set_palette sprite (Some []) in
  t <- unpack "III" (pyslice data ptr (ptr + 12)) ;;
  let pal_size := item t 0 in
  let ptr := ptr + (12 + 8) in
  read_palette_entries data (Z.to_nat pal_size) sprite ptr.

(** [chunk_type == LAYER]. *)
Definition read_layer (data : list byte) (sprite : Sprite) (ptr : Z)
    : result (Sprite * Z) :=
  t <- unpack "HHHHHHB3BH" (pyslice data ptr (ptr + 18)) ;;
  let lay_flags := item t 0 in
  let lay_type := item t 1 in
  let child := item t 2 in
  let blend := item t 5 in
  let opacity := item t 6 in
  let name_size := item t 10 in
  let ptr := ptr + 18 in
  name <- (if 0 <? name_size
           then utf8_decode (pyslice data ptr (ptr + name_size))
           else Ok []) ;;
  ls <- getitem (layers sprite) ;;
  let sprite :=
    set_layers sprite
      (Some (ls ++ [mkLayer lay_flags lay_type child blend opacity name])) in
  Ok (sprite, ptr + name_size).

(** [for tag in range(0, tag_count)]. *)
Fixpoint read_tag_entries (data : list byte) (n : nat) (sprite : Sprite)
    (ptr : Z) : result (Sprite * Z) :=
  match n with
  | O => Ok (sprite, ptr)
  | S n' =>
      t <- unpack "=HHB" (pyslice data ptr (ptr + 5)) ;;
      let from_frame := item t 0 in
      let to_frame := item t 1 in
      let dir := item t 2 in
      let ptr := ptr + (5 + 12) in
      u <- unpack "H" (pyslice data ptr (ptr + 2)) ;;
      let name_size := item u 0 in
      let ptr := ptr + 2 in
      name <- (if 0 <? name_size
               then utf8_decode (pyslice data ptr (ptr + name_size))
               else Ok []) ;;
      let ptr := ptr + name_size in
      ts <- getitem (tags sprite) ;;
      let sprite :=
        set_tags sprite (Some (ts ++ [mkTag name from_frame to_frame dir])) in
      read_tag_entries data n' sprite ptr
  end.

(** [chunk_type == TAGS]. *)
Definition read_tags (data : list byte) (sprite : Sprite) (ptr : Z)
    : result (Sprite * Z) :=
  t <- unpack "H" (pyslice data ptr (ptr + 2)) ;;
  let tag_count := item t 0 in
  let sprite := set_tags sprite (Some []) in
  let ptr := ptr + (2 + 8) in
  read_tag_entries data (Z.to_nat tag_count) sprite ptr.

(** [chunk_type == CEL].  A [cel_type] other than 0, 1 and 2 takes no
    branch: the cel is appended with its four common keys only. *)
Definition read_cel (data : list byte) (frame : Frame) (ptr next_chunk : Z)
    : result (Frame * Z) :=
  t <- unpack "=HhhBH" (pyslice data ptr (ptr + 9)) ;;
  let layer := item t 0 in
  let x := item t 1 in
  let y := item t 2 in
  let opacity := item t 3 in
  let cel_type := item t 4 in
  let ptr := ptr + (9 + 7) in
  let cel := mkCel layer x y opacity None None None None in
  '(cel, ptr) <-
    (if cel_type =? 0 then
       d <- unpack "HH" (pyslice data ptr (ptr + 4)) ;;
       let ptr := ptr + 4 in
       let px := pyslice data ptr next_chunk in
       Ok (mkCel layer x y opacity None (Some (item d 0)) (Some (item d 1))
             (Some px), ptr)
     else if cel_type =? 1 then
       d <- unpack "H" (pyslice data ptr (ptr + 2)) ;;
       Ok (mkCel layer x y opacity (Some (item d 0)) None None None, ptr + 2)
     else if cel_type =? 2 then
       d <- unpack "HH" (pyslice data ptr (ptr + 4)) ;;
       let ptr := ptr + 4 in
       px <- zlib_decompress (pyslice data ptr next_chunk) ;;
       Ok (mkCel layer x y opacity None (Some (item d 0)) (Some (item d 1))
             (Some px), ptr)
     else Ok (cel, ptr)) ;;
  Ok (add_cel frame cel, ptr).

(** One turn of [for chunk in range(0, chunks)].  Whatever the handler
    leaves in [ptr] is overwritten by [ptr = next_chunk]. *)
Definition read_chunk (data : list byte) (st : Sprite * Frame * Z)
    : result (Sprite * Frame * Z) :=
  let '(sprite, frame, ptr) := st in
  t <- unpack "=IH" (pyslice data ptr (ptr + 6)) ;;
  let chunk_size := item t 0 in
  let chunk_type := item t 1 in
  let next_chunk := ptr + chunk_size in
  let ptr := ptr + 6 in
  '(sprite, frame) <-
    (if chunk_type =? PALETTE then
       '(sprite, _) <- read_palette data sprite ptr ;; Ok (sprite, frame)
     else if chunk_type =? LAYER then
       '(sprite, _) <- read_layer data sprite ptr ;; Ok (sprite, frame)
     else if chunk_type =? TAGS then
       '(sprite, _) <- read_tags data sprite ptr ;; Ok (sprite, frame)
     else if chunk_type =? CEL then
       '(frame, _) <- read_cel data frame ptr next_chunk ;; Ok (sprite, frame)
     else Ok (sprite, frame)) ;;
  Ok (sprite, frame, next_chunk).

Fixpoint read_chunks (data : list byte) (n : nat) (st : Sprite * Frame * Z)
    : result (Sprite * Frame * Z) :=
  match n with
  | O => Ok st
  | S n' => st <- read_chunk data st ;; read_chunks data n' st
  end.

(** The number of chunks the frame loop runs for, from the unpacked frame
    header [(frame_size, magic, old_chunks, duration, B, B, I)]. *)
Definition frame_chunks (fheader : list Z) : Z :=
  let old_chunks := item fheader 2 in
  let chunks := item fheader 4 in
  if chunks =? 0 then old_chunks else chunks.

(** One turn of [for frame_i in range(0, frames)]. *)
Definition read_frame (data : list byte) (st : Sprite * Z)
    : result (Sprite * Z) :=
  let '(sprite, ptr) := st in
  fheader <- unpack "IHHHBBI" (pyslice data ptr (ptr + 16)) ;;
  let magic := item fheader 1 in
  let dur := item fheader 3 in
  let chunks := frame_chunks fheader in
  _ <- assert (magic =? 0xF1FA) ;;
  let frame := mkFrame dur [] in
  let ptr := ptr + 16 in
  '(sprite, frame, ptr) <- read_chunks data (Z.to_nat chunks) (sprite, frame, ptr) ;;
  Ok (set_frames sprite (frames sprite ++ [frame]), ptr).

Fixpoint read_frames (data : list byte) (n : nat) (st : Sprite * Z)
    : result (Sprite * Z) :=
  match n with
  | O => Ok st
  | S n' => st <- read_frame data st ;; read_frames data n' st
  end.

(** [read_aseprite_file(path)], given the contents [data] of the file and
    [name], the base name of [path] without its extension. *)
Definition read_aseprite_file (name : str) (data : list byte) : result Sprite :=
  header <- unpack "=IHHHHHIHIIB3BHBB" (pyslice data 0 36) ;;
  let nframes := item header 2 in
  let width := item header 3 in
  let height := item header 4 in
  let cdepth := item header 5 in
  let spd := item header 7 in
  let transp := item header 10 in
  let sprite :=
    mkSprite name width height transp [] (Some []) spd (cdepth =? 8) None None in
  let ptr := 128 in
  '(sprite, _) <- read_frames data (Z.to_nat nframes) (sprite, ptr) ;;
  Ok sprite.

(** *** The writer *)

(** [for p in sprite['palette']]: the alpha written is always 255. *)
Fixpoint write_palette_entries (pal : list Color) (data : list byte) (ptr : Z)
    : result (list byte * Z) :=
  match pal with
  | [] => Ok (data, ptr)
  | (r, g, b, _) :: pal' =>
      data <- pack_into "=HBBBB" data ptr [0; r; g; b; 255] ;;
      write_palette_entries pal' data (ptr + 6)
  end.

Definition write_palette (pal : list Color) (data : list byte) (ptr : Z)
    : result (list byte * Z) :=
  let chunk_size_ptr := ptr in
  let ptr := ptr + 4 in
  data <- pack_into "=HIII" data ptr [0x2019; len pal; 0; len pal - 1] ;;
  let ptr := ptr + (14 + 8) in
  '(data, ptr) <- write_palette_entries pal data ptr ;;
  data <- pack_into "=I" data chunk_size_ptr [ptr - chunk_size_ptr] ;;
  Ok (data, ptr).

(** The name of a tag or of a layer: [len(name)] goes into the length
    field and is what the cursor advances by; the bytes stored are the
    UTF-8 encoding of the name. *)
Definition write_name (name : str) (data : list byte) (ptr : Z)
    : result (list byte * Z) :=
  data <- pack_into "=H" data ptr [len name] ;;
  let ptr := ptr + 2 in
  bs <- utf8_encode name ;;
  let data := pyslice_assign data ptr (ptr + len name) bs in
  Ok (data, ptr + len name).

(** [for t in sprite['tags']]. *)
Fixpoint write_tag_entries (ts : list Tag) (data : list byte) (ptr : Z)
    : result (list byte * Z) :=
  match ts with
  | [] => Ok (data, ptr)
  | t :: ts' =>
      data <- pack_into "=HHB" data ptr [tag_from t; tag_to t; loop_dir t] ;;
      let ptr := ptr + (5 + 8 + 3 + 1) in
      '(data, ptr) <- write_name (tag_name t) data ptr ;;
      write_tag_entries ts' data ptr
  end.

Definition write_tags (ts : list Tag) (data : list byte) (ptr : Z)
    : result (list byte * Z) :=
  let chunk_size_ptr := ptr in
  let ptr := ptr + 4 in
  data <- pack_into "=HH" data ptr [0x2018; len ts] ;;
  let ptr := ptr + (4 + 8) in
  '(data, ptr) <- write_tag_entries ts data ptr ;;
  data <- pack_into "=I" data chunk_size_ptr [ptr - chunk_size_ptr] ;;
  Ok (data, ptr).

Definition write_layer (l : Layer) (data : list byte) (ptr : Z)
    : result (list byte * Z) :=
  let chunk_size_ptr := ptr in
  let ptr := ptr + 4 in
  data <- pack_into "=H" data ptr [0x2004] ;;
  let ptr := ptr + 2 in
  data <- pack_into "=HHHHHHB" data ptr
            [layer_flags l; layer_type l; child_level l; 0; 0; blend_mode l;
             layer_opacity l] ;;
  let ptr := ptr + (13 + 3) in
  '(data, ptr) <- write_name (layer_name l) data ptr ;;
  data <- pack_into "=I" data chunk_size_ptr [ptr - chunk_size_ptr] ;;
  Ok (data, ptr).

(** [for layer in sprite['layers']], counting the chunks. *)
Fixpoint write_layers (ls : list Layer) (st : list byte * Z * Z)
    : result (list byte * Z * Z) :=
  match ls with
  | [] => Ok st
  | l :: ls' =>
      let '(data, ptr, chunk_count) := st in
      '(data, ptr) <- write_layer l data ptr ;;
      write_layers ls' (data, ptr, chunk_count + 1)
  end.

Definition write_cel (cel : Cel) (data : list byte) (ptr : Z)
    : result (list byte * Z) :=
  let chunk_size_ptr := ptr in
  let ptr := ptr + 4 in
  let cel_type := match linked cel with Some _ => 1 | None => 2 end in
  data <- pack_into "=HHhhBH" data ptr
            [0x2005; cel_layer cel; cel_x cel; cel_y cel; cel_opacity cel;
             cel_type] ;;
  let ptr := ptr + (11 + 7) in
  '(data, ptr) <-
    (match linked cel with
     | Some frame_pos =>
         data <- pack_into "=H" data ptr [frame_pos] ;;
         Ok (data, ptr + 2)
     | None =>
         cw <- getitem (cel_w cel) ;;
         ch <- getitem (cel_h cel) ;;
         data <- pack_into "=HH" data ptr [cw; ch] ;;
         let ptr := ptr + 4 in
         px <- getitem (pixels cel) ;;
         let compressed := zlib_compress px in
         let data := pyslice_assign data ptr (ptr + len compressed) compressed in
         Ok (data, ptr + len compressed)
     end) ;;
  data <- pack_into "=I" data chunk_size_ptr [ptr - chunk_size_ptr] ;;
  Ok (data, ptr).

(** [for cel in frame['cels']], counting the chunks. *)
Fixpoint write_cels (cs : list Cel) (st : list byte * Z * Z)
    : result (list byte * Z * Z) :=
  match cs with
  | [] => Ok st
  | c :: cs' =>
      let '(data, ptr, chunk_count) := st in
      '(data, ptr) <- write_cel c data ptr ;;
      write_cels cs' (data, ptr, chunk_count + 1)
  end.

(** [if first_frame]: the palette (indexed sprites only), the tags and the
    layers. *)
Definition write_first_frame (sprite : Sprite) (st : list byte * Z * Z)
    : result (list byte * Z * Z) :=
  st <- (if indexed sprite then
           let '(data, ptr, chunk_count) := st in
           pal <- getitem (palette sprite) ;;
           '(data, ptr) <- write_palette pal data ptr ;;
           Ok (data, ptr, chunk_count + 1)
         else Ok st) ;;
  st <- (match tags sprite with
         | Some ts =>
             let '(data, ptr, chunk_count) := st in
             '(data, ptr) <- write_tags ts data ptr ;;
             Ok (data, ptr, chunk_count + 1)
         | None => Ok st
         end) ;;
  match layers sprite with
  | Some ls => write_layers ls st
  | None => Ok st
  end.

(** One turn of [for frame in sprite['frames']]. *)
Definition write_frame (sprite : Sprite) (frame : Frame) (first_frame : bool)
    (data : list byte) (ptr : Z) : result (list byte * Z) :=
  let frame_size_ptr := ptr in
  let ptr := ptr + 4 in
  data <- pack_into "=HHHBBI" data ptr [0xF1FA; 0; duration frame; 0; 0; 0] ;;
  let chunk_count := 0 in
  let chunk_count_ptr := ptr + 2 in
  let ptr := ptr + 12 in
  st <- (if first_frame then write_first_frame sprite (data, ptr, chunk_count)
         else Ok (data, ptr, chunk_count)) ;;
  '(data, ptr, chunk_count) <- write_cels (cels frame) st ;;
  data <- pack_into "=H" data chunk_count_ptr [chunk_count] ;;
  data <- pack_into "=I" data frame_size_ptr [ptr - frame_size_ptr] ;;
  Ok (data, ptr).

Fixpoint write_frames (sprite : Sprite) (fs : list Frame) (first_frame : bool)
    (data : list byte) (ptr : Z) : result (list byte * Z) :=
  match fs with
  | [] => Ok (data, ptr)
  | frame :: fs' =>
      '(data, ptr) <- write_frame sprite frame first_frame data ptr ;;
      write_frames sprite fs' false data ptr
  end.

(** The scratch buffer: [bytearray(b'\x00') * 1024 * 100]. *)
Definition BUFFER_SIZE : Z := 1024 * 100.

Definition write_buffer (sprite : Sprite) (data : list byte)
    : result (list byte) :=
  let ptr := 4 in
  let cdepth := if indexed sprite then 8 else 32 in
  pal <- getitem (palette sprite) ;;
  data <- pack_into "=HHHHHIHIIBBBBHBB" data ptr
            [0xA5E0; len (frames sprite); sprite_w sprite; sprite_h sprite;
             cdepth; 1; speed sprite; 0; 0; trans sprite; 0; 0; 0; len pal;
             0; 0] ;;
  let ptr := ptr + 124 in
  '(data, ptr) <- write_frames sprite (frames sprite) true data ptr ;;
  data <- pack_into "=I" data 0 [ptr] ;;
  Ok (pyslice data 0 ptr).

(** [write_aseprite_file(path, sprite)]: the bytes written to [path]. *)
Definition write_aseprite_file (sprite : Sprite) : result (list byte) :=
  write_buffer sprite (repeat Byte.x00 (Z.to_nat BUFFER_SIZE)).

End Aseprite.

(* ===================================================================== *)
(** ** A zlib instance: stored blocks *)
(* ===================================================================== *)

(** The zlib streams of compression level 0: a two-byte header, the data
    in stored (uncompressed) deflate blocks of at most 65535 bytes, and the
    Adler-32 checksum of the data, big-endian.  Every such stream is one
    that [zlib.decompress] accepts; the properties below are stated for an
    arbitrary codec and instantiated with this one on concrete files. *)
Module Stored.

Definition BLOCK : Z := 65535.

Definition adler_step (st : Z * Z) (b : byte) : Z * Z :=
  let a := (fst st + b2z b) mod 65521 in
  (a, (snd st + a) mod 65521).

Definition adler32 (bs : list byte) : Z :=
  let st := fold_left adler_step bs (1, 0) in
  snd st * 65536 + fst st.

Definition be32 (v : Z) : list byte := rev (le_encode 4 v).

Fixpoint deflate (fuel : nat) (bs : list byte) : list byte :=
  match fuel with
  | O => []
  | S fuel' =>
      if len bs <=? BLOCK then
        Byte.x01 :: le_encode 2 (len bs) ++ le_encode 2 (BLOCK - len bs) ++ bs
      else
        Byte.x00 :: le_encode 2 BLOCK ++ le_encode 2 0
          ++ firstn (Z.to_nat BLOCK) bs
          ++ deflate fuel' (skipn (Z.to_nat BLOCK) bs)
  end.

Definition compress (bs : list byte) : list byte :=
  [Byte.x78; Byte.x01] ++ deflate (S (length bs)) bs ++ be32 (adler32 bs).

(** The blocks up to the final one: the data and what follows the blocks. *)
Fixpoint inflate (fuel : nat) (bs : list byte) : result (list byte * list byte) :=
  match fuel with
  | O => Raise zlib_error
  | S fuel' =>
      match bs with
      | hd :: l0 :: l1 :: n0 :: n1 :: rest =>
          let n := le_decode [l0; l1] in
          if (b2z hd <=? 1) && (le_decode [n0; n1] =? BLOCK - n)
             && (n <=? len rest)
          then
            let blk := firstn (Z.to_nat n) rest in
            let rest' := skipn (Z.to_nat n) rest in
            if b2z hd =? 1 then Ok (blk, rest')
            else '(out, tl) <- inflate fuel' rest' ;; Ok (blk ++ out, tl)
          else Raise zlib_error
      | _ => Raise zlib_error
      end
  end.

Definition decompress (bs : list byte) : result (list byte) :=
  match bs with
  | c :: f :: body =>
      if (b2z c =? 0x78) && (b2z f =? 0x01) then
        '(out, tl) <- inflate (length body) body ;;
        if list_eq_dec Byte.byte_eq_dec tl (be32 (adler32 out)) then Ok out
        else Raise zlib_error
      else Raise zlib_error
  | _ => Raise zlib_error
  end.

End Stored.

(** *** What a format packs to, and what unpack reads back *)

(** [struct.pack(fmt, ...)] without the range checks: the bytes a
    successful [pack_into] stores. *)
Definition packed (fmt : string) (vs : list Z) : list byte :=
  match parse_fmt fmt with
  | Some (native, fs) => encode_fields native 0 fs vs
  | None => []
  end.

Arguments enc : simpl never.
Arguments dec : simpl never.
Arguments pyslice : simpl never.
Arguments pyslice_assign : simpl never.
Arguments unpack : simpl never.
Arguments pack_into : simpl never.
Arguments packed : simpl never.
Arguments utf8_decode : simpl never.
Arguments utf8_encode : simpl never.

(** [suffix_at data p suf]: [suf] is what [data] holds from offset [p] on. *)
Definition suffix_at (data : list byte) (p : Z) (suf : list byte) : Prop :=
  exists pre, data = pre ++ suf /\ p = len pre.

(* ===================================================================== *)
(** ** The file format, chunk by chunk *)
(* ===================================================================== *)

(** The contents of a file as the format lays them out: every field of
    every record, the reserved bytes included.  [chunk_bytes] gives the
    bytes of a chunk; [apply_chunk] says what the reader makes of it. *)

Inductive CelBody : Type :=
| BRaw (w h : Z) (px : list byte)                (* cel type 0 *)
| BLinked (frame_pos : Z)                        (* cel type 1 *)
| BCompressed (w h : Z) (payload : list byte)    (* cel type 2 *)
| BOther (cel_type : Z) (rest : list byte).

Record WTag : Type := mkWTag {
  wt_from : Z;
  wt_to : Z;
  wt_dir : Z;
  wt_gap : list byte;         (* 12 reserved bytes *)
  wt_name : list byte
}.

Inductive Chunk : Type :=
| CPalette (first last : Z) (gap : list byte) (entries : list (Z * Color))
| CLayer (flags ty child u1 u2 blend opacity : Z) (gap : list byte)
    (name : list byte)
| CTags (gap : list byte) (ts : list WTag)
| CCel (layer x y opacity : Z) (gap : list byte) (body : CelBody)
| COther (chunk_type : Z) (payload : list byte).

Definition name_field (nb : list byte) : list byte :=
  packed "=H" [len nb] ++ nb.

Definition entry_bytes (e : Z * Color) : list byte :=
  let '(flag, (r, g, b, a)) := e in packed "=HBBBB" [flag; r; g; b; a].

Definition tag_bytes (t : WTag) : list byte :=
  packed "=HHB" [wt_from t; wt_to t; wt_dir t] ++ wt_gap t
    ++ name_field (wt_name t).

Definition cel_type_of (b : CelBody) : Z :=
  match b with
  | BRaw _ _ _ => 0
  | BLinked _ => 1
  | BCompressed _ _ _ => 2
  | BOther t _ => t
  end.

Definition cel_body_bytes (b : CelBody) : list byte :=
  match b with
  | BRaw w h px => packed "=HH" [w; h] ++ px
  | BLinked f => packed "=H" [f]
  | BCompressed w h z => packed "=HH" [w; h] ++ z
  | BOther _ r => r
  end.

Definition chunk_type_of (c : Chunk) : Z :=
  match c with
  | CPalette _ _ _ _ => PALETTE
  | CLayer _ _ _ _ _ _ _ _ _ => LAYER
  | CTags _ _ => TAGS
  | CCel _ _ _ _ _ _ => CEL
  | COther t _ => t
  end.

Definition chunk_body (c : Chunk) : list byte :=
  match c with
  | CPalette first last gap es =>
      packed "=III" [len es; first; last] ++ gap
        ++ concat (map entry_bytes es)
  | CLayer flags ty child u1 u2 blend opacity gap nb =>
      packed "=HHHHHHB" [flags; ty; child; u1; u2; blend; opacity] ++ gap
        ++ name_field nb
  | CTags gap ts =>
      packed "=H" [len ts] ++ gap ++ concat (map tag_bytes ts)
  | CCel layer x y opacity gap body =>
      packed "=HhhBH" [layer; x; y; opacity; cel_type_of body] ++ gap
        ++ cel_body_bytes body
  | COther _ payload => payload
  end.

(** A chunk: its size (the six bytes of this record included), its type,
    its body. *)
Definition chunk_bytes (c : Chunk) : list byte :=
  packed "=IH" [6 + len (chunk_body c); chunk_type_of c] ++ chunk_body c.

(** Every field inside the range of its code, every reserved run of the
    length the format gives it. *)
Definition entry_ok (e : Z * Color) : bool :=
  let '(flag, (r, g, b, a)) := e in
  args_ok [fH; fB; fB; fB; fB] [flag; r; g; b; a].

Definition tag_ok (t : WTag) : bool :=
  args_ok [fH; fH; fB] [wt_from t; wt_to t; wt_dir t]
  && (length (wt_gap t) =? 12)%nat
  && in_range fH (len (wt_name t)).

Definition cel_body_ok (b : CelBody) : bool :=
  match b with
  | BRaw w h _ => args_ok [fH; fH] [w; h]
  | BLinked f => in_range fH f
  | BCompressed w h _ => args_ok [fH; fH] [w; h]
  | BOther t _ => negb (t =? 0) && negb (t =? 1) && negb (t =? 2)
  end.

Definition chunk_fields_ok (c : Chunk) : bool :=
  match c with
  | CPalette first last gap es =>
      args_ok [fI; fI; fI] [len es; first; last]
      && (length gap =? 8)%nat && forallb entry_ok es
  | CLayer flags ty child u1 u2 blend opacity gap nb =>
      args_ok [fH; fH; fH; fH; fH; fH; fB]
        [flags; ty; child; u1; u2; blend; opacity]
      && (length gap =? 3)%nat && in_range fH (len nb)
  | CTags gap ts =>
      in_range fH (len ts) && (length gap =? 8)%nat && forallb tag_ok ts
  | CCel layer x y opacity gap body =>
      args_ok [fH; fh; fh; fB; fH] [layer; x; y; opacity; cel_type_of body]
      && (length gap =? 7)%nat && cel_body_ok body
  | COther t _ =>
      negb (t =? PALETTE) && negb (t =? LAYER) && negb (t =? TAGS)
      && negb (t =? CEL)
  end.

Definition chunk_ok (c : Chunk) : bool :=
  args_ok [fI; fH] [6 + len (chunk_body c); chunk_type_of c]
  && chunk_fields_ok c.

Record WFrame : Type := mkWFrame {
  wf_size : Z;                (* the frame-size field *)
  wf_duration : Z;
  wf_chunks : list Chunk
}.

(** A frame: its 16-byte record, the chunk count in the old (16-bit)
    field, then its chunks. *)
Definition frame_bytes (f : WFrame) : list byte :=
  packed "=IHHHBBI"
    [wf_size f; 0xF1FA; len (wf_chunks f); wf_duration f; 0; 0; 0]
    ++ concat (map chunk_bytes (wf_chunks f)).

Definition frame_ok (f : WFrame) : bool :=
  args_ok [fI; fH; fH; fH; fB; fB; fI]
    [wf_size f; 0xF1FA; len (wf_chunks f); wf_duration f; 0; 0; 0]
  && forallb chunk_ok (wf_chunks f).

Record WFile : Type := mkWFile {
  w_header : list Z;          (* the 17 fields of the first 36 bytes *)
  w_gap : list byte;          (* bytes 36 to 127 *)
  w_frames : list WFrame
}.

Definition HEADER_CODES : list fcode :=
  [fI; fH; fH; fH; fH; fH; fI; fH; fI; fI; fB; fB; fB; fB; fH; fB; fB].

Definition file_bytes (f : WFile) : list byte :=
  packed "=IHHHHHIHIIB3BHBB" (w_header f) ++ w_gap f
    ++ concat (map frame_bytes (w_frames f)).

Definition file_ok (f : WFile) : bool :=
  args_ok HEADER_CODES (w_header f)
  && (item (w_header f) 2 =? len (w_frames f))
  && (length (w_gap f) =? 92)%nat
  && forallb frame_ok (w_frames f).

(** The sprite before the first frame is read. *)
Definition init_sprite (name : str) (header : list Z) : Sprite :=
  mkSprite name (item header 3) (item header 4) (item header 10) []
    (Some []) (item header 7) (item header 5 =? 8) None None.

Section Format.

Variable zlib_decompress : list byte -> result (list byte).

Definition apply_tag (t : WTag) (sprite : Sprite) : result Sprite :=
  name <- utf8_decode (wt_name t) ;;
  ts <- getitem (tags sprite) ;;
  Ok (set_tags sprite
        (Some (ts ++ [mkTag name (wt_from t) (wt_to t) (wt_dir t)]))).

Fixpoint apply_tags (ts : list WTag) (sprite : Sprite) : result Sprite :=
  match ts with
  | [] => Ok sprite
  | t :: ts' => sprite <- apply_tag t sprite ;; apply_tags ts' sprite
  end.

Definition apply_cel_body (layer x y opacity : Z) (b : CelBody) : result Cel :=
  match b with
  | BRaw w h px => Ok (mkCel layer x y opacity None (Some w) (Some h) (Some px))
  | BLinked f => Ok (mkCel layer x y opacity (Some f) None None None)
  | BCompressed w h z =>
      px <- zlib_decompress z ;;
      Ok (mkCel layer x y opacity None (Some w) (Some h) (Some px))
  | BOther _ _ => Ok (mkCel layer x y opacity None None None None)
  end.

(** The effect of one chunk on the sprite and on the frame being read. *)
Definition apply_chunk (c : Chunk) (st : Sprite * Frame)
    : result (Sprite * Frame) :=
  let '(sprite, frame) := st in
  match c with
  | CPalette _ _ _ es =>
      Ok (set_palette sprite (Some (map snd es)), frame)
  | CLayer flags ty child _ _ blend opacity _ nb =>
      name <- utf8_decode nb ;;
      ls <- getitem (layers sprite) ;;
      Ok (set_layers sprite
            (Some (ls ++ [mkLayer flags ty child blend opacity name])), frame)
  | CTags _ ts =>
      sprite <- apply_tags ts (set_tags sprite (Some [])) ;;
      Ok (sprite, frame)
  | CCel layer x y opacity _ body =>
      cel <- apply_cel_body layer x y opacity body ;;
      Ok (sprite, add_cel frame cel)
  | COther _ _ => Ok (sprite, frame)
  end.

Fixpoint apply_chunks (cs : list Chunk) (st : Sprite * Frame)
    : result (Sprite * Frame) :=
  match cs with
  | [] => Ok st
  | c :: cs' => st <- apply_chunk c st ;; apply_chunks cs' st
  end.

Definition apply_frame (f : WFrame) (sprite : Sprite) : result Sprite :=
  '(sprite, frame) <-
    apply_chunks (wf_chunks f) (sprite, mkFrame (wf_duration f) []) ;;
  Ok (set_frames sprite (frames sprite ++ [frame])).

Fixpoint apply_frames (fs : list WFrame) (sprite : Sprite) : result Sprite :=
  match fs with
  | [] => Ok sprite
  | f :: fs' => sprite <- apply_frame f sprite ;; apply_frames fs' sprite
  end.

End Format.


(* ===================================================================== *)
(** ** What the writer lays out *)
(* ===================================================================== *)

(** The reserved bytes of a chunk replaced by zeros. *)
Definition zeros (n : nat) : list byte := repeat Byte.x00 n.

Definition erase_tag (t : WTag) : WTag :=
  mkWTag (wt_from t) (wt_to t) (wt_dir t) (zeros 12) (wt_name t).

Definition erase (c : Chunk) : Chunk :=
  match c with
  | CPalette first last _ es => CPalette first last (zeros 8) es
  | CLayer flags ty child u1 u2 blend opacity _ nb =>
      CLayer flags ty child u1 u2 blend opacity (zeros 3) nb
  | CTags _ ts => CTags (zeros 8) (map erase_tag ts)
  | CCel layer x y opacity _ body => CCel layer x y opacity (zeros 7) body
  | COther t payload => COther t payload
  end.

(** The bytes stored for a name: as many bytes of its UTF-8 encoding as the
    name has characters. *)
Definition name_bytes (name : str) : list byte :=
  match utf8_encode name with
  | Ok bs => firstn (length name) bs
  | Raise _ => []
  end.

Definition is_ok {A} (m : result A) : bool :=
  match m with
  | Ok _ => true
  | Raise _ => false
  end.

Definition wire_color (c : Color) : Z * Color :=
  let '(r, g, b, _) := c in (0, (r, g, b, 255)).

Definition wire_palette (pal : list Color) : Chunk :=
  CPalette 0 (len pal - 1) (zeros 8) (map wire_color pal).

Definition wire_tag (t : Tag) : WTag :=
  mkWTag (tag_from t) (tag_to t) (loop_dir t) (zeros 12)
    (name_bytes (tag_name t)).

Definition wire_tags (ts : list Tag) : Chunk :=
  CTags (zeros 8) (map wire_tag ts).

Definition wire_layer (l : Layer) : Chunk :=
  CLayer (layer_flags l) (layer_type l) (child_level l) 0 0 (blend_mode l)
    (layer_opacity l) (zeros 3) (name_bytes (layer_name l)).

(** Sizes in bytes. *)
Definition cel_body_size (b : CelBody) : Z :=
  match b with
  | BRaw _ _ px => 4 + len px
  | BLinked _ => 2
  | BCompressed _ _ z => 4 + len z
  | BOther _ r => len r
  end.

Definition tag_size (t : WTag) : Z := 19 + len (wt_name t).

Fixpoint sum (l : list Z) : Z :=
  match l with
  | [] => 0
  | x :: l' => x + sum l'
  end.

Definition chunk_size (c : Chunk) : Z :=
  match c with
  | CPalette _ _ _ es => 26 + 6 * len es
  | CLayer _ _ _ _ _ _ _ _ nb => 24 + len nb
  | CTags _ ts => 16 + sum (map tag_size ts)
  | CCel _ _ _ _ _ body => 22 + cel_body_size body
  | COther _ payload => 6 + len payload
  end.

(** Validity of the values handed to the writer: every number inside the
    range of the field it is packed into, every name encodable. *)
Definition color_ok (c : Color) : bool :=
  let '(r, g, b, _) := c in args_ok [fB; fB; fB] [r; g; b].

Definition name_ok (name : str) : bool :=
  in_range fH (len name) && is_ok (utf8_encode name).

Definition tag_valid (t : Tag) : bool :=
  args_ok [fH; fH; fB] [tag_from t; tag_to t; loop_dir t]
  && name_ok (tag_name t).

Definition layer_valid (l : Layer) : bool :=
  args_ok [fH; fH; fH; fH; fB]
    [layer_flags l; layer_type l; child_level l; blend_mode l; layer_opacity l]
  && name_ok (layer_name l).

Definition cel_valid (c : Cel) : bool :=
  args_ok [fH; fh; fh; fB] [cel_layer c; cel_x c; cel_y c; cel_opacity c]
  && match linked c with
     | Some f => in_range fH f
     | None =>
         match cel_w c, cel_h c, pixels c with
         | Some cw, Some ch, Some _ => args_ok [fH; fH] [cw; ch]
         | _, _, _ => false
         end
     end.

Definition frame_valid (f : Frame) : bool :=
  in_range fH (duration f) && forallb cel_valid (cels f).

Definition opt_list {A} (o : option (list A)) : list A :=
  match o with
  | Some l => l
  | None => []
  end.

Definition sprite_valid (s : Sprite) : bool :=
  args_ok [fH; fH; fH; fB; fH]
    [sprite_w s; sprite_h s; speed s; trans s; len (opt_list (palette s))]
  && is_ok (getitem (palette s))
  && (negb (indexed s) || (1 <=? len (opt_list (palette s))))
  && forallb color_ok (opt_list (palette s))
  && forallb tag_valid (opt_list (tags s))
  && forallb layer_valid (opt_list (layers s))
  && forallb frame_valid (frames s).

Section Encoding.

Variable zlib_compress : list byte -> list byte.

Definition wire_cel_body (c : Cel) : CelBody :=
  match linked c with
  | Some f => BLinked f
  | None =>
      BCompressed (match cel_w c with Some v => v | None => 0 end)
        (match cel_h c with Some v => v | None => 0 end)
        (zlib_compress (opt_list (pixels c)))
  end.

Definition wire_cel (c : Cel) : Chunk :=
  CCel (cel_layer c) (cel_x c) (cel_y c) (cel_opacity c) (zeros 7)
    (wire_cel_body c).

(** The chunks of a frame, in the order the writer emits them. *)
Definition wire_first (s : Sprite) : list Chunk :=
  (if indexed s then [wire_palette (opt_list (palette s))] else [])
  ++ match tags s with
     | Some ts => [wire_tags ts]
     | None => []
     end
  ++ map wire_layer (opt_list (layers s)).

Definition wire_chunks (s : Sprite) (f : Frame) (first_frame : bool)
    : list Chunk :=
  (if first_frame then wire_first s else []) ++ map wire_cel (cels f).

Definition frame_size (s : Sprite) (f : Frame) (first_frame : bool) : Z :=
  16 + sum (map chunk_size (wire_chunks s f first_frame)).

Fixpoint frames_size (s : Sprite) (fs : list Frame) (first_frame : bool) : Z :=
  match fs with
  | [] => 0
  | f :: fs' => frame_size s f first_frame + frames_size s fs' false
  end.

(** The number of bytes the writer produces. *)
Definition file_size (s : Sprite) : Z := 128 + frames_size s (frames s) true.

(** The output fits the scratch buffer. *)
Definition fits (s : Sprite) : bool := file_size s <=? BUFFER_SIZE.

Definition wire_frame (s : Sprite) (f : Frame) (first_frame : bool) : WFrame :=
  mkWFrame (frame_size s f first_frame) (duration f)
    (wire_chunks s f first_frame).

Fixpoint wire_frames (s : Sprite) (fs : list Frame) (first_frame : bool)
    : list WFrame :=
  match fs with
  | [] => []
  | f :: fs' => wire_frame s f first_frame :: wire_frames s fs' false
  end.

Definition wire_header (s : Sprite) : list Z :=
  [file_size s; 0xA5E0; len (frames s); sprite_w s; sprite_h s;
   if indexed s then 8 else 32; 1; speed s; 0; 0; trans s; 0; 0; 0;
   len (opt_list (palette s)); 0; 0].

End Encoding.

Definition erase_frame (f : WFrame) : WFrame :=
  mkWFrame (wf_size f) (wf_duration f) (map erase (wf_chunks f)).

(** *** The sprite a written file reads back as *)

(** What is kept of a name: the decoding of the bytes stored for it. *)
Definition read_back_name (name : str) : result str :=
  utf8_decode (name_bytes name).

Fixpoint mapM {A B} (f : A -> result B) (l : list A) : result (list B) :=
  match l with
  | [] => Ok []
  | a :: l' => b <- f a ;; bs <- mapM f l' ;; Ok (b :: bs)
  end.

Definition read_back_tag (t : Tag) : result Tag :=
  name <- read_back_name (tag_name t) ;;
  Ok (mkTag name (tag_from t) (tag_to t) (loop_dir t)).

Definition read_back_layer (l : Layer) : result Layer :=
  name <- read_back_name (layer_name l) ;;
  Ok (mkLayer (layer_flags l) (layer_type l) (child_level l) (blend_mode l)
        (layer_opacity l) name).

Definition read_back_cel (c : Cel) : Cel :=
  match linked c with
  | Some f =>
      mkCel (cel_layer c) (cel_x c) (cel_y c) (cel_opacity c) (Some f)
        None None None
  | None =>
      mkCel (cel_layer c) (cel_x c) (cel_y c) (cel_opacity c) None
        (cel_w c) (cel_h c) (pixels c)
  end.

Definition read_back_frame (f : Frame) : Frame :=
  mkFrame (duration f) (map read_back_cel (cels f)).

Definition read_back_color (c : Color) : Color :=
  let '(r, g, b, _) := c in (r, g, b, 255).

(** With no frame nothing but the header is written; otherwise the palette
    comes back for indexed sprites only, with every alpha 255, and the
    cels in their normal form. *)
Definition read_back (name : str) (s : Sprite) : result Sprite :=
  match frames s with
  | [] =>
      Ok (mkSprite name (sprite_w s) (sprite_h s) (trans s) [] (Some [])
            (speed s) (indexed s) None None)
  | _ =>
      ts <- match tags s with
            | Some ts => ts' <- mapM read_back_tag ts ;; Ok (Some ts')
            | None => Ok None
            end ;;
      ls <- mapM read_back_layer (opt_list (layers s)) ;;
      Ok (mkSprite name (sprite_w s) (sprite_h s) (trans s)
            (map read_back_frame (frames s)) (Some ls) (speed s) (indexed s)
            (if indexed s
             then Some (map read_back_color (opt_list (palette s)))
             else None)
            ts)
  end.

(** *** Names *)

(** A name all of whose characters are ASCII. *)
Definition ascii_str (name : str) : bool :=
  forallb (fun c => (0 <=? c) && (c <? 128)) name.

Definition layer_names (s : Sprite) : list str :=
  map layer_name (opt_list (layers s)).

Definition tag_names (s : Sprite) : list str :=
  map tag_name (opt_list (tags s)).

(** Every layer name and every tag name of the sprite is ASCII. *)
Definition ascii_names (s : Sprite) : bool :=
  forallb ascii_str (layer_names s) && forallb ascii_str (tag_names s).

(* ===================================================================== *)
(** ** Sample sprites and files *)
(* ===================================================================== *)

Module Samples.

(** The header fields of a 1x1 file with [n] frames, colour depth
    [cdepth] and magic number [magic]. *)
Definition header (magic n cdepth : Z) : list Z :=
  [0; magic; n; 1; 1; cdepth; 1; 100; 0; 0; 0; 0; 0; 0; 0; 0; 0].

(** A linked cel on layer [layer]. *)
Definition linked_cel (layer : Z) : Chunk :=
  CCel layer 0 0 255 (zeros 7) (BLinked 0).

(** One frame whose record announces one chunk in the old count field and
    two in the new one, followed by two cel chunks. *)
Definition two_counts_file : list byte :=
  packed "=IHHHHHIHIIB3BHBB" (header 0xA5E0 1 32) ++ zeros 92
    ++ packed "=IHHHBBI" [64; 0xF1FA; 1; 100; 0; 0; 2]
    ++ chunk_bytes (linked_cel 0) ++ chunk_bytes (linked_cel 1).

(** A cel chunk of type 3. *)
Definition odd_cel : Chunk :=
  CCel 0 5 6 255 (zeros 7) (BOther 3 [Byte.x01; Byte.x02]).

Definition odd_cel_file : WFile :=
  mkWFile (header 0xA5E0 1 8) (zeros 92) [mkWFrame 40 100 [odd_cel]].

(** A file without frames whose magic number is 0. *)
Definition no_magic_file : WFile := mkWFile (header 0 0 32) (zeros 92) [].

(** A frame record whose magic number is 0xF1FB. *)
Definition bad_frame_file : list byte :=
  packed "=IHHHHHIHIIB3BHBB" (header 0xA5E0 1 32) ++ zeros 92
    ++ packed "=IHHHBBI" [16; 0xF1FB; 0; 100; 0; 0; 0].

(** A 2x2 compressed cel, in an indexed file, whose payload holds a single
    byte. *)
Definition short_cel : Chunk :=
  CCel 0 0 0 255 (zeros 7) (BCompressed 2 2 (Stored.compress [Byte.x07])).

Definition short_cel_file : WFile :=
  mkWFile (header 0xA5E0 1 8) (zeros 92) [mkWFrame 54 100 [short_cel]].

(** An rgba sprite with one empty frame and an empty palette. *)
Definition rgba_sprite : Sprite :=
  mkSprite [] 1 1 0 [mkFrame 100 []] (Some []) 100 false (Some []) None.

(** An indexed sprite whose only colour has alpha 4. *)
Definition alpha_sprite : Sprite :=
  mkSprite [] 1 1 0 [mkFrame 100 []] (Some []) 100 true
    (Some [(1, 2, 3, 4)]) None.

(** An indexed sprite with one layer, named "bg". *)
Definition layer_sprite : Sprite :=
  mkSprite [] 1 1 0 [mkFrame 100 []]
    (Some [mkLayer 1 0 0 0 255 [98; 103]]) 100 true
    (Some [(0, 0, 0, 255)]) None.

(** The same with the layer named "é" (U+00E9). *)
Definition accent_sprite : Sprite :=
  mkSprite [] 1 1 0 [mkFrame 100 []]
    (Some [mkLayer 1 0 0 0 255 [233]]) 100 true
    (Some [(0, 0, 0, 255)]) None.

(** The 2x2 indexed sprite of the end-to-end test: two colours, the layer
    "bg", one cel with pixels 0 1 1 0, and a tag "go". *)
Definition small_sprite : Sprite :=
  mkSprite [] 2 2 0
    [mkFrame 100 [mkCel 0 0 0 255 None (Some 2) (Some 2)
                    (Some [Byte.x00; Byte.x01; Byte.x01; Byte.x00])]]
    (Some [mkLayer 1 0 0 0 255 [98; 103]]) 100 true
    (Some [(0, 0, 0, 255); (255, 255, 255, 255)])
    (Some [mkTag [103; 111] 0 0 0]).

(** A palette of two colours, a user-data chunk and a raw 1x1 cel. *)
Definition two_colours : Chunk :=
  CPalette 0 1 (zeros 8) [(0, (0, 0, 0, 255)); (0, (255, 255, 255, 255))].

Definition user_chunk : Chunk := COther USER [Byte.x2a; Byte.x2b; Byte.x2c].

Definition raw_cel : Chunk := CCel 0 0 0 255 (zeros 7) (BRaw 1 1 [Byte.x01]).

End Samples.

(** What a sprite with at least one frame and ASCII names reads back as. *)
Definition normal_form (name : str) (s : Sprite) : Sprite :=
  mkSprite name (sprite_w s) (sprite_h s) (trans s)
    (map read_back_frame (frames s)) (Some (opt_list (layers s))) (speed s)
    (indexed s)
    (if indexed s
     then Some (map read_back_color (opt_list (palette s)))
     else None)
    (tags s).

(** The file [f] with [magic] in the magic-number field of its header. *)
Definition with_magic (f : WFile) (magic : Z) : WFile :=
  mkWFile
    (match w_header f with
     | size :: _ :: fields => size :: magic :: fields
     | h => h
     end)
    (w_gap f) (w_frames f).

(* ===================================================================== *)
(** ** What a step of the writer emits *)
(* ===================================================================== *)

(** The buffer is seen as [cur ++ rest], the cursor standing at the end of
    [cur].  [emits m cur bs rest]: the step [m] succeeds, appends [bs] to
    [cur], moves the cursor to its end, and leaves at least as much room
    after it as [rest] had, less the bytes emitted. *)
Definition emits (m : result (list byte * Z)) (cur bs rest : list byte) : Prop :=
  exists rest',
    m = Ok ((cur ++ bs) ++ rest', len (cur ++ bs))
    /\ len rest <= len bs + len rest'.

(** [emits_chunks m cur rest n target]: the step [m], started with [n]
    chunks counted, succeeds and appends to [cur] the bytes of chunks that
    are [target] up to their reserved bytes, counting them. *)
Definition emits_chunks (m : result (list byte * Z * Z)) (cur rest : list byte)
    (n : Z) (target : list Chunk) : Prop :=
  exists cs rest',
    m = Ok ((cur ++ concat (map chunk_bytes cs)) ++ rest',
            len (cur ++ concat (map chunk_bytes cs)), n + len cs)
    /\ len rest <= len (concat (map chunk_bytes cs)) + len rest'
    /\ forallb chunk_ok cs = true
    /\ map erase cs = target.

(* ===================================================================== *)
(** ** dump_pixels *)
(* ===================================================================== *)

(** [dump_pixels(pixels, w, h, transp)] prints the pixels of a cel as text.
    The text printed is threaded through the computation: when an index is
    out of range the call raises IndexError and what was printed before
    stays printed. *)
Module Dump.

Inductive outcome (A : Type) : Type :=
| Returned (a : A)
| IndexError.
Arguments Returned {A} a.
Arguments IndexError {A}.

(** [l[i]] for an integer [i]: a negative index counts from the end. *)
Definition index {A} (l : list A) (i : Z) : option A :=
  if i <? 0
  then if i + len l <? 0 then None else nth_error l (Z.to_nat (i + len l))
  else nth_error l (Z.to_nat i).

(** The sixteen characters of [palette], by code: space, full stop,
    apostrophe, backquote, caret, double quote, comma, colon, semicolon,
    I, l, exclamation mark, i, greater-than, less-than, hash. *)
Definition palette : list ascii :=
  map ascii_of_nat [32; 46; 39; 96; 94; 34; 44; 58; 59; 73; 108; 33; 105; 62;
                    60; 35]%nat.

Definition dot : ascii := ascii_of_nat 46.
Definition space : ascii := ascii_of_nat 32.
Definition newline : ascii := ascii_of_nat 10.

(** [for px in range(0, w)], [n] columns left: the text printed and the
    index [i] of the next pixel. *)
Fixpoint dump_row (pixels : list byte) (transp : Z) (n : nat) (i : Z)
    (out : list ascii) : list ascii * outcome Z :=
  match n with
  | O => (out, Returned i)
  | S n' =>
      match index pixels i with
      | None => (out, IndexError)
      | Some p =>
          if b2z p =? transp
          then dump_row pixels transp n' (i + 1) (out ++ [dot; dot])
          else
            match index palette (b2z p) with
            | None => (out, IndexError)
            | Some c => dump_row pixels transp n' (i + 1) (out ++ [c; c])
            end
      end
  end.

(** [for py in range(0, h)], [n] rows left. *)
Fixpoint dump_rows (pixels : list byte) (w transp : Z) (n : nat) (i : Z)
    (out : list ascii) : list ascii * outcome unit :=
  match n with
  | O => (out, Returned tt)
  | S n' =>
      let out := out ++ repeat space 6 in
      match dump_row pixels transp (Z.to_nat w) i out with
      | (out, Returned i) =>
          dump_rows pixels w transp n' i (out ++ [newline])
      | (out, IndexError) => (out, IndexError)
      end
  end.

Definition dump_pixels (pixels : list byte) (w h transp : Z)
    : list ascii * outcome unit :=
  dump_rows pixels w transp (Z.to_nat h) 0 [].

(** A pixel the dump can print: the transparent one, or one below 16. *)
Definition printable (transp : Z) (p : byte) : bool :=
  (b2z p =? transp) || (b2z p <? 16).

(** The two characters printed for a pixel. *)
Definition glyph (transp : Z) (p : byte) : list ascii :=
  if b2z p =? transp then [dot; dot]
  else let c := nth (Z.to_nat (b2z p)) palette space in [c; c].

(** The text of the rows: [n] rows of [w] pixels each. *)
Fixpoint rows_text (transp : Z) (w n : nat) (pixels : list byte)
    : list ascii :=
  match n with
  | O => []
  | S n' =>
      repeat space 6 ++ concat (map (glyph transp) (firstn w pixels))
      ++ [newline] ++ rows_text transp w n' (skipn w pixels)
  end.

End Dump.
(* ===================================================================== *)
(** ** Bytes, slices and struct: basic facts *)
(* ===================================================================== *)

Lemma b2z_range (b : byte) : 0 <= b2z b < 256.
Proof.
  unfold b2z. pose proof (Byte.to_N_bounded b). lia.
Qed.

Lemma b2z_z2b (z : Z) : 0 <= z < 256 -> b2z (z2b z) = z.
Proof.
  intros Hz. unfold z2b, b2z.
  destruct (Byte.of_N (Z.to_N z)) as [b|] eqn:E.
  - apply Byte.to_of_N in E. rewrite E. lia.
  - apply Byte.of_N_None_iff in E. lia.
Qed.

Lemma z2b_b2z (b : byte) : z2b (b2z b) = b.
Proof.
  unfold z2b, b2z. rewrite N2Z.id, Byte.of_to_N. reflexivity.
Qed.

Lemma bind_assoc {A B C} (m : result A) (f : A -> result B)
    (g : B -> result C) :
  bind (bind m f) g = bind m (fun a => bind (f a) g).
Proof. destruct m; reflexivity. Qed.

Lemma len_app {A} (l1 l2 : list A) : len (l1 ++ l2) = len l1 + len l2.
Proof. unfold len. rewrite length_app. lia. Qed.

Lemma len_nonneg {A} (l : list A) : 0 <= len l.
Proof. unfold len. lia. Qed.

Lemma len_nil {A} : len (@nil A) = 0.
Proof. reflexivity. Qed.

Lemma len_cons {A} (a : A) (l : list A) : len (a :: l) = 1 + len l.
Proof. unfold len. cbn [length]. lia. Qed.

Lemma le_encode_length (n : nat) (v : Z) : length (le_encode n v) = n.
Proof.
  revert v. induction n as [|n IH]; intros v; cbn [le_encode length]; auto.
Qed.

Lemma le_decode_range (bs : list byte) :
  0 <= le_decode bs < 256 ^ Z.of_nat (length bs).
Proof.
  induction bs as [|b bs IH].
  - cbn. lia.
  - cbn [le_decode length]. rewrite Nat2Z.inj_succ, Z.pow_succ_r by lia.
    pose proof (b2z_range b). lia.
Qed.

Lemma le_decode_encode (n : nat) (v : Z) :
  0 <= v < 256 ^ Z.of_nat n -> le_decode (le_encode n v) = v.
Proof.
  revert v. induction n as [|n IH]; intros v Hv.
  - cbn in *. lia.
  - cbn [le_encode le_decode].
    rewrite Nat2Z.inj_succ, Z.pow_succ_r in Hv by lia.
    rewrite b2z_z2b by (apply Z.mod_pos_bound; lia).
    rewrite IH.
    + pose proof (Z.div_mod v 256). lia.
    + split; [apply Z.div_pos; lia | apply Z.div_lt_upper_bound; lia].
Qed.

Lemma le_encode_decode (bs : list byte) :
  le_encode (length bs) (le_decode bs) = bs.
Proof.
  induction bs as [|b bs IH]; [reflexivity|].
  cbn [length le_decode le_encode]. pose proof (b2z_range b).
  assert (E1 : (b2z b + 256 * le_decode bs) mod 256 = b2z b).
  { replace (b2z b + 256 * le_decode bs) with (b2z b + le_decode bs * 256)
      by lia.
    rewrite Z.mod_add by lia. apply Z.mod_small; lia. }
  assert (E2 : (b2z b + 256 * le_decode bs) / 256 = le_decode bs).
  { replace (b2z b + 256 * le_decode bs) with (b2z b + le_decode bs * 256)
      by lia.
    rewrite Z.div_add by lia. rewrite Z.div_small by lia. lia. }
  rewrite E1, E2, z2b_b2z, IH. reflexivity.
Qed.

Lemma enc_length (c : fcode) (v : Z) : length (enc c v) = fsize c.
Proof. destruct c; apply le_encode_length. Qed.

Lemma len_enc (c : fcode) (v : Z) : len (enc c v) = Z.of_nat (fsize c).
Proof. unfold len. now rewrite enc_length. Qed.

Lemma dec_enc (c : fcode) (v : Z) : in_range c v = true -> dec c (enc c v) = v.
Proof.
  destruct c; unfold in_range, enc, dec; cbn [fsize]; intros H;
    apply andb_prop in H; destruct H as [H1 H2];
    apply Z.leb_le in H1; apply Z.ltb_lt in H2;
    try (apply le_decode_encode; cbn; lia).
  rewrite le_decode_encode by (cbn; apply Z.mod_pos_bound; lia).
  destruct (Z_lt_le_dec v 0) as [Hn|Hp].
  - replace (v mod 65536) with (v + 65536)
      by (apply Z.mod_unique with (q := -1); lia).
    destruct (v + 65536 <? 32768) eqn:E;
      [apply Z.ltb_lt in E | apply Z.ltb_ge in E]; lia.
  - rewrite Z.mod_small by lia.
    destruct (v <? 32768) eqn:E;
      [apply Z.ltb_lt in E | apply Z.ltb_ge in E]; lia.
Qed.

(** What an unsigned code decodes to is never negative. *)
Lemma dec_nonneg (c : fcode) (bs : list byte) : c <> fh -> 0 <= dec c bs.
Proof.
  intros Hc. destruct c; try congruence; unfold dec;
    apply le_decode_range.
Qed.

(** *** Slices at non-negative indices *)

Lemma firstn_app_length {A} (a b : list A) : firstn (length a) (a ++ b) = a.
Proof.
  rewrite firstn_app, Nat.sub_diag, firstn_all. cbn [firstn].
  apply app_nil_r.
Qed.

Lemma skipn_app_length {A} (a b : list A) : skipn (length a) (a ++ b) = b.
Proof. rewrite skipn_app, Nat.sub_diag, skipn_all. reflexivity. Qed.

Lemma firstn_min {A} (n : nat) (l : list A) :
  firstn n l = firstn (Nat.min n (length l)) l.
Proof.
  destruct (Nat.le_ge_cases n (length l)) as [H|H].
  - now rewrite Nat.min_l.
  - rewrite Nat.min_r by assumption.
    now rewrite firstn_all, firstn_all2.
Qed.

Lemma pyslice_nonneg {A} (l : list A) (i j : Z) :
  0 <= i -> 0 <= j ->
  pyslice l i j = firstn (Z.to_nat j - Z.to_nat i) (skipn (Z.to_nat i) l).
Proof.
  intros Hi Hj. unfold pyslice, clamp, len.
  destruct (i <? 0) eqn:Ei; [apply Z.ltb_lt in Ei; lia|].
  destruct (j <? 0) eqn:Ej; [apply Z.ltb_lt in Ej; lia|].
  destruct (Z_le_gt_dec i (Z.of_nat (length l))) as [H|H].
  - rewrite (Z.min_l i) by lia.
    rewrite (firstn_min (Z.to_nat j - Z.to_nat i)).
    rewrite (firstn_min (Z.to_nat (_ - i))).
    rewrite length_skipn. f_equal. lia.
  - rewrite (Z.min_r i) by lia.
    rewrite !skipn_all2 by lia. now rewrite !firstn_nil.
Qed.

Lemma pyslice_length {A} (l : list A) (i n : Z) :
  0 <= i -> 0 <= n ->
  len (pyslice l i (i + n)) = Z.max 0 (Z.min n (len l - i)).
Proof.
  intros Hi Hn. rewrite pyslice_nonneg by lia. unfold len.
  rewrite length_firstn, length_skipn. lia.
Qed.

Lemma suffix_at_nonneg data p suf : suffix_at data p suf -> 0 <= p.
Proof. intros (pre & _ & ->). apply len_nonneg. Qed.

Lemma suffix_at_skip data p x r n :
  suffix_at data p (x ++ r) -> n = len x -> suffix_at data (p + n) r.
Proof.
  intros (pre & -> & ->) ->. exists (pre ++ x). split.
  - now rewrite <- app_assoc.
  - now rewrite len_app.
Qed.

Lemma suffix_at_start data : suffix_at data 0 data.
Proof. now exists []. Qed.

Lemma slice_at data p x r n :
  suffix_at data p (x ++ r) -> n = len x -> pyslice data p (p + n) = x.
Proof.
  intros (pre & -> & ->) ->. rewrite pyslice_nonneg by (unfold len; lia).
  unfold len. rewrite Nat2Z.id.
  rewrite skipn_app, skipn_all, Nat.sub_diag. cbn [skipn app].
  replace (Z.to_nat (_ + _) - length pre)%nat with (length x + 0)%nat by lia.
  rewrite firstn_app_2. cbn. now rewrite app_nil_r.
Qed.

(** A slice up to an absolute end offset. *)
Lemma slice_to data p x r q :
  suffix_at data p (x ++ r) -> q = p + len x -> pyslice data p q = x.
Proof. intros H ->. now apply slice_at with (r := r). Qed.

(** *** unpack and pack_into on known formats *)

Lemma unpack_ok fmt native fs bs :
  parse_fmt fmt = Some (native, fs) ->
  length bs = calcsize native fs ->
  unpack fmt bs = Ok (unpack_fields native 0 fs bs).
Proof.
  intros Hp Hl. unfold unpack. rewrite Hp.
  now rewrite (proj2 (Nat.eqb_eq _ _) Hl).
Qed.

Lemma unpack_short fmt native fs bs :
  parse_fmt fmt = Some (native, fs) ->
  length bs <> calcsize native fs ->
  unpack fmt bs = Raise struct_error.
Proof.
  intros Hp Hl. unfold unpack. rewrite Hp.
  now rewrite (proj2 (Nat.eqb_neq _ _) Hl).
Qed.

Lemma unpack_fields_cons native off c fs b bs :
  padding native off (fsize c) = 0%nat ->
  length b = fsize c ->
  unpack_fields native off (c :: fs) (b ++ bs)
  = dec c b :: unpack_fields native (off + 0 + fsize c) fs bs.
Proof.
  intros Hp Hl. cbn [unpack_fields]. rewrite Hp. cbn [skipn].
  rewrite <- Hl.
  rewrite firstn_app, Nat.sub_diag, firstn_all. cbn [firstn].
  rewrite app_nil_r.
  rewrite skipn_app, Nat.sub_diag, skipn_all. reflexivity.
Qed.

Lemma pack_into_at fmt native fs vs data out old rest offset :
  parse_fmt fmt = Some (native, fs) ->
  args_ok fs vs = true ->
  data = out ++ old ++ rest ->
  length old = calcsize native fs ->
  offset = len out ->
  pack_into fmt data offset vs
  = Ok (out ++ encode_fields native 0 fs vs ++ rest).
Proof.
  intros Hp Ha -> Hl ->. unfold pack_into. rewrite Hp.
  destruct (len out <? 0) eqn:E; [apply Z.ltb_lt in E; unfold len in E; lia|].
  cbn [andb]. rewrite !len_app.
  destruct (_ <? Z.of_nat (calcsize native fs)) eqn:E2.
  { apply Z.ltb_lt in E2. unfold len in E2. lia. }
  rewrite Ha. cbn [negb]. f_equal.
  unfold len. rewrite Nat2Z.id.
  rewrite firstn_app, Nat.sub_diag, firstn_all. cbn [firstn].
  rewrite app_nil_r. f_equal. f_equal.
  rewrite <- Hl, <- Nat2Z.inj_add, Nat2Z.id.
  rewrite skipn_app.
  rewrite skipn_all2 by lia. cbn [app].
  replace (length out + length old - length out)%nat with (length old) by lia.
  rewrite skipn_app, Nat.sub_diag, skipn_all. reflexivity.
Qed.

(** *** What unpack reads back *)

Lemma pack_into_packed fmt native fs vs out old rest :
  parse_fmt fmt = Some (native, fs) ->
  args_ok fs vs = true ->
  length old = calcsize native fs ->
  pack_into fmt (out ++ old ++ rest) (len out) vs
  = Ok (out ++ packed fmt vs ++ rest).
Proof.
  intros Hp Ha Hl. unfold packed. rewrite Hp.
  now apply pack_into_at with (old := old).
Qed.

Lemma unpack_fields_off off fs bs :
  unpack_fields false off fs bs = unpack_fields false 0 fs bs.
Proof.
  revert off bs. induction fs as [|c fs IH]; intros off bs; [reflexivity|].
  cbn [unpack_fields padding skipn]. f_equal.
  rewrite IH. symmetry. apply IH.
Qed.

Lemma encode_fields_off off fs vs :
  encode_fields false off fs vs = encode_fields false 0 fs vs.
Proof.
  revert off vs. induction fs as [|c fs IH]; intros off [|v vs];
    try reflexivity.
  cbn [encode_fields padding repeat app]. f_equal.
  rewrite IH. symmetry. apply IH.
Qed.

Lemma calcsize_from_std off fs :
  calcsize_from false off fs = (off + calcsize false fs)%nat.
Proof.
  unfold calcsize. revert off. induction fs as [|c fs IH]; intros off.
  - cbn. lia.
  - cbn [calcsize_from padding]. rewrite IH, (IH (0 + 0 + fsize c)%nat). lia.
Qed.

Lemma calcsize_cons c fs :
  calcsize false (c :: fs) = (fsize c + calcsize false fs)%nat.
Proof.
  unfold calcsize at 1. cbn [calcsize_from padding].
  rewrite calcsize_from_std. lia.
Qed.

Lemma calcsize_app fs1 fs2 :
  calcsize false (fs1 ++ fs2) = (calcsize false fs1 + calcsize false fs2)%nat.
Proof.
  induction fs1 as [|c fs1 IH]; [reflexivity|].
  cbn [app]. rewrite !calcsize_cons, IH. lia.
Qed.

Lemma encode_fields_length fs vs :
  args_ok fs vs = true ->
  length (encode_fields false 0 fs vs) = calcsize false fs.
Proof.
  revert vs. induction fs as [|c fs IH]; intros [|v vs] H;
    cbn [args_ok] in H; try discriminate; [reflexivity|].
  apply andb_prop in H. destruct H as [_ H].
  cbn [encode_fields padding repeat app]. rewrite length_app, enc_length.
  rewrite encode_fields_off, IH by assumption. now rewrite calcsize_cons.
Qed.

Lemma unpack_fields_app fs1 fs2 b1 b2 :
  length b1 = calcsize false fs1 ->
  unpack_fields false 0 (fs1 ++ fs2) (b1 ++ b2)
  = unpack_fields false 0 fs1 b1 ++ unpack_fields false 0 fs2 b2.
Proof.
  revert b1. induction fs1 as [|c fs1 IH]; intros b1 Hl.
  - destruct b1; [reflexivity|discriminate].
  - rewrite calcsize_cons in Hl.
    cbn [app unpack_fields padding skipn].
    rewrite !(unpack_fields_off (0 + 0 + fsize c)).
    assert (Hc : (fsize c <= length b1)%nat) by lia.
    rewrite firstn_app.
    replace (fsize c - length b1)%nat with 0%nat by lia.
    cbn [firstn]. rewrite app_nil_r. f_equal.
    rewrite skipn_app.
    replace (fsize c - length b1)%nat with 0%nat by lia.
    cbn [skipn]. apply IH. rewrite length_skipn. lia.
Qed.

Lemma unpack_fields_encode fs vs :
  args_ok fs vs = true ->
  unpack_fields false 0 fs (encode_fields false 0 fs vs) = vs.
Proof.
  revert vs. induction fs as [|c fs IH]; intros [|v vs] H;
    cbn [args_ok] in H; try discriminate; [reflexivity|].
  apply andb_prop in H. destruct H as [Hv H].
  cbn [encode_fields padding repeat app].
  rewrite unpack_fields_cons by (reflexivity || apply enc_length).
  rewrite dec_enc by assumption. f_equal.
  rewrite unpack_fields_off, encode_fields_off. now apply IH.
Qed.

Lemma unpack_fields_length native off fs bs :
  length (unpack_fields native off fs bs) = length fs.
Proof.
  revert off bs. induction fs as [|c fs IH]; intros off bs; [reflexivity|].
  cbn [unpack_fields length]. now rewrite IH.
Qed.

Lemma packed_eq fmt native fs vs :
  parse_fmt fmt = Some (native, fs) ->
  packed fmt vs = encode_fields native 0 fs vs.
Proof. intros Hp. unfold packed. now rewrite Hp. Qed.

Lemma packed_length fmt fs vs :
  parse_fmt fmt = Some (false, fs) ->
  args_ok fs vs = true ->
  length (packed fmt vs) = calcsize false fs.
Proof.
  intros Hp Ha. unfold packed. rewrite Hp. now apply encode_fields_length.
Qed.

(** Reading back, with any format that has the same codes and no padding. *)
Lemma unpack_packed rfmt native fmt fs vs :
  parse_fmt rfmt = Some (native, fs) ->
  parse_fmt fmt = Some (false, fs) ->
  calcsize native fs = calcsize false fs ->
  (forall bs, unpack_fields native 0 fs bs = unpack_fields false 0 fs bs) ->
  args_ok fs vs = true ->
  unpack rfmt (packed fmt vs) = Ok vs.
Proof.
  intros Hr Hp Hc Hn Ha.
  rewrite (unpack_ok _ _ _ _ Hr).
  - rewrite Hn. unfold packed. rewrite Hp. now rewrite unpack_fields_encode.
  - rewrite Hc. now apply packed_length.
Qed.

(** *** Lengths *)

Lemma len_packed fmt fs vs n :
  parse_fmt fmt = Some (false, fs) ->
  args_ok fs vs = true ->
  n = Z.of_nat (calcsize false fs) ->
  len (packed fmt vs) = n.
Proof.
  intros Hp Ha ->. unfold len. now rewrite (packed_length _ _ _ Hp Ha).
Qed.

Lemma len_of_length {A} (l : list A) (n : nat) (z : Z) :
  (length l =? n)%nat = true -> z = Z.of_nat n -> len l = z.
Proof. intros H ->. apply Nat.eqb_eq in H. unfold len. now rewrite H. Qed.

Lemma args_ok1 (c : fcode) (v : Z) :
  in_range c v = true -> args_ok [c] [v] = true.
Proof. intros H. cbn [args_ok]. now rewrite H. Qed.

(** Splits a conjunction of booleans found among the hypotheses. *)
Ltac split_andb :=
  repeat match goal with
  | H : andb _ _ = true |- _ =>
      let H1 := fresh H in
      apply andb_prop in H; destruct H as [H H1]
  end.

(** Rewrites [unpack rfmt (packed fmt vs)] into [Ok vs]. *)
Ltac unpack_packed_tac rfmt fmt :=
  erewrite (unpack_packed rfmt _ fmt);
  [ | reflexivity | reflexivity | reflexivity | intros; reflexivity
    | try eassumption ].

(* ===================================================================== *)
(** ** The reader on well-formed chunks *)
(* ===================================================================== *)

Section Reader.

Variable zlib_decompress : list byte -> result (list byte).

Lemma read_palette_entries_spec data es :
  forall sprite pal q r,
    forallb entry_ok es = true ->
    suffix_at data q (concat (map entry_bytes es) ++ r) ->
    read_palette_entries data (length es) (set_palette sprite (Some pal)) q
    = Ok (set_palette sprite (Some (pal ++ map snd es)), q + 6 * len es).
Proof.
  induction es as [|e es IH]; intros sprite pal q r Hok Hs.
  - cbn [length read_palette_entries map]. rewrite app_nil_r. unfold len. cbn [length].
    f_equal. f_equal. lia.
  - cbn [forallb] in Hok. split_andb.
    destruct e as [flag [[[cr cg] cb] ca]]. cbn [entry_ok] in Hok.
    cbn [length read_palette_entries map concat entry_bytes] in *.
    rewrite <- app_assoc in Hs.
    assert (Hl : len (packed "=HBBBB" [flag; cr; cg; cb; ca]) = 6)
      by (eapply len_packed; [reflexivity | eassumption | reflexivity]).
    rewrite (slice_at _ _ _ _ 6 Hs) by (now rewrite Hl).
    unpack_packed_tac "HBBBB"%string "=HBBBB"%string.
    cbn [bind getitem palette set_palette item nth snd].
    change (set_palette (set_palette sprite (Some pal)) ?x)
      with (set_palette sprite x).
    erewrite IH; [ | assumption | eapply suffix_at_skip; [eassumption|now rewrite Hl] ].
    rewrite <- app_assoc, len_cons. cbn [app]. f_equal. f_equal. lia.
Qed.


Lemma suffix_at_skip2 data p x y r n :
  suffix_at data p (x ++ y ++ r) -> n = len x + len y ->
  suffix_at data (p + n) r.
Proof.
  intros H ->. rewrite app_assoc in H.
  eapply suffix_at_skip; [eassumption|]. now rewrite len_app.
Qed.

Lemma decode_name_if (nb : list byte) :
  (if 0 <? len nb then utf8_decode nb else Ok []) = utf8_decode nb.
Proof.
  destruct nb as [|b nb]; [reflexivity|].
  rewrite len_cons. pose proof (len_nonneg nb).
  now rewrite (proj2 (Z.ltb_lt 0 _)) by lia.
Qed.

Lemma read_tag_entries_spec data ts :
  forall sprite q r,
    forallb tag_ok ts = true ->
    suffix_at data q (concat (map tag_bytes ts) ++ r) ->
    read_tag_entries data (length ts) sprite q
    = (sprite <- apply_tags ts sprite ;;
       Ok (sprite, q + len (concat (map tag_bytes ts)))).
Proof.
  induction ts as [|t ts IH]; intros sprite q r Hok Hs.
  - cbn [length read_tag_entries map concat apply_tags bind].
    unfold len. cbn [length]. f_equal. f_equal. lia.
  - cbn [forallb] in Hok. split_andb. unfold tag_ok in Hok. split_andb.
    cbn [length read_tag_entries map concat apply_tags] in *.
    unfold tag_bytes in Hs at 1. unfold name_field in Hs at 1. repeat rewrite <- app_assoc in Hs.
    assert (Hl1 : len (packed "=HHB" [wt_from t; wt_to t; wt_dir t]) = 5)
      by (eapply len_packed; [reflexivity | eassumption | reflexivity]).
    assert (Hl2 : len (wt_gap t) = 12)
      by (apply (len_of_length _ 12); [assumption | reflexivity]).
    assert (Hn : args_ok [fH] [len (wt_name t)] = true)
      by (now apply args_ok1).
    assert (Hl3 : len (packed "=H" [len (wt_name t)]) = 2)
      by (eapply len_packed; [reflexivity | eassumption | reflexivity]).
    rewrite (slice_at _ _ _ _ 5 Hs) by (now rewrite Hl1).
    unpack_packed_tac "=HHB"%string "=HHB"%string.
    cbn [bind item nth].
    assert (Hs1 := suffix_at_skip2 _ _ _ _ _ (5 + 12) Hs ltac:(lia)).
    rewrite (slice_at _ _ _ _ 2 Hs1) by (now rewrite Hl3).
    unpack_packed_tac "H"%string "=H"%string.
    cbn [bind item nth].
    assert (Hs2 := suffix_at_skip _ _ _ _ 2 Hs1 ltac:(lia)).
    rewrite (slice_at _ _ _ _ (len (wt_name t)) Hs2) by reflexivity.
    rewrite decode_name_if.
    assert (Hs3 := suffix_at_skip _ _ _ _ (len (wt_name t)) Hs2 eq_refl).
    unfold apply_tag.
    destruct (utf8_decode (wt_name t)) as [name|e]; cbn [bind]; [|reflexivity].
    destruct (getitem (tags sprite)) as [acc|e]; cbn [bind]; [|reflexivity].
    rewrite (IH _ _ _ ltac:(eassumption) Hs3).
    destruct (apply_tags ts _) as [sp|e]; cbn [bind]; [|reflexivity].
    f_equal. f_equal.
    unfold tag_bytes, name_field. rewrite !len_app, Hl1, Hl2, Hl3. lia.
Qed.

Lemma read_tags_spec data gap ts sprite q r :
  chunk_fields_ok (CTags gap ts) = true ->
  suffix_at data q (chunk_body (CTags gap ts) ++ r) ->
  read_tags data sprite q
  = (sprite <- apply_tags ts (set_tags sprite (Some [])) ;;
     Ok (sprite, q + len (chunk_body (CTags gap ts)))).
Proof.
  intros Hok Hs. cbn [chunk_fields_ok chunk_body] in *. split_andb.
  repeat rewrite <- app_assoc in Hs.
  assert (Ha : args_ok [fH] [len ts] = true) by (now apply args_ok1).
  assert (Hl1 : len (packed "=H" [len ts]) = 2)
    by (eapply len_packed; [reflexivity | eassumption | reflexivity]).
  assert (Hl2 : len gap = 8)
    by (apply (len_of_length _ 8); [assumption | reflexivity]).
  unfold read_tags.
  rewrite (slice_at _ _ _ _ 2 Hs) by (now rewrite Hl1).
  unpack_packed_tac "H"%string "=H"%string.
  cbn [bind item nth].
  assert (Hs1 := suffix_at_skip2 _ _ _ _ _ (2 + 8) Hs ltac:(lia)).
  unfold len at 1. rewrite Nat2Z.id.
  rewrite (read_tag_entries_spec _ _ _ _ _ ltac:(eassumption) Hs1).
  destruct (apply_tags ts _) as [sp|e]; cbn [bind]; [|reflexivity].
  f_equal. f_equal. rewrite !len_app, Hl1, Hl2. lia.
Qed.


Lemma len_entries (es : list (Z * Color)) :
  forallb entry_ok es = true ->
  len (concat (map entry_bytes es)) = 6 * len es.
Proof.
  induction es as [|e es IH]; intros Hok; [reflexivity|].
  cbn [forallb] in Hok. split_andb.
  cbn [map concat]. rewrite len_app, len_cons, IH by assumption.
  destruct e as [flag [[[cr cg] cb] ca]]. cbn [entry_ok entry_bytes] in *.
  rewrite (len_packed _ [fH; fB; fB; fB; fB] _ 6) by (reflexivity || assumption).
  lia.
Qed.

Lemma read_palette_spec data first last gap es sprite q r :
  chunk_fields_ok (CPalette first last gap es) = true ->
  suffix_at data q (chunk_body (CPalette first last gap es) ++ r) ->
  read_palette data sprite q
  = Ok (set_palette sprite (Some (map snd es)),
        q + len (chunk_body (CPalette first last gap es))).
Proof.
  intros Hok Hs. cbn [chunk_fields_ok chunk_body] in *. split_andb.
  repeat rewrite <- app_assoc in Hs.
  assert (Hl1 : len (packed "=III" [len es; first; last]) = 12)
    by (eapply len_packed; [reflexivity | eassumption | reflexivity]).
  assert (Hl2 : len gap = 8)
    by (apply (len_of_length _ 8); [assumption | reflexivity]).
  unfold read_palette.
  rewrite (slice_at _ _ _ _ 12 Hs) by (now rewrite Hl1).
  unpack_packed_tac "III"%string "=III"%string.
  cbn [bind item nth].
  assert (Hs1 := suffix_at_skip2 _ _ _ _ _ (12 + 8) Hs ltac:(lia)).
  unfold len at 1. rewrite Nat2Z.id.
  rewrite (read_palette_entries_spec _ _ _ [] _ _ ltac:(eassumption) Hs1).
  cbn [app]. f_equal. f_equal.
  rewrite !len_app, Hl1, Hl2, len_entries by assumption. lia.
Qed.

Lemma unpack_layer_record flags ty child u1 u2 blend opacity gap n :
  args_ok [fH; fH; fH; fH; fH; fH; fB]
    [flags; ty; child; u1; u2; blend; opacity] = true ->
  length gap = 3%nat ->
  in_range fH n = true ->
  exists g1 g2 g3,
    unpack "HHHHHHB3BH"
      (packed "=HHHHHHB" [flags; ty; child; u1; u2; blend; opacity]
         ++ gap ++ packed "=H" [n])
    = Ok [flags; ty; child; u1; u2; blend; opacity; g1; g2; g3; n].
Proof.
  intros Ha Hg Hn.
  exists (dec fB (firstn 1 gap)), (dec fB (firstn 1 (skipn 1 gap))),
    (dec fB (firstn 1 (skipn 1 (skipn 1 gap)))).
  assert (Hn' : args_ok [fH] [n] = true) by (now apply args_ok1).
  erewrite unpack_ok; [ | reflexivity | ].
  - f_equal.
    change (unpack_fields true 0 ?fs ?bs)
      with (unpack_fields false 0
              ([fH; fH; fH; fH; fH; fH; fB] ++ [fB; fB; fB] ++ [fH]) bs).
    rewrite (packed_eq "=HHHHHHB" false [fH; fH; fH; fH; fH; fH; fB])
      by reflexivity.
    rewrite (packed_eq "=H" false [fH]) by reflexivity.
    rewrite unpack_fields_app by (now apply encode_fields_length).
    rewrite unpack_fields_app by (now rewrite Hg).
    rewrite !unpack_fields_encode by assumption.
    reflexivity.
  - rewrite !length_app, Hg.
    rewrite (packed_length "=HHHHHHB" _ _ eq_refl Ha).
    rewrite (packed_length "=H" _ _ eq_refl Hn'). reflexivity.
Qed.

Lemma read_layer_spec data flags ty child u1 u2 blend opacity gap nb sprite q r :
  chunk_fields_ok (CLayer flags ty child u1 u2 blend opacity gap nb) = true ->
  suffix_at data q
    (chunk_body (CLayer flags ty child u1 u2 blend opacity gap nb) ++ r) ->
  read_layer data sprite q
  = (name <- utf8_decode nb ;;
     ls <- getitem (layers sprite) ;;
     Ok (set_layers sprite
           (Some (ls ++ [mkLayer flags ty child blend opacity name])),
         q + len (chunk_body (CLayer flags ty child u1 u2 blend opacity gap nb)))).
Proof.
  intros Hok Hs. cbn [chunk_fields_ok chunk_body] in *. split_andb.
  unfold name_field in *.
  assert (Hg : length gap = 3%nat) by (now apply Nat.eqb_eq).
  assert (Hn : args_ok [fH] [len nb] = true) by (now apply args_ok1).
  assert (Hl1 : len (packed "=HHHHHHB" [flags; ty; child; u1; u2; blend; opacity]) = 13)
    by (eapply len_packed; [reflexivity | eassumption | reflexivity]).
  assert (Hl2 : len gap = 3) by (unfold len; now rewrite Hg).
  assert (Hl3 : len (packed "=H" [len nb]) = 2)
    by (eapply len_packed; [reflexivity | eassumption | reflexivity]).
  destruct (unpack_layer_record flags ty child u1 u2 blend opacity gap (len nb))
    as (g1 & g2 & g3 & Hu); try assumption.
  unfold read_layer.
  assert (Hs0 : suffix_at data q
            ((packed "=HHHHHHB" [flags; ty; child; u1; u2; blend; opacity]
                ++ gap ++ packed "=H" [len nb]) ++ nb ++ r))
    by (repeat rewrite <- app_assoc in *; exact Hs).
  rewrite (slice_at _ _ _ _ 18 Hs0) by (rewrite !len_app; lia).
  rewrite Hu. cbn [bind item nth].
  assert (Hs1 := suffix_at_skip _ _ _ _ 18 Hs0 ltac:(rewrite !len_app; lia)).
  rewrite (slice_at _ _ _ _ (len nb) Hs1) by reflexivity.
  rewrite decode_name_if.
  destruct (utf8_decode nb) as [name|e]; cbn [bind]; [|reflexivity].
  destruct (getitem (layers sprite)) as [ls|e]; cbn [bind]; [|reflexivity].
  f_equal. f_equal. rewrite !len_app, Hl1, Hl2, Hl3. lia.
Qed.


Lemma read_cel_spec data layer x y opacity gap body frame q r nc :
  chunk_fields_ok (CCel layer x y opacity gap body) = true ->
  suffix_at data q (chunk_body (CCel layer x y opacity gap body) ++ r) ->
  nc = q + len (chunk_body (CCel layer x y opacity gap body)) ->
  exists q',
    read_cel zlib_decompress data frame q nc
    = (cel <- apply_cel_body zlib_decompress layer x y opacity body ;;
       Ok (add_cel frame cel, q')).
Proof.
  intros Hok Hs Hnc. cbn [chunk_fields_ok chunk_body] in *. split_andb.
  repeat rewrite <- app_assoc in Hs.
  assert (Hl1 : len (packed "=HhhBH" [layer; x; y; opacity; cel_type_of body]) = 9)
    by (eapply len_packed; [reflexivity | eassumption | reflexivity]).
  assert (Hl2 : len gap = 7)
    by (apply (len_of_length _ 7); [assumption | reflexivity]).
  unfold read_cel.
  rewrite (slice_at _ _ _ _ 9 Hs) by (now rewrite Hl1).
  unpack_packed_tac "=HhhBH"%string "=HhhBH"%string.
  cbn [bind item nth].
  assert (Hs1 := suffix_at_skip2 _ _ _ _ _ (9 + 7) Hs ltac:(lia)).
  rewrite !len_app, Hl1, Hl2 in Hnc.
  destruct body as [w h px|f|w h z|t rest];
    cbn [cel_type_of cel_body_bytes cel_body_ok apply_cel_body Z.eqb Pos.eqb] in *.
  - assert (Hl3 : len (packed "=HH" [w; h]) = 4)
      by (eapply len_packed; [reflexivity | eassumption | reflexivity]).
    rewrite <- app_assoc in Hs1.
    rewrite (slice_at _ _ _ _ 4 Hs1) by (now rewrite Hl3).
    unpack_packed_tac "HH"%string "=HH"%string.
    cbn [bind item nth].
    assert (Hs2 := suffix_at_skip _ _ _ _ 4 Hs1 ltac:(lia)).
    rewrite (slice_to _ _ _ _ nc Hs2) by (rewrite len_app in Hnc; lia).
    eexists. reflexivity.
  - assert (Ha : args_ok [fH] [f] = true) by (now apply args_ok1).
    assert (Hl3 : len (packed "=H" [f]) = 2)
      by (eapply len_packed; [reflexivity | eassumption | reflexivity]).
    rewrite (slice_at _ _ _ _ 2 Hs1) by (now rewrite Hl3).
    unpack_packed_tac "H"%string "=H"%string.
    cbn [bind item nth]. eexists. reflexivity.
  - assert (Hl3 : len (packed "=HH" [w; h]) = 4)
      by (eapply len_packed; [reflexivity | eassumption | reflexivity]).
    rewrite <- app_assoc in Hs1.
    rewrite (slice_at _ _ _ _ 4 Hs1) by (now rewrite Hl3).
    unpack_packed_tac "HH"%string "=HH"%string.
    cbn [bind item nth].
    assert (Hs2 := suffix_at_skip _ _ _ _ 4 Hs1 ltac:(lia)).
    rewrite (slice_to _ _ _ _ nc Hs2) by (rewrite len_app in Hnc; lia).
    exists (q + (9 + 7) + 4).
    destruct (zlib_decompress z) as [px|e]; reflexivity.
  - split_andb.
    repeat match goal with
      | H : negb (?a =? ?b) = true |- _ =>
          apply negb_true_iff in H; rewrite H
      end.
    eexists. reflexivity.
Qed.

(** One chunk: the reader does what [apply_chunk] says and continues at the
    end of the chunk. *)
Lemma read_chunk_spec data c sprite frame p r :
  chunk_ok c = true ->
  suffix_at data p (chunk_bytes c ++ r) ->
  read_chunk zlib_decompress data (sprite, frame, p)
  = ('(sprite, frame) <- apply_chunk zlib_decompress c (sprite, frame) ;;
     Ok (sprite, frame, p + len (chunk_bytes c))).
Proof.
  intros Hok Hs. unfold chunk_ok in Hok. split_andb.
  unfold chunk_bytes in *. rewrite <- app_assoc in Hs.
  assert (Hl : len (packed "=IH" [6 + len (chunk_body c); chunk_type_of c]) = 6)
    by (eapply len_packed; [reflexivity | eassumption | reflexivity]).
  unfold read_chunk.
  rewrite (slice_at _ _ _ _ 6 Hs) by (now rewrite Hl).
  unpack_packed_tac "=IH"%string "=IH"%string.
  cbn [bind item nth].
  assert (Hs1 := suffix_at_skip _ _ _ _ 6 Hs ltac:(lia)).
  rewrite len_app, Hl.
  replace (p + (6 + len (chunk_body c))) with (p + 6 + len (chunk_body c)) by lia.
  destruct c as [first last gap es|flags ty child u1 u2 blend opacity gap nb
                 |gap ts|layer x y opacity gap body|t payload].
  - change (chunk_type_of _) with PALETTE. cbn [Z.eqb Pos.eqb PALETTE].
    rewrite (read_palette_spec _ _ _ _ _ _ _ _ ltac:(eassumption) Hs1).
    reflexivity.
  - change (chunk_type_of _) with LAYER. cbn [Z.eqb Pos.eqb PALETTE LAYER].
    rewrite (read_layer_spec _ _ _ _ _ _ _ _ _ _ _ _ _ ltac:(eassumption) Hs1).
    cbn [apply_chunk].
    destruct (utf8_decode nb) as [name|e]; cbn [bind]; [|reflexivity].
    destruct (getitem (layers sprite)) as [ls|e]; reflexivity.
  - change (chunk_type_of _) with TAGS. cbn [Z.eqb Pos.eqb PALETTE LAYER TAGS].
    rewrite (read_tags_spec _ _ _ _ _ _ ltac:(eassumption) Hs1).
    cbn [apply_chunk].
    destruct (apply_tags ts _) as [sp|e]; reflexivity.
  - change (chunk_type_of _) with CEL.
    cbn [Z.eqb Pos.eqb PALETTE LAYER TAGS CEL].
    destruct (read_cel_spec _ _ _ _ _ _ _ frame _ _ _ ltac:(eassumption) Hs1 eq_refl)
      as [q' Hq].
    rewrite Hq. cbn [apply_chunk].
    destruct (apply_cel_body _ _ _ _ _ _) as [cel|e]; reflexivity.
  - cbn [chunk_type_of chunk_fields_ok] in *. split_andb.
    repeat match goal with
      | H : negb (?a =? ?b) = true |- _ =>
          apply negb_true_iff in H; rewrite H
      end.
    reflexivity.
Qed.

Lemma read_chunks_spec data cs :
  forall sprite frame p r,
    forallb chunk_ok cs = true ->
    suffix_at data p (concat (map chunk_bytes cs) ++ r) ->
    read_chunks zlib_decompress data (length cs) (sprite, frame, p)
    = ('(sprite, frame) <- apply_chunks zlib_decompress cs (sprite, frame) ;;
       Ok (sprite, frame, p + len (concat (map chunk_bytes cs)))).
Proof.
  induction cs as [|c cs IH]; intros sprite frame p r Hok Hs.
  - cbn [length read_chunks map concat apply_chunks bind].
    unfold len. cbn [length]. f_equal. f_equal. lia.
  - cbn [forallb] in Hok. split_andb.
    cbn [length read_chunks map concat apply_chunks] in *.
    rewrite <- app_assoc in Hs.
    rewrite (read_chunk_spec _ _ _ _ _ _ ltac:(eassumption) Hs).
    assert (Hs1 := suffix_at_skip _ _ _ _ _ Hs eq_refl).
    destruct (apply_chunk _ c _) as [[sp fr]|e]; cbn [bind]; [|reflexivity].
    rewrite (IH _ _ _ _ ltac:(eassumption) Hs1).
    destruct (apply_chunks _ cs _) as [[sp' fr']|e]; cbn [bind]; [|reflexivity].
    f_equal. f_equal. rewrite len_app. lia.
Qed.


Lemma read_frame_spec data f sprite p r :
  frame_ok f = true ->
  suffix_at data p (frame_bytes f ++ r) ->
  read_frame zlib_decompress data (sprite, p)
  = (sprite <- apply_frame zlib_decompress f sprite ;;
     Ok (sprite, p + len (frame_bytes f))).
Proof.
  intros Hok Hs. unfold frame_ok in Hok. split_andb.
  unfold frame_bytes in *. rewrite <- app_assoc in Hs.
  assert (Hl : len (packed "=IHHHBBI"
                      [wf_size f; 0xF1FA; len (wf_chunks f); wf_duration f;
                       0; 0; 0]) = 16)
    by (eapply len_packed; [reflexivity | eassumption | reflexivity]).
  unfold read_frame.
  rewrite (slice_at _ _ _ _ 16 Hs) by (now rewrite Hl).
  unpack_packed_tac "IHHHBBI"%string "=IHHHBBI"%string.
  cbn [bind item nth frame_chunks Z.eqb Pos.eqb assert].
  assert (Hs1 := suffix_at_skip _ _ _ _ 16 Hs ltac:(lia)).
  unfold len at 1. rewrite Nat2Z.id.
  rewrite (read_chunks_spec _ _ _ _ _ _ ltac:(eassumption) Hs1).
  unfold apply_frame.
  destruct (apply_chunks _ _ _) as [[sp fr]|e]; cbn [bind]; [|reflexivity].
  f_equal. f_equal. rewrite len_app, Hl. lia.
Qed.

Lemma read_frames_spec data fs :
  forall sprite p r,
    forallb frame_ok fs = true ->
    suffix_at data p (concat (map frame_bytes fs) ++ r) ->
    read_frames zlib_decompress data (length fs) (sprite, p)
    = (sprite <- apply_frames zlib_decompress fs sprite ;;
       Ok (sprite, p + len (concat (map frame_bytes fs)))).
Proof.
  induction fs as [|f fs IH]; intros sprite p r Hok Hs.
  - cbn [length read_frames map concat apply_frames bind].
    unfold len. cbn [length]. f_equal. f_equal. lia.
  - cbn [forallb] in Hok. split_andb.
    cbn [length read_frames map concat apply_frames] in *.
    rewrite <- app_assoc in Hs.
    rewrite (read_frame_spec _ _ _ _ _ ltac:(eassumption) Hs).
    assert (Hs1 := suffix_at_skip _ _ _ _ _ Hs eq_refl).
    destruct (apply_frame _ f _) as [sp|e]; cbn [bind]; [|reflexivity].
    rewrite (IH _ _ _ ltac:(eassumption) Hs1).
    destruct (apply_frames _ fs _) as [sp'|e]; cbn [bind]; [|reflexivity].
    f_equal. f_equal. rewrite len_app. lia.
Qed.

(** A whole file: the reader's result is the effect of its frames on the
    sprite the header gives. *)
Lemma read_file_spec name f :
  file_ok f = true ->
  read_aseprite_file zlib_decompress name (file_bytes f)
  = apply_frames zlib_decompress (w_frames f) (init_sprite name (w_header f)).
Proof.
  intros Hok. unfold file_ok in Hok. split_andb.
  assert (Hl : len (packed "=IHHHHHIHIIB3BHBB" (w_header f)) = 36)
    by (eapply len_packed; [reflexivity | eassumption | reflexivity]).
  assert (Hl2 : len (w_gap f) = 92)
    by (apply (len_of_length _ 92); [assumption | reflexivity]).
  assert (Hs := suffix_at_start (file_bytes f)).
  unfold file_bytes in Hs at 2.
  unfold read_aseprite_file.
  rewrite (slice_to _ 0 _ _ 36 Hs) by (now rewrite Hl).
  unpack_packed_tac "=IHHHHHIHIIB3BHBB"%string "=IHHHHHIHIIB3BHBB"%string.
  cbn [bind].
  assert (Hs1 := suffix_at_skip2 _ _ _ _ _ 128 Hs ltac:(lia)).
  match goal with H : (item _ 2 =? _) = true |- _ =>
    apply Z.eqb_eq in H; rewrite H end.
  unfold len at 1. rewrite Nat2Z.id.
  rewrite <- (app_nil_r (concat _)) in Hs1.
  change (0 + 128) with 128 in Hs1.
  rewrite (read_frames_spec _ _ _ _ _ ltac:(eassumption) Hs1).
  unfold init_sprite.
  destruct (apply_frames _ _ _) as [sp|e]; reflexivity.
Qed.

End Reader.

(* ===================================================================== *)
(** ** The writer, record by record *)
(* ===================================================================== *)

Lemma split_rest (rest : list byte) (n : Z) :
  0 <= n <= len rest ->
  exists g rest', rest = g ++ rest' /\ len g = n /\ len rest' = len rest - n.
Proof.
  intros Hn. exists (firstn (Z.to_nat n) rest), (skipn (Z.to_nat n) rest).
  unfold len in *. rewrite firstn_skipn, length_firstn, length_skipn.
  repeat split; lia.
Qed.

(** A write at the cursor, which then advances by [n], at least the size of
    what was written: the bytes between are whatever the buffer held. *)
Lemma pack_skip fmt fs vs cur rest n :
  parse_fmt fmt = Some (false, fs) ->
  args_ok fs vs = true ->
  Z.of_nat (calcsize false fs) <= n <= len rest ->
  exists g rest',
    pack_into fmt (cur ++ rest) (len cur) vs
    = Ok ((cur ++ packed fmt vs ++ g) ++ rest')
    /\ len (cur ++ packed fmt vs ++ g) = len cur + n
    /\ len g = n - Z.of_nat (calcsize false fs)
    /\ len rest' = len rest - n.
Proof.
  intros Hp Ha Hn.
  destruct (split_rest rest (Z.of_nat (calcsize false fs)) ltac:(lia))
    as (old & rest1 & -> & Hold & Hr1).
  destruct (split_rest rest1 (n - Z.of_nat (calcsize false fs)) ltac:(lia))
    as (g & rest2 & -> & Hg & Hr2).
  exists g, rest2.
  rewrite (pack_into_packed _ _ _ _ _ _ _ Hp Ha)
    by (unfold len in Hold; lia).
  rewrite !len_app in *.
  rewrite (len_packed _ _ _ _ Hp Ha eq_refl).
  repeat split; try lia.
  repeat rewrite <- app_assoc. reflexivity.
Qed.

Lemma pack_exact fmt fs vs cur rest :
  parse_fmt fmt = Some (false, fs) ->
  args_ok fs vs = true ->
  Z.of_nat (calcsize false fs) <= len rest ->
  exists rest',
    pack_into fmt (cur ++ rest) (len cur) vs
    = Ok ((cur ++ packed fmt vs) ++ rest')
    /\ len (cur ++ packed fmt vs) = len cur + Z.of_nat (calcsize false fs)
    /\ len rest' = len rest - Z.of_nat (calcsize false fs).
Proof.
  intros Hp Ha Hn.
  destruct (pack_skip fmt fs vs cur rest _ Hp Ha ltac:(split; [reflexivity|exact Hn]))
    as (g & rest' & He & Hl & Hg & Hr).
  assert (g = []) as -> by (destruct g; [reflexivity | rewrite len_cons in Hg; pose proof (len_nonneg g); lia]).
  rewrite app_nil_r in *. now exists rest'.
Qed.

(** Overwriting a placeholder left behind the cursor. *)
Lemma pack_patch fmt fs vs cur ph tail :
  parse_fmt fmt = Some (false, fs) ->
  args_ok fs vs = true ->
  len ph = Z.of_nat (calcsize false fs) ->
  pack_into fmt (cur ++ ph ++ tail) (len cur) vs
  = Ok (cur ++ packed fmt vs ++ tail).
Proof.
  intros Hp Ha Hl. apply pack_into_packed with (fs := fs) (native := false);
    try assumption. unfold len in Hl. lia.
Qed.

Lemma pyslice_assign_at (cur rest v : list byte) (n : Z) :
  0 <= n ->
  pyslice_assign (cur ++ rest) (len cur) (len cur + n) v
  = cur ++ v ++ skipn (Z.to_nat n) rest.
Proof.
  intros Hn. unfold pyslice_assign, clamp. rewrite len_app.
  pose proof (len_nonneg cur). pose proof (len_nonneg rest).
  destruct (len cur <? 0) eqn:E1; [apply Z.ltb_lt in E1; lia|].
  destruct (len cur + n <? 0) eqn:E2; [apply Z.ltb_lt in E2; lia|].
  rewrite (Z.min_l (len cur)) by lia.
  unfold len in *. rewrite Nat2Z.id.
  rewrite firstn_app, Nat.sub_diag, firstn_all. cbn [firstn].
  rewrite app_nil_r. f_equal. f_equal.
  rewrite skipn_app.
  rewrite skipn_all2 by lia. cbn [app].
  destruct (Z_le_gt_dec n (Z.of_nat (length rest))) as [Hle|Hgt].
  - f_equal. lia.
  - rewrite !skipn_all2 by lia. reflexivity.
Qed.

(** *** Names *)

Lemma utf8_encode_char_length c bs :
  utf8_encode_char c = Ok bs -> (1 <= length bs)%nat.
Proof.
  unfold utf8_encode_char. intros H.
  repeat match type of H with
    | (if ?b then _ else _) = _ => destruct b
    end; inversion H; subst; cbn; lia.
Qed.

Lemma utf8_encode_length s bs :
  utf8_encode s = Ok bs -> (length s <= length bs)%nat.
Proof.
  revert bs. induction s as [|c s IH]; intros bs H.
  - cbn. lia.
  - unfold utf8_encode in H. fold utf8_encode in H.
    destruct (utf8_encode_char c) as [b1|] eqn:E1; cbn [bind] in H;
      [|discriminate].
    destruct (utf8_encode s) as [b2|] eqn:E2; cbn [bind] in H;
      [|discriminate].
    inversion H; subst. rewrite length_app. cbn [length].
    apply utf8_encode_char_length in E1. specialize (IH _ eq_refl). lia.
Qed.

Lemma len_name_bytes name :
  is_ok (utf8_encode name) = true -> len (name_bytes name) = len name.
Proof.
  unfold name_bytes. destruct (utf8_encode name) as [bs|] eqn:E;
    [intros _|discriminate].
  apply utf8_encode_length in E. unfold len.
  rewrite length_firstn. lia.
Qed.

Lemma write_name_spec name cur rest :
  name_ok name = true ->
  2 + len name <= len rest ->
  emits (write_name name (cur ++ rest) (len cur)) cur
    (name_field (name_bytes name)) rest.
Proof.
  intros Hok Hroom. unfold name_ok in Hok. apply andb_prop in Hok.
  destruct Hok as [Hr Henc].
  pose proof (len_name_bytes _ Henc) as Hnb.
  pose proof (len_nonneg name) as Hnn.
  assert (Ha : args_ok [fH] [len name] = true) by (now apply args_ok1).
  unfold write_name.
  destruct (pack_exact "=H" [fH] [len name] cur rest eq_refl Ha ltac:(cbn; lia))
    as (rest1 & Hp & Hl & Hr1).
  rewrite Hp. cbn [bind].
  change (Z.of_nat (calcsize false [fH])) with 2 in *.
  rewrite <- Hl.
  unfold name_bytes in *.
  destruct (utf8_encode name) as [bs|] eqn:E; [|discriminate].
  cbn [bind].
  rewrite pyslice_assign_at by lia.
  exists (skipn (length name) bs ++ skipn (Z.to_nat (len name)) rest1).
  unfold name_field. rewrite Hnb. split.
  - f_equal. f_equal.
    + rewrite <- (firstn_skipn (length name) bs) at 1.
      repeat rewrite <- app_assoc. reflexivity.
    + rewrite !len_app. rewrite !len_app in Hl. lia.
  - rewrite !len_app, Hnb.
    rewrite (len_packed "=H" [fH] _ 2 eq_refl Ha eq_refl).
    unfold len at 4. rewrite length_skipn.
    pose proof (len_nonneg (skipn (length name) bs)). unfold len in *. lia.
Qed.

Lemma emits_nil cur rest : emits (Ok (cur ++ rest, len cur)) cur [] rest.
Proof.
  exists rest. rewrite app_nil_r. split; [reflexivity|].
  unfold len at 2. cbn [length]. lia.
Qed.

Lemma emits_app m cur a bs rest rest1 :
  emits m (cur ++ a) bs rest1 ->
  len rest <= len a + len rest1 ->
  emits m cur (a ++ bs) rest.
Proof.
  intros (rest' & -> & Hr) Hl. exists rest'. split.
  - now rewrite <- !app_assoc.
  - rewrite len_app. lia.
Qed.

(** Unfolds every [packed fmt vs] of the goal into the encodings of its
    fields, appended from left to right. *)
Ltac packed_unfold :=
  repeat match goal with
  | |- context [packed ?f ?vs] =>
      let r := eval vm_compute in (parse_fmt f) in
      match r with
      | Some (?n, ?fs) => rewrite (packed_eq f n fs vs) by reflexivity
      end
  end;
  cbn [encode_fields padding repeat app];
  rewrite ?app_nil_r; repeat rewrite <- app_assoc.

Lemma sum_app l1 l2 : sum (l1 ++ l2) = sum l1 + sum l2.
Proof. induction l1 as [|x l1 IH]; cbn [app sum]; lia. Qed.

Lemma len_map {A B} (f : A -> B) (l : list A) : len (map f l) = len l.
Proof. unfold len. now rewrite length_map. Qed.

Lemma len_concat_map {A} (f : A -> list byte) (size : A -> Z) (l : list A) :
  (forall a, In a l -> len (f a) = size a) ->
  len (concat (map f l)) = sum (map size l).
Proof.
  induction l as [|a l IH]; intros H; [reflexivity|].
  cbn [map concat sum]. rewrite len_app, H by (now left).
  rewrite IH; [reflexivity|]. intros b Hb. apply H. now right.
Qed.

Lemma write_palette_entries_spec pal :
  forall cur rest,
    forallb color_ok pal = true ->
    6 * len pal <= len rest ->
    emits (write_palette_entries pal (cur ++ rest) (len cur)) cur
      (concat (map entry_bytes (map wire_color pal))) rest.
Proof.
  induction pal as [|c pal IH]; intros cur rest Hok Hroom.
  - apply emits_nil.
  - cbn [forallb] in Hok. apply andb_prop in Hok. destruct Hok as [Hc Hok].
    destruct c as [[[r g] b] a]. cbn [color_ok args_ok] in Hc. split_andb.
    rewrite len_cons in Hroom. pose proof (len_nonneg pal).
    assert (Ha : args_ok [fH; fB; fB; fB; fB] [0; r; g; b; 255] = true).
    { cbn [args_ok].
      repeat match goal with H : in_range _ _ = true |- _ => rewrite H end.
      reflexivity. }
    cbn [write_palette_entries map concat wire_color entry_bytes].
    destruct (pack_exact "=HBBBB" [fH; fB; fB; fB; fB] _ cur rest eq_refl Ha
                ltac:(cbn; lia)) as (rest1 & Hp & Hl & Hr1).
    rewrite Hp. cbn [bind].
    change (Z.of_nat (calcsize false [fH; fB; fB; fB; fB])) with 6 in *.
    rewrite <- Hl.
    eapply emits_app; [apply IH; [assumption | lia] | ].
    rewrite len_app in Hl. lia.
Qed.

Lemma entries_ok_wire pal :
  forallb color_ok pal = true -> forallb entry_ok (map wire_color pal) = true.
Proof.
  induction pal as [|c pal IH]; intros H; [reflexivity|].
  cbn [forallb map] in *. apply andb_prop in H. destruct H as [Hc H].
  rewrite IH by assumption. destruct c as [[[r g] b] a].
  cbn [color_ok wire_color entry_ok args_ok] in *. split_andb.
  repeat match goal with H : in_range _ _ = true |- _ => rewrite H end.
  reflexivity.
Qed.

Lemma write_palette_spec pal cur rest :
  forallb color_ok pal = true ->
  1 <= len pal ->
  chunk_size (wire_palette pal) <= len rest ->
  chunk_size (wire_palette pal) <= BUFFER_SIZE ->
  exists c,
    emits (write_palette pal (cur ++ rest) (len cur)) cur (chunk_bytes c) rest
    /\ chunk_ok c = true
    /\ erase c = wire_palette pal.
Proof.
  intros Hok Hn Hroom Hlim. cbn [chunk_size wire_palette] in *.
  unfold BUFFER_SIZE in Hlim.
  rewrite len_map in *.
  pose proof (entries_ok_wire _ Hok) as Hes.
  pose proof (len_entries _ Hes) as Hle. rewrite len_map in Hle.
  assert (Ha : args_ok [fH; fI; fI; fI] [0x2019; len pal; 0; len pal - 1] = true).
  { cbn [args_ok in_range].
    repeat (apply andb_true_intro; split); try reflexivity;
      try apply Z.leb_le; try apply Z.ltb_lt; lia. }
  assert (Ha3 : args_ok [fI; fI; fI] [len pal; 0; len pal - 1] = true).
  { cbn [args_ok in_range].
    repeat (apply andb_true_intro; split); try reflexivity;
      try apply Z.leb_le; try apply Z.ltb_lt; lia. }
  assert (Has : args_ok [fI] [26 + 6 * len pal] = true).
  { cbn [args_ok in_range].
    repeat (apply andb_true_intro; split); try reflexivity;
      try apply Z.leb_le; try apply Z.ltb_lt; lia. }
  assert (Hah : args_ok [fI; fH] [26 + 6 * len pal; PALETTE] = true).
  { cbn [args_ok in_range].
    repeat (apply andb_true_intro; split); try reflexivity;
      try apply Z.leb_le; try apply Z.ltb_lt; lia. }
  unfold write_palette.
  destruct (split_rest rest 4 ltac:(lia)) as (ph & rest1 & -> & Hph & Hr1).
  rewrite app_assoc.
  replace (len cur + 4) with (len (cur ++ ph)) by (rewrite len_app; lia).
  destruct (pack_skip "=HIII" [fH; fI; fI; fI] _ (cur ++ ph) rest1 (14 + 8) eq_refl Ha
              ltac:(cbn; lia)) as (g & rest2 & Hp & Hl & Hg & Hr2).
  rewrite Hp. cbn [bind]. rewrite <- Hl.
  destruct (write_palette_entries_spec pal
              ((cur ++ ph) ++ packed "=HIII" [0x2019; len pal; 0; len pal - 1] ++ g)
              rest2 Hok ltac:(lia)) as (rest3 & He & Hr3).
  rewrite He. cbn [bind].
  change (Z.of_nat (calcsize false [fH; fI; fI; fI])) with 14 in *.
  assert (Hsz : len (((cur ++ ph) ++ packed "=HIII" [0x2019; len pal; 0; len pal - 1] ++ g)
                       ++ concat (map entry_bytes (map wire_color pal)))
                - len cur = 26 + 6 * len pal).
  { rewrite len_app, Hl, len_app, Hle. lia. }
  rewrite Hsz. repeat rewrite <- app_assoc.
  rewrite (pack_patch "=I" [fI] _ cur ph _ eq_refl Has Hph). cbn [bind].
  exists (CPalette 0 (len pal - 1) g (map wire_color pal)).
  assert (Hg8 : length g = 8%nat) by (unfold len in Hg; lia).
  assert (Hbody : len (chunk_body (CPalette 0 (len pal - 1) g (map wire_color pal)))
                  = 20 + 6 * len pal).
  { cbn [chunk_body]. rewrite !len_app, len_map, Hle.
    rewrite (len_packed "=III" _ _ 12 eq_refl Ha3 eq_refl). lia. }
  assert (Hcb : len (chunk_bytes (CPalette 0 (len pal - 1) g (map wire_color pal)))
                = 26 + 6 * len pal).
  { unfold chunk_bytes. rewrite len_app, Hbody.
    rewrite (len_packed "=IH" [fI; fH] _ 6 eq_refl) ;
      [lia | | reflexivity].
    replace (6 + (20 + 6 * len pal)) with (26 + 6 * len pal) by lia. exact Hah. }
  repeat split.
  - exists rest3. split.
    + f_equal. f_equal.
      * unfold chunk_bytes. rewrite Hbody. cbn [chunk_body chunk_type_of].
        rewrite len_map.
        replace (6 + (20 + 6 * len pal)) with (26 + 6 * len pal) by lia.
        packed_unfold. reflexivity.
      * rewrite !len_app in *. lia.
    + rewrite !len_app in *. lia.
  - unfold chunk_ok. rewrite Hbody.
    replace (6 + (20 + 6 * len pal)) with (26 + 6 * len pal) by lia.
    cbn [chunk_type_of chunk_fields_ok]. rewrite Hah, len_map, Ha3, Hes.
    now rewrite (proj2 (Nat.eqb_eq _ _) Hg8).
Qed.

(** *** Sizes *)

Lemma len_tag_bytes t : tag_ok t = true -> len (tag_bytes t) = tag_size t.
Proof.
  unfold tag_ok, tag_bytes, name_field, tag_size. intros H. split_andb.
  rewrite !len_app.
  rewrite (len_packed "=HHB" [fH; fH; fB] _ 5 eq_refl) by (assumption || reflexivity).
  rewrite (len_packed "=H" [fH] _ 2 eq_refl)
    by (try apply args_ok1; assumption || reflexivity).
  rewrite (len_of_length _ 12 12) by (assumption || reflexivity). lia.
Qed.

Lemma forallb_In {A} (f : A -> bool) (l : list A) (a : A) :
  forallb f l = true -> In a l -> f a = true.
Proof. intros H Hin. rewrite forallb_forall in H. now apply H. Qed.

Lemma chunk_body_len c :
  chunk_fields_ok c = true -> 6 + len (chunk_body c) = chunk_size c.
Proof.
  destruct c as [first last gap es|flags ty child u1 u2 blend opacity gap nb
                 |gap ts|layer x y opacity gap body|t payload];
    cbn [chunk_fields_ok chunk_body chunk_size]; intros H; split_andb;
    rewrite ?len_app.
  - rewrite (len_packed "=III" [fI; fI; fI] _ 12 eq_refl) by (assumption || reflexivity).
    rewrite (len_of_length _ 8 8) by (assumption || reflexivity).
    rewrite len_entries by assumption. lia.
  - unfold name_field. rewrite len_app.
    rewrite (len_packed "=HHHHHHB" [fH; fH; fH; fH; fH; fH; fB] _ 13 eq_refl)
      by (assumption || reflexivity).
    rewrite (len_packed "=H" [fH] _ 2 eq_refl)
      by (try apply args_ok1; assumption || reflexivity).
    rewrite (len_of_length _ 3 3) by (assumption || reflexivity). lia.
  - rewrite (len_packed "=H" [fH] _ 2 eq_refl)
      by (try apply args_ok1; assumption || reflexivity).
    rewrite (len_of_length _ 8 8) by (assumption || reflexivity).
    rewrite (len_concat_map tag_bytes tag_size).
    + lia.
    + intros a Ha. apply len_tag_bytes. eapply forallb_In; eassumption.
  - rewrite (len_packed "=HhhBH" [fH; fh; fh; fB; fH] _ 9 eq_refl)
      by (assumption || reflexivity).
    rewrite (len_of_length _ 7 7) by (assumption || reflexivity).
    destruct body as [w h px|f|w h z|ct rest];
      cbn [cel_body_bytes cel_body_size cel_body_ok] in *; rewrite ?len_app.
    + rewrite (len_packed "=HH" [fH; fH] _ 4 eq_refl) by (assumption || reflexivity).
      lia.
    + rewrite (len_packed "=H" [fH] _ 2 eq_refl)
        by (try apply args_ok1; assumption || reflexivity).
      lia.
    + rewrite (len_packed "=HH" [fH; fH] _ 4 eq_refl) by (assumption || reflexivity).
      lia.
    + lia.
  - lia.
Qed.

Lemma chunk_len c : chunk_ok c = true -> len (chunk_bytes c) = chunk_size c.
Proof.
  unfold chunk_ok, chunk_bytes. intros H. split_andb.
  rewrite len_app.
  rewrite (len_packed "=IH" [fI; fH] _ 6 eq_refl) by (assumption || reflexivity).
  now apply chunk_body_len.
Qed.

Lemma chunk_size_erase c : chunk_size (erase c) = chunk_size c.
Proof.
  destruct c; cbn [erase chunk_size]; try reflexivity.
  f_equal. f_equal. rewrite map_map. reflexivity.
Qed.

Lemma chunk_size_nonneg c : chunk_ok c = true -> 6 <= chunk_size c.
Proof.
  unfold chunk_ok. intros H. split_andb.
  rewrite <- chunk_body_len by assumption.
  pose proof (len_nonneg (chunk_body c)). lia.
Qed.

(** *** Tags, layers and cels *)

Lemma name_ok_inv name :
  name_ok name = true ->
  in_range fH (len (name_bytes name)) = true
  /\ len (name_bytes name) = len name
  /\ len (name_field (name_bytes name)) = 2 + len name.
Proof.
  intros H. unfold name_ok in H. apply andb_prop in H. destruct H as [Hr He].
  pose proof (len_name_bytes _ He) as Hl. rewrite Hl.
  repeat split; try assumption.
  unfold name_field. rewrite len_app, Hl.
  rewrite (len_packed "=H" [fH] _ 2 eq_refl); [lia | | reflexivity].
  now apply args_ok1.
Qed.

Lemma write_tag_entries_spec ts :
  forall cur rest,
    forallb tag_valid ts = true ->
    sum (map tag_size (map wire_tag ts)) <= len rest ->
    exists wts,
      emits (write_tag_entries ts (cur ++ rest) (len cur)) cur
        (concat (map tag_bytes wts)) rest
      /\ forallb tag_ok wts = true
      /\ map erase_tag wts = map wire_tag ts.
Proof.
  induction ts as [|t ts IH]; intros cur rest Hok Hroom.
  - exists []. repeat split. apply emits_nil.
  - cbn [forallb] in Hok. apply andb_prop in Hok. destruct Hok as [Ht Hok].
    unfold tag_valid in Ht. apply andb_prop in Ht. destruct Ht as [Ha Hname].
    destruct (name_ok_inv _ Hname) as (Hnr & Hnl & Hnf).
    cbn [map sum] in Hroom. unfold tag_size at 1 in Hroom.
    cbn [wire_tag wt_name] in Hroom. rewrite Hnl in Hroom.
    assert (Hs0 : 0 <= sum (map tag_size (map wire_tag ts))).
    { clear. induction ts as [|t ts IH]; cbn [map sum]; [lia|].
      unfold tag_size at 1. pose proof (len_nonneg (wt_name (wire_tag t))). lia. }
    pose proof (len_nonneg (tag_name t)).
    cbn [write_tag_entries].
    destruct (pack_skip "=HHB" [fH; fH; fB] _ cur rest (5 + 8 + 3 + 1) eq_refl Ha
                ltac:(cbn; lia)) as (g & rest1 & Hp & Hl & Hg & Hr1).
    rewrite Hp. cbn [bind]. rewrite <- Hl.
    set (cur1 := cur ++ packed "=HHB" [tag_from t; tag_to t; loop_dir t] ++ g) in *.
    destruct (write_name_spec (tag_name t) cur1 rest1 Hname ltac:(lia))
      as (rest2 & Hw & Hr2).
    rewrite Hw. cbn [bind].
    destruct (IH (cur1 ++ name_field (name_bytes (tag_name t))) rest2 Hok
                ltac:(lia)) as (wts & (rest3 & He & Hr3) & Hwok & Her).
    subst cur1.
    rewrite He.
    change (Z.of_nat (calcsize false [fH; fH; fB])) with 5 in *.
    assert (Hg12 : length g = 12%nat) by (unfold len in Hg; lia).
    exists (mkWTag (tag_from t) (tag_to t) (loop_dir t) g
              (name_bytes (tag_name t)) :: wts).
    repeat split.
    + exists rest3. split.
      * cbn [map concat].
        change (tag_bytes (mkWTag ?a ?b ?c ?g0 ?n))
          with (packed "=HHB" [a; b; c] ++ g0 ++ name_field n).
        repeat rewrite <- app_assoc. reflexivity.
      * cbn [map concat].
        change (tag_bytes (mkWTag ?a ?b ?c ?g0 ?n))
          with (packed "=HHB" [a; b; c] ++ g0 ++ name_field n).
        rewrite !len_app in *. lia.
    + cbn [forallb]. rewrite Hwok. unfold tag_ok.
      cbn [wt_from wt_to wt_dir wt_gap wt_name].
      rewrite Ha, Hnr, (proj2 (Nat.eqb_eq _ _) Hg12). reflexivity.
    + cbn [map]. rewrite Her. reflexivity.
Qed.

Lemma write_tags_spec ts cur rest :
  forallb tag_valid ts = true ->
  chunk_size (wire_tags ts) <= len rest ->
  chunk_size (wire_tags ts) <= BUFFER_SIZE ->
  exists c,
    emits (write_tags ts (cur ++ rest) (len cur)) cur (chunk_bytes c) rest
    /\ chunk_ok c = true
    /\ erase c = wire_tags ts.
Proof.
  intros Hok Hroom Hlim. cbn [chunk_size wire_tags] in *.
  unfold BUFFER_SIZE in Hlim.
  assert (Hs0 : 19 * len ts <= sum (map tag_size (map wire_tag ts))).
  { clear. induction ts as [|t ts IH]; cbn [map sum]; [unfold len; cbn; lia|].
    rewrite len_cons. unfold tag_size at 1.
    pose proof (len_nonneg (wt_name (wire_tag t))). lia. }
  pose proof (len_nonneg ts).
  assert (Ha : args_ok [fH; fH] [0x2018; len ts] = true).
  { cbn [args_ok in_range].
    repeat (apply andb_true_intro; split); try reflexivity;
      try apply Z.leb_le; try apply Z.ltb_lt; lia. }
  unfold write_tags.
  destruct (split_rest rest 4 ltac:(lia)) as (ph & rest1 & -> & Hph & Hr1).
  rewrite app_assoc.
  replace (len cur + 4) with (len (cur ++ ph)) by (rewrite len_app; lia).
  destruct (pack_skip "=HH" [fH; fH] _ (cur ++ ph) rest1 (4 + 8) eq_refl Ha
              ltac:(cbn; lia)) as (g & rest2 & Hp & Hl & Hg & Hr2).
  rewrite Hp. cbn [bind]. rewrite <- Hl.
  destruct (write_tag_entries_spec ts
              ((cur ++ ph) ++ packed "=HH" [0x2018; len ts] ++ g) rest2 Hok
              ltac:(lia))
    as (wts & (rest3 & He & Hr3) & Hwok & Her).
  rewrite He. cbn [bind].
  change (Z.of_nat (calcsize false [fH; fH])) with 4 in *.
  assert (Hg8 : length g = 8%nat) by (unfold len in Hg; lia).
  assert (Hlw : len wts = len ts).
  { unfold len. apply (f_equal (@length _)) in Her.
    rewrite !length_map in Her. now rewrite Her. }
  set (c := CTags g wts).
  assert (Hf : chunk_fields_ok c = true).
  { cbn [c chunk_fields_ok]. rewrite Hwok, (proj2 (Nat.eqb_eq _ _) Hg8), Hlw.
    cbn [in_range].
    repeat (apply andb_true_intro; split); try reflexivity;
      try apply Z.leb_le; try apply Z.ltb_lt; lia. }
  assert (Hsize : chunk_size c = 16 + sum (map tag_size (map wire_tag ts))).
  { rewrite <- chunk_size_erase. cbn [c erase]. rewrite Her. reflexivity. }
  pose proof (chunk_body_len c Hf) as Hbl.
  assert (Hcok : chunk_ok c = true).
  { unfold chunk_ok. rewrite Hf, Hbl, Hsize. cbn [c chunk_type_of args_ok in_range].
    repeat (apply andb_true_intro; split); try reflexivity;
      try apply Z.leb_le; try apply Z.ltb_lt; lia. }
  pose proof (chunk_len c Hcok) as Hcl.
  assert (Hcb : chunk_bytes c
                = packed "=I" [16 + sum (map tag_size (map wire_tag ts))]
                    ++ packed "=HH" [0x2018; len ts] ++ g
                    ++ concat (map tag_bytes wts)).
  { unfold chunk_bytes. rewrite Hbl, Hsize. cbn [c chunk_body chunk_type_of].
    rewrite Hlw. packed_unfold. reflexivity. }
  assert (Hsz : len (((cur ++ ph) ++ packed "=HH" [0x2018; len ts] ++ g)
                       ++ concat (map tag_bytes wts)) - len cur
                = 16 + sum (map tag_size (map wire_tag ts))).
  { rewrite Hcb in Hcl. rewrite !len_app in *.
    rewrite (len_packed "=I" [fI] _ 4 eq_refl) in Hcl; [lia | | reflexivity].
    cbn [args_ok in_range].
    repeat (apply andb_true_intro; split); try reflexivity;
      try apply Z.leb_le; try apply Z.ltb_lt; lia. }
  rewrite Hsz. repeat rewrite <- app_assoc.
  rewrite (pack_patch "=I" [fI] _ cur ph _ eq_refl); [ | | exact Hph].
  2:{ cbn [args_ok in_range].
      repeat (apply andb_true_intro; split); try reflexivity;
        try apply Z.leb_le; try apply Z.ltb_lt; lia. }
  cbn [bind]. exists c. repeat split; try assumption.
  - exists rest3. rewrite Hcb. split.
    + repeat rewrite <- app_assoc. f_equal. f_equal.
      rewrite !len_app.
      rewrite (len_packed "=I" [fI] _ 4 eq_refl); [lia | | reflexivity].
      cbn [args_ok in_range].
      repeat (apply andb_true_intro; split); try reflexivity;
        try apply Z.leb_le; try apply Z.ltb_lt; lia.
    + rewrite <- Hcb, Hcl, Hsize. rewrite !len_app in *. lia.
  - cbn [c erase wire_tags]. now rewrite Her.
Qed.

(** The last step of every chunk: its size goes into the placeholder. *)
Lemma patch_chunk c cur ph wtail rest data p :
  chunk_fields_ok c = true ->
  chunk_size c <= BUFFER_SIZE ->
  in_range fH (chunk_type_of c) = true ->
  len ph = 4 ->
  chunk_bytes c = packed "=I" [chunk_size c] ++ wtail ->
  data = (cur ++ ph ++ wtail) ++ rest ->
  p = len (cur ++ ph ++ wtail) ->
  chunk_ok c = true
  /\ (d <- pack_into "=I" data (len cur) [p - len cur] ;; Ok (d, p))
     = Ok ((cur ++ chunk_bytes c) ++ rest, len (cur ++ chunk_bytes c)).
Proof.
  intros Hf Hlim Hty Hph Hcb -> ->. unfold BUFFER_SIZE in Hlim.
  pose proof (chunk_body_len c Hf) as Hbl.
  pose proof (len_nonneg (chunk_body c)).
  assert (Hr : in_range fI (chunk_size c) = true).
  { cbn [in_range]. apply andb_true_intro.
    split; [apply Z.leb_le | apply Z.ltb_lt]; lia. }
  assert (Hs : args_ok [fI] [chunk_size c] = true) by (now apply args_ok1).
  assert (Hok : chunk_ok c = true).
  { unfold chunk_ok. rewrite Hf, Hbl. cbn [args_ok]. now rewrite Hty, Hr. }
  split; [exact Hok|].
  pose proof (chunk_len c Hok) as Hcl.
  assert (Hl4 : len (packed "=I" [chunk_size c]) = 4)
    by (now apply (len_packed "=I" [fI])).
  assert (Hsz : len (cur ++ ph ++ wtail) - len cur = chunk_size c).
  { rewrite Hcb in Hcl. rewrite !len_app in *. lia. }
  rewrite Hsz. repeat rewrite <- app_assoc.
  rewrite (pack_patch "=I" [fI] _ cur ph _ eq_refl Hs Hph). cbn [bind].
  rewrite Hcb. repeat rewrite <- app_assoc. f_equal. f_equal.
  rewrite !len_app. lia.
Qed.

Lemma write_layer_spec l cur rest :
  layer_valid l = true ->
  chunk_size (wire_layer l) <= len rest ->
  chunk_size (wire_layer l) <= BUFFER_SIZE ->
  exists c,
    emits (write_layer l (cur ++ rest) (len cur)) cur (chunk_bytes c) rest
    /\ chunk_ok c = true
    /\ erase c = wire_layer l.
Proof.
  intros Hok Hroom Hlim. unfold layer_valid in Hok.
  apply andb_prop in Hok. destruct Hok as [Ha Hname].
  destruct (name_ok_inv _ Hname) as (Hnr & Hnl & Hnf).
  cbn [chunk_size wire_layer] in Hroom, Hlim. rewrite Hnl in Hroom, Hlim.
  pose proof (len_nonneg (layer_name l)).
  assert (Ha7 : args_ok [fH; fH; fH; fH; fH; fH; fB]
                  [layer_flags l; layer_type l; child_level l; 0; 0;
                   blend_mode l; layer_opacity l] = true).
  { cbn [args_ok] in *. split_andb.
    repeat match goal with H : in_range _ _ = true |- _ => rewrite H end.
    reflexivity. }
  unfold write_layer.
  destruct (split_rest rest 4 ltac:(lia)) as (ph & rest1 & -> & Hph & Hr1).
  rewrite app_assoc.
  replace (len cur + 4) with (len (cur ++ ph)) by (rewrite len_app; lia).
  destruct (pack_exact "=H" [fH] [0x2004] (cur ++ ph) rest1 eq_refl eq_refl
              ltac:(cbn; lia)) as (rest2 & Hp & Hl & Hr2).
  rewrite Hp. cbn [bind].
  change (Z.of_nat (calcsize false [fH])) with 2 in *. rewrite <- Hl.
  set (cur2 := (cur ++ ph) ++ packed "=H" [0x2004]) in *.
  destruct (pack_skip "=HHHHHHB" [fH; fH; fH; fH; fH; fH; fB] _ cur2 rest2
              (13 + 3) eq_refl Ha7 ltac:(cbn; lia))
    as (g & rest3 & Hp3 & Hl3 & Hg & Hr3).
  rewrite Hp3. cbn [bind]. rewrite <- Hl3.
  change (Z.of_nat (calcsize false [fH; fH; fH; fH; fH; fH; fB])) with 13 in *.
  set (cur3 := cur2 ++ packed "=HHHHHHB" _ ++ g) in *.
  destruct (write_name_spec (layer_name l) cur3 rest3 Hname ltac:(lia))
    as (rest4 & Hw & Hr4).
  rewrite Hw. cbn [bind].
  assert (Hg3 : length g = 3%nat) by (unfold len in Hg; lia).
  set (c := CLayer (layer_flags l) (layer_type l) (child_level l) 0 0
              (blend_mode l) (layer_opacity l) g (name_bytes (layer_name l))).
  assert (Hf : chunk_fields_ok c = true).
  { cbn [c chunk_fields_ok].
    now rewrite Ha7, Hnr, (proj2 (Nat.eqb_eq _ _) Hg3). }
  assert (Hsize : chunk_size c = 24 + len (layer_name l)).
  { cbn [c chunk_size]. now rewrite Hnl. }
  destruct (patch_chunk c cur ph
              (packed "=H" [0x2004]
                 ++ packed "=HHHHHHB"
                      [layer_flags l; layer_type l; child_level l; 0; 0;
                       blend_mode l; layer_opacity l]
                 ++ g ++ name_field (name_bytes (layer_name l)))
              rest4
              ((cur3 ++ name_field (name_bytes (layer_name l))) ++ rest4)
              (len (cur3 ++ name_field (name_bytes (layer_name l)))) Hf)
    as [Hcok Hpatch]; try assumption; try reflexivity.
  { rewrite Hsize. lia. }
  { unfold chunk_bytes. rewrite (chunk_body_len c Hf).
    cbn [c chunk_body chunk_type_of]. packed_unfold. reflexivity. }
  { subst cur3 cur2. repeat rewrite <- app_assoc. reflexivity. }
  { subst cur3 cur2. repeat rewrite <- app_assoc. reflexivity. }
  exists c. split; [|split; [exact Hcok|reflexivity]].
  exists rest4. split; [exact Hpatch|].
  rewrite (chunk_len c Hcok), Hsize. lia.
Qed.

Lemma write_layers_spec ls :
  forall cur rest n,
    forallb layer_valid ls = true ->
    sum (map chunk_size (map wire_layer ls)) <= len rest ->
    sum (map chunk_size (map wire_layer ls)) <= BUFFER_SIZE ->
    exists cs rest',
      write_layers ls (cur ++ rest, len cur, n)
      = Ok ((cur ++ concat (map chunk_bytes cs)) ++ rest',
            len (cur ++ concat (map chunk_bytes cs)), n + len ls)
      /\ len rest <= len (concat (map chunk_bytes cs)) + len rest'
      /\ forallb chunk_ok cs = true
      /\ map erase cs = map wire_layer ls.
Proof.
  induction ls as [|l ls IH]; intros cur rest n Hok Hroom Hlim.
  - exists [], rest. cbn [write_layers map concat forallb].
    rewrite app_nil_r. change (len (@nil Layer)) with 0.
    change (len (@nil byte)) with 0. rewrite Z.add_0_r.
    repeat split; lia.
  - cbn [forallb] in Hok. apply andb_prop in Hok. destruct Hok as [Hl Hok].
    cbn [map sum] in Hroom, Hlim.
    assert (Hs0 : 0 <= sum (map chunk_size (map wire_layer ls))).
    { clear. induction ls as [|l ls IH]; cbn [map sum]; [lia|].
      cbn [wire_layer chunk_size].
      pose proof (len_nonneg (name_bytes (layer_name l))). lia. }
    assert (0 <= chunk_size (wire_layer l)).
    { cbn [wire_layer chunk_size].
      pose proof (len_nonneg (name_bytes (layer_name l))). lia. }
    destruct (write_layer_spec l cur rest Hl ltac:(lia) ltac:(lia))
      as (c & (rest1 & Hw & Hr1) & Hcok & Her).
    cbn [write_layers]. rewrite Hw. cbn [bind].
    destruct (IH (cur ++ chunk_bytes c) rest1 (n + 1) Hok) as
      (cs & rest2 & Hws & Hr2 & Hcs & Hers).
    { rewrite (chunk_len c Hcok), <- chunk_size_erase, Her in Hr1. lia. }
    { lia. }
    rewrite Hws. exists (c :: cs), rest2.
    cbn [map concat forallb]. rewrite Hcok, Hcs, Her, Hers.
    repeat split.
    + f_equal. repeat rewrite <- app_assoc. f_equal. rewrite len_cons. lia.
    + rewrite len_app. lia.
Qed.

Section WriterCels.

Variable zlib_compress : list byte -> list byte.

Lemma write_cel_spec c cur rest :
  cel_valid c = true ->
  chunk_size (wire_cel zlib_compress c) <= len rest ->
  chunk_size (wire_cel zlib_compress c) <= BUFFER_SIZE ->
  exists ch,
    emits (write_cel zlib_compress c (cur ++ rest) (len cur)) cur
      (chunk_bytes ch) rest
    /\ chunk_ok ch = true
    /\ erase ch = wire_cel zlib_compress c.
Proof.
  intros Hok Hroom Hlim. unfold cel_valid in Hok.
  apply andb_prop in Hok. destruct Hok as [Ha Hbody].
  cbn [chunk_size wire_cel] in Hroom, Hlim.
  assert (Hbs : 0 <= cel_body_size (wire_cel_body zlib_compress c)).
  { unfold wire_cel_body. destruct (linked c); cbn [cel_body_size]; [lia|].
    pose proof (len_nonneg (zlib_compress (opt_list (pixels c)))). lia. }
  assert (Ha6 : forall t, in_range fH t = true ->
            args_ok [fH; fH; fh; fh; fB; fH]
              [0x2005; cel_layer c; cel_x c; cel_y c; cel_opacity c; t] = true).
  { intros t Ht. cbn [args_ok] in *. split_andb.
    repeat match goal with H : in_range _ _ = true |- _ => rewrite H end.
    reflexivity. }
  assert (Ha5 : forall t, in_range fH t = true ->
            args_ok [fH; fh; fh; fB; fH]
              [cel_layer c; cel_x c; cel_y c; cel_opacity c; t] = true).
  { intros t Ht. cbn [args_ok] in *. split_andb.
    repeat match goal with H : in_range _ _ = true |- _ => rewrite H end.
    reflexivity. }
  unfold write_cel.
  destruct (split_rest rest 4 ltac:(lia)) as (ph & rest1 & -> & Hph & Hr1).
  rewrite app_assoc.
  replace (len cur + 4) with (len (cur ++ ph)) by (rewrite len_app; lia).
  unfold wire_cel, wire_cel_body in *.
  destruct (linked c) as [f|] eqn:El.
  - (* a linked cel *)
    cbn [cel_body_size] in *.
    destruct (pack_skip "=HHhhBH" [fH; fH; fh; fh; fB; fH] _ (cur ++ ph) rest1
                (11 + 7) eq_refl (Ha6 1 eq_refl) ltac:(cbn; lia))
      as (g & rest2 & Hp & Hl & Hg & Hr2).
    rewrite Hp. cbn [bind]. rewrite <- Hl.
    change (Z.of_nat (calcsize false [fH; fH; fh; fh; fB; fH])) with 11 in *.
    set (cur2 := (cur ++ ph) ++ packed "=HHhhBH" _ ++ g) in *.
    destruct (pack_exact "=H" [fH] [f] cur2 rest2 eq_refl (args_ok1 _ _ Hbody)
                ltac:(cbn; lia)) as (rest3 & Hp3 & Hl3 & Hr3).
    rewrite Hp3. cbn [bind].
    change (Z.of_nat (calcsize false [fH])) with 2 in *. rewrite <- Hl3.
    assert (Hg7 : length g = 7%nat) by (unfold len in Hg; lia).
    set (ch := CCel (cel_layer c) (cel_x c) (cel_y c) (cel_opacity c) g
                 (BLinked f)).
    assert (Hf : chunk_fields_ok ch = true).
    { cbn [ch chunk_fields_ok cel_type_of cel_body_ok].
      now rewrite (Ha5 1 eq_refl), Hbody, (proj2 (Nat.eqb_eq _ _) Hg7). }
    destruct (patch_chunk ch cur ph
                (packed "=HHhhBH"
                   [0x2005; cel_layer c; cel_x c; cel_y c; cel_opacity c; 1]
                   ++ g ++ packed "=H" [f])
                rest3 ((cur2 ++ packed "=H" [f]) ++ rest3)
                (len (cur2 ++ packed "=H" [f])) Hf)
      as [Hcok Hpatch]; try assumption; try reflexivity.
    { unfold chunk_bytes. rewrite (chunk_body_len ch Hf).
      cbn [ch chunk_body chunk_type_of cel_type_of cel_body_bytes].
      packed_unfold. reflexivity. }
    { subst cur2. repeat rewrite <- app_assoc. reflexivity. }
    { subst cur2. repeat rewrite <- app_assoc. reflexivity. }
    exists ch. split; [|split; [exact Hcok|reflexivity]].
    exists rest3. split; [exact Hpatch|].
    rewrite (chunk_len ch Hcok). cbn [ch chunk_size cel_body_size]. lia.
  - (* pixels, compressed *)
    destruct (cel_w c) as [cw|]; [|discriminate].
    destruct (cel_h c) as [chh|]; [|discriminate].
    destruct (pixels c) as [px|]; [|discriminate].
    cbn [cel_body_size opt_list getitem] in *.
    pose proof (len_nonneg (zlib_compress px)) as Hz.
    destruct (pack_skip "=HHhhBH" [fH; fH; fh; fh; fB; fH] _ (cur ++ ph) rest1
                (11 + 7) eq_refl (Ha6 2 eq_refl) ltac:(cbn; lia))
      as (g & rest2 & Hp & Hl & Hg & Hr2).
    rewrite Hp. cbn [bind]. rewrite <- Hl.
    change (Z.of_nat (calcsize false [fH; fH; fh; fh; fB; fH])) with 11 in *.
    set (cur2 := (cur ++ ph) ++ packed "=HHhhBH" _ ++ g) in *.
    destruct (pack_exact "=HH" [fH; fH] [cw; chh] cur2 rest2 eq_refl Hbody
                ltac:(cbn; lia)) as (rest3 & Hp3 & Hl3 & Hr3).
    rewrite Hp3. cbn [bind].
    change (Z.of_nat (calcsize false [fH; fH])) with 4 in *. rewrite <- Hl3.
    rewrite pyslice_assign_at by lia.
    assert (Hg7 : length g = 7%nat) by (unfold len in Hg; lia).
    set (ch := CCel (cel_layer c) (cel_x c) (cel_y c) (cel_opacity c) g
                 (BCompressed cw chh (zlib_compress px))).
    assert (Hf : chunk_fields_ok ch = true).
    { cbn [ch chunk_fields_ok cel_type_of cel_body_ok].
      now rewrite (Ha5 2 eq_refl), Hbody, (proj2 (Nat.eqb_eq _ _) Hg7). }
    set (rest4 := skipn (Z.to_nat (len (zlib_compress px))) rest3).
    destruct (patch_chunk ch cur ph
                (packed "=HHhhBH"
                   [0x2005; cel_layer c; cel_x c; cel_y c; cel_opacity c; 2]
                   ++ g ++ packed "=HH" [cw; chh] ++ zlib_compress px)
                rest4
                ((cur2 ++ packed "=HH" [cw; chh]) ++ zlib_compress px ++ rest4)
                (len (cur2 ++ packed "=HH" [cw; chh]) + len (zlib_compress px))
                Hf)
      as [Hcok Hpatch]; try assumption; try reflexivity.
    { unfold chunk_bytes. rewrite (chunk_body_len ch Hf).
      cbn [ch chunk_body chunk_type_of cel_type_of cel_body_bytes].
      packed_unfold. reflexivity. }
    { subst cur2. repeat rewrite <- app_assoc. reflexivity. }
    { subst cur2. rewrite !len_app. lia. }
    exists ch. split; [|split; [exact Hcok|reflexivity]].
    exists rest4. split; [exact Hpatch|].
    rewrite (chunk_len ch Hcok). cbn [ch chunk_size cel_body_size].
    subst rest4. unfold len at 3. rewrite length_skipn. unfold len in *. lia.
Qed.

Lemma write_cels_spec cs :
  forall cur rest n,
    forallb cel_valid cs = true ->
    sum (map chunk_size (map (wire_cel zlib_compress) cs)) <= len rest ->
    sum (map chunk_size (map (wire_cel zlib_compress) cs)) <= BUFFER_SIZE ->
    exists chs rest',
      write_cels zlib_compress cs (cur ++ rest, len cur, n)
      = Ok ((cur ++ concat (map chunk_bytes chs)) ++ rest',
            len (cur ++ concat (map chunk_bytes chs)), n + len cs)
      /\ len rest <= len (concat (map chunk_bytes chs)) + len rest'
      /\ forallb chunk_ok chs = true
      /\ map erase chs = map (wire_cel zlib_compress) cs.
Proof.
  induction cs as [|c cs IH]; intros cur rest n Hok Hroom Hlim.
  - exists [], rest. cbn [write_cels map concat forallb].
    rewrite app_nil_r. change (len (@nil Cel)) with 0.
    change (len (@nil byte)) with 0. rewrite Z.add_0_r.
    repeat split; lia.
  - cbn [forallb] in Hok. apply andb_prop in Hok. destruct Hok as [Hc Hok].
    cbn [map sum] in Hroom, Hlim.
    assert (Hpos : forall c', 0 <= chunk_size (wire_cel zlib_compress c')).
    { intros c'. cbn [wire_cel chunk_size]. unfold wire_cel_body.
      destruct (linked c'); cbn [cel_body_size]; [lia|].
      pose proof (len_nonneg (zlib_compress (opt_list (pixels c')))). lia. }
    assert (Hs0 : 0 <= sum (map chunk_size (map (wire_cel zlib_compress) cs))).
    { clear - Hpos. induction cs as [|c cs IH]; cbn [map sum]; [lia|].
      specialize (Hpos c). lia. }
    specialize (Hpos c).
    destruct (write_cel_spec c cur rest Hc ltac:(lia) ltac:(lia))
      as (ch & (rest1 & Hw & Hr1) & Hcok & Her).
    cbn [write_cels]. rewrite Hw. cbn [bind].
    destruct (IH (cur ++ chunk_bytes ch) rest1 (n + 1) Hok) as
      (chs & rest2 & Hws & Hr2 & Hcs & Hers).
    { rewrite (chunk_len ch Hcok), <- chunk_size_erase, Her in Hr1. lia. }
    { lia. }
    rewrite Hws. exists (ch :: chs), rest2.
    cbn [map concat forallb]. rewrite Hcok, Hcs, Her, Hers.
    repeat split.
    + f_equal. repeat rewrite <- app_assoc. f_equal. rewrite len_cons. lia.
    + rewrite len_app. lia.
Qed.

End WriterCels.

(** *** Runs of chunks *)

Lemma chunks_len cs :
  forallb chunk_ok cs = true ->
  len (concat (map chunk_bytes cs)) = sum (map chunk_size (map erase cs)).
Proof.
  induction cs as [|c cs IH]; intros H; [reflexivity|].
  cbn [forallb] in H. apply andb_prop in H. destruct H as [Hc H].
  cbn [map concat sum]. rewrite len_app, chunk_len, chunk_size_erase, IH
    by assumption. reflexivity.
Qed.

Lemma chunks_count cs :
  forallb chunk_ok cs = true ->
  6 * len cs <= sum (map chunk_size (map erase cs)).
Proof.
  induction cs as [|c cs IH]; intros H; [cbn; lia|].
  cbn [forallb] in H. apply andb_prop in H. destruct H as [Hc H].
  cbn [map sum]. rewrite len_cons, chunk_size_erase.
  pose proof (chunk_size_nonneg c Hc). specialize (IH H). lia.
Qed.

Lemma emits_chunks_nil cur rest n :
  emits_chunks (Ok (cur ++ rest, len cur, n)) cur rest n [].
Proof.
  exists [], rest. cbn [map concat forallb]. rewrite app_nil_r.
  change (len (@nil Chunk)) with 0. change (len (@nil byte)) with 0.
  rewrite Z.add_0_r. repeat split; lia.
Qed.

Lemma emits_one m cur rest n t :
  (exists c, emits m cur (chunk_bytes c) rest
             /\ chunk_ok c = true /\ erase c = t) ->
  emits_chunks ('(d, p) <- m ;; Ok (d, p, n + 1)) cur rest n [t].
Proof.
  intros (c & (rest' & -> & Hr) & Hok & Her). exists [c], rest'.
  cbn [bind map concat forallb]. rewrite app_nil_r, Hok, Her.
  repeat split; try assumption.
Qed.

Lemma emits_chunks_seq m k cur rest n t1 t2 :
  emits_chunks m cur rest n t1 ->
  (forall cur1 rest1,
      len rest <= sum (map chunk_size t1) + len rest1 ->
      emits_chunks (k (cur1 ++ rest1, len cur1, n + len t1)) cur1 rest1
        (n + len t1) t2) ->
  emits_chunks (st <- m ;; k st) cur rest n (t1 ++ t2).
Proof.
  intros (cs1 & rest1 & -> & Hr1 & Hok1 & Her1) Hk.
  assert (Hl1 : len cs1 = len t1).
  { rewrite <- Her1. unfold len. now rewrite length_map. }
  pose proof (chunks_len cs1 Hok1) as Hsz. rewrite Her1 in Hsz.
  cbn [bind]. rewrite Hl1.
  destruct (Hk (cur ++ concat (map chunk_bytes cs1)) rest1 ltac:(lia))
    as (cs2 & rest2 & -> & Hr2 & Hok2 & Her2).
  exists (cs1 ++ cs2), rest2.
  rewrite !map_app, concat_app, forallb_app, Hok1, Hok2, Her1, Her2.
  repeat split.
  - f_equal. rewrite <- !app_assoc. f_equal. rewrite len_app. lia.
  - rewrite len_app. lia.
Qed.

Lemma write_layers_chunks ls cur rest n :
  forallb layer_valid ls = true ->
  sum (map chunk_size (map wire_layer ls)) <= len rest ->
  sum (map chunk_size (map wire_layer ls)) <= BUFFER_SIZE ->
  emits_chunks (write_layers ls (cur ++ rest, len cur, n)) cur rest n
    (map wire_layer ls).
Proof.
  intros Hok Hroom Hlim.
  destruct (write_layers_spec ls cur rest n Hok Hroom Hlim)
    as (cs & rest' & He & Hr & Hcs & Her).
  exists cs, rest'. repeat split; try assumption.
  rewrite He. f_equal. f_equal.
  apply (f_equal (@length _)) in Her. rewrite !length_map in Her.
  unfold len. now rewrite Her.
Qed.

Lemma write_cels_chunks zlib_compress cs cur rest n :
  forallb cel_valid cs = true ->
  sum (map chunk_size (map (wire_cel zlib_compress) cs)) <= len rest ->
  sum (map chunk_size (map (wire_cel zlib_compress) cs)) <= BUFFER_SIZE ->
  emits_chunks (write_cels zlib_compress cs (cur ++ rest, len cur, n)) cur rest n
    (map (wire_cel zlib_compress) cs).
Proof.
  intros Hok Hroom Hlim.
  destruct (write_cels_spec zlib_compress cs cur rest n Hok Hroom Hlim)
    as (chs & rest' & He & Hr & Hcs & Her).
  exists chs, rest'. repeat split; try assumption.
  rewrite He. f_equal. f_equal.
  apply (f_equal (@length _)) in Her. rewrite !length_map in Her.
  unfold len. now rewrite Her.
Qed.

Lemma tag_sizes_nonneg (ts : list WTag) : 0 <= sum (map tag_size ts).
Proof.
  induction ts as [|t ts IH]; cbn [map sum]; [lia|].
  unfold tag_size at 1. pose proof (len_nonneg (wt_name t)). lia.
Qed.

Lemma chunk_size_min c : 6 <= chunk_size c.
Proof.
  destruct c as [first last gap es|flags ty child u1 u2 blend opacity gap nb
                 |gap ts|layer x y opacity gap body|t payload];
    cbn [chunk_size].
  - pose proof (len_nonneg es). lia.
  - pose proof (len_nonneg nb). lia.
  - pose proof (tag_sizes_nonneg ts). lia.
  - destruct body as [w h px|f|w h z|ct r]; cbn [cel_body_size];
      try pose proof (len_nonneg px); try pose proof (len_nonneg z);
      try pose proof (len_nonneg r); lia.
  - pose proof (len_nonneg payload). lia.
Qed.

Lemma sum_sizes_min cs : 6 * len cs <= sum (map chunk_size cs).
Proof.
  induction cs as [|c cs IH]; cbn [map sum]; [cbn; lia|].
  rewrite len_cons. pose proof (chunk_size_min c). lia.
Qed.

(** *** Frames *)

Section WriterFrames.

Variable zlib_compress : list byte -> list byte.

Lemma sprite_valid_inv s :
  sprite_valid s = true ->
  args_ok [fH; fH; fH; fB; fH]
    [sprite_w s; sprite_h s; speed s; trans s; len (opt_list (palette s))] = true
  /\ palette s = Some (opt_list (palette s))
  /\ (indexed s = true -> 1 <= len (opt_list (palette s)))
  /\ forallb color_ok (opt_list (palette s)) = true
  /\ forallb tag_valid (opt_list (tags s)) = true
  /\ forallb layer_valid (opt_list (layers s)) = true
  /\ forallb frame_valid (frames s) = true.
Proof.
  unfold sprite_valid. intros H.
  repeat match type of H with
    | andb _ _ = true =>
        let H1 := fresh "H" in
        apply andb_prop in H; destruct H as [H H1]
    end.
  repeat split; try assumption.
  - destruct (palette s); [reflexivity|discriminate].
  - intros Hi. rewrite Hi in *. cbn [negb orb] in *. now apply Z.leb_le.
Qed.

Lemma write_first_frame_spec s cur rest n :
  sprite_valid s = true ->
  sum (map chunk_size (wire_first s)) <= len rest ->
  sum (map chunk_size (wire_first s)) <= BUFFER_SIZE ->
  emits_chunks (write_first_frame s (cur ++ rest, len cur, n)) cur rest n
    (wire_first s).
Proof.
  intros Hv Hroom Hlim.
  destruct (sprite_valid_inv s Hv) as (_ & Hpal & Hn & Hcol & Htags & Hlay & _).
  unfold wire_first in *.
  destruct (palette s) as [pal|] eqn:Ep; [clear Hpal|discriminate Hpal].
  cbn [opt_list] in *. rewrite !map_app, !sum_app in Hroom, Hlim.
  set (t1 := if indexed s then [wire_palette pal] else []) in *.
  set (t2 := match tags s with Some ts => [wire_tags ts] | None => [] end) in *.
  pose proof (sum_sizes_min t1). pose proof (sum_sizes_min t2).
  pose proof (sum_sizes_min (map wire_layer (opt_list (layers s)))).
  pose proof (len_nonneg t1). pose proof (len_nonneg t2).
  pose proof (len_nonneg (map wire_layer (opt_list (layers s)))).
  unfold write_first_frame.
  eapply emits_chunks_seq.
  { subst t1. destruct (indexed s) eqn:Ei.
    - rewrite Ep. cbn [getitem bind]. apply emits_one.
      cbn [map sum] in *.
      apply write_palette_spec; try assumption; try lia; now apply Hn.
    - apply emits_chunks_nil. }
  intros cur1 rest1 Hr1.
  eapply emits_chunks_seq.
  { subst t2. destruct (tags s) as [ts|] eqn:Et.
    - apply emits_one. cbn [map sum opt_list] in *.
      apply write_tags_spec; try assumption; lia.
    - apply emits_chunks_nil. }
  intros cur2 rest2 Hr2.
  destruct (layers s) as [ls|] eqn:El; cbn [opt_list map] in *.
  - apply write_layers_chunks; try assumption; lia.
  - apply emits_chunks_nil.
Qed.

Lemma frame_record size count dur :
  packed "=IHHHBBI" [size; 0xF1FA; count; dur; 0; 0; 0]
  = packed "=I" [size] ++ enc fH 0xF1FA ++ packed "=H" [count]
      ++ enc fH dur ++ enc fB 0 ++ enc fB 0 ++ enc fI 0.
Proof. packed_unfold. reflexivity. Qed.

Lemma write_frame_spec s f first cur rest :
  sprite_valid s = true ->
  frame_valid f = true ->
  frame_size zlib_compress s f first <= len rest ->
  frame_size zlib_compress s f first <= BUFFER_SIZE ->
  exists wf rest',
    write_frame zlib_compress s f first (cur ++ rest) (len cur)
    = Ok ((cur ++ frame_bytes wf) ++ rest', len (cur ++ frame_bytes wf))
    /\ len rest <= len (frame_bytes wf) + len rest'
    /\ len (frame_bytes wf) = frame_size zlib_compress s f first
    /\ frame_ok wf = true
    /\ erase_frame wf = wire_frame zlib_compress s f first.
Proof.
  intros Hv Hf Hroom Hlim. unfold frame_valid in Hf.
  apply andb_prop in Hf. destruct Hf as [Hd Hcels].
  unfold frame_size, wire_chunks in *. rewrite map_app, sum_app in Hroom, Hlim.
  set (t1 := if first then wire_first s else []) in *.
  set (t2 := map (wire_cel zlib_compress) (cels f)) in *.
  pose proof (sum_sizes_min t1). pose proof (sum_sizes_min t2).
  pose proof (len_nonneg t1). pose proof (len_nonneg t2).
  assert (Ha : args_ok [fH; fH; fH; fB; fB; fI] [0xF1FA; 0; duration f; 0; 0; 0]
               = true) by (cbn [args_ok]; now rewrite Hd).
  unfold write_frame.
  destruct (split_rest rest 4 ltac:(lia)) as (ph & rest1 & -> & Hph & Hr1).
  rewrite app_assoc.
  replace (len cur + 4) with (len (cur ++ ph)) by (rewrite len_app; lia).
  destruct (pack_exact "=HHHBBI" [fH; fH; fH; fB; fB; fI] _ (cur ++ ph) rest1
              eq_refl Ha ltac:(cbn; lia)) as (rest2 & Hp & Hl & Hr2).
  rewrite Hp. cbn [bind].
  change (Z.of_nat (calcsize false [fH; fH; fH; fB; fB; fI])) with 12 in *.
  rewrite <- Hl.
  set (cur2 := (cur ++ ph) ++ packed "=HHHBBI" _) in *.
  assert (Hchunks : emits_chunks
            (st <- (if first then write_first_frame s (cur2 ++ rest2, len cur2, 0)
                    else Ok (cur2 ++ rest2, len cur2, 0)) ;;
             write_cels zlib_compress (cels f) st)
            cur2 rest2 0 (t1 ++ t2)).
  { eapply emits_chunks_seq.
    - subst t1. destruct first.
      + apply write_first_frame_spec; try assumption; lia.
      + apply emits_chunks_nil.
    - intros cur3 rest3 Hr3. subst t2.
      apply write_cels_chunks; try assumption; lia. }
  destruct Hchunks as (cs & rest3 & He & Hr3 & Hcs & Her).
  match goal with
  | |- context [bind ?A (fun st => bind (@?F st) ?K)] =>
      rewrite <- (bind_assoc A F K)
  end.
  rewrite He. cbn [bind].
  pose proof (chunks_len cs Hcs) as Hcl. rewrite Her, map_app, sum_app in Hcl.
  pose proof (sum_sizes_min (map erase cs)) as Hcnt.
  rewrite len_map in Hcnt. rewrite Her, map_app, sum_app in Hcnt.
  unfold BUFFER_SIZE in Hlim.
  pose proof (len_nonneg cs).
  set (size := 16 + (sum (map chunk_size t1) + sum (map chunk_size t2))) in *.
  set (wf := mkWFrame size (duration f) cs).
  assert (Hacnt : args_ok [fH] [0 + len cs] = true).
  { apply args_ok1. cbn [in_range]. apply andb_true_intro.
    split; [apply Z.leb_le | apply Z.ltb_lt]; lia. }
  assert (Hasz : args_ok [fI] [size] = true).
  { apply args_ok1. cbn [in_range]. apply andb_true_intro.
    split; [apply Z.leb_le | apply Z.ltb_lt]; lia. }
  assert (Hfok : frame_ok wf = true).
  { unfold frame_ok. cbn [wf wf_size wf_duration wf_chunks]. rewrite Hcs.
    cbn [args_ok in_range] in *. rewrite Hd.
    repeat (apply andb_true_intro; split); try reflexivity;
      try apply Z.leb_le; try apply Z.ltb_lt; lia. }
  assert (Hfb : frame_bytes wf
                = packed "=I" [size] ++ enc fH 0xF1FA ++ packed "=H" [0 + len cs]
                    ++ enc fH (duration f) ++ enc fB 0 ++ enc fB 0 ++ enc fI 0
                    ++ concat (map chunk_bytes cs)).
  { unfold frame_bytes. cbn [wf wf_size wf_duration wf_chunks].
    rewrite frame_record. repeat rewrite <- app_assoc. reflexivity. }
  assert (Hcur : cur2 ++ concat (map chunk_bytes cs)
                 = (cur ++ ph ++ enc fH 0xF1FA) ++ enc fH 0
                     ++ (enc fH (duration f) ++ enc fB 0 ++ enc fB 0 ++ enc fI 0
                           ++ concat (map chunk_bytes cs))).
  { subst cur2. packed_unfold. reflexivity. }
  assert (Hl2 : forall v, len (enc fH v) = 2) by (intros; apply len_enc).
  assert (Hlfb : len (frame_bytes wf) = size).
  { rewrite Hfb, !len_app, !len_enc.
    rewrite (len_packed "=I" [fI] _ 4 eq_refl Hasz eq_refl).
    rewrite (len_packed "=H" [fH] _ 2 eq_refl Hacnt eq_refl).
    cbn [fsize Z.of_nat Pos.of_succ_nat Pos.succ]. lia. }
  assert (Hlc : len (cur2 ++ concat (map chunk_bytes cs)) = len cur + size).
  { rewrite Hcur, !len_app, !len_enc.
    cbn [fsize Z.of_nat Pos.of_succ_nat Pos.succ]. lia. }
  exists wf, rest3.
  replace (len (cur ++ ph) + 2) with (len (cur ++ ph ++ enc fH 0xF1FA))
    by (rewrite !len_app, Hl2; lia).
  rewrite Hcur.
  rewrite <- (app_assoc (cur ++ ph ++ enc fH 0xF1FA) _ rest3).
  rewrite <- (app_assoc (enc fH 0) _ rest3).
  rewrite (pack_patch "=H" [fH] _ (cur ++ ph ++ enc fH 0xF1FA) (enc fH 0) _
             eq_refl Hacnt (Hl2 0)).
  cbn [bind].
  replace (len ((cur ++ ph ++ enc fH 0xF1FA) ++ enc fH 0 ++ _) - len cur)
    with size by (rewrite <- Hcur; lia).
  repeat rewrite <- app_assoc.
  rewrite (pack_patch "=I" [fI] _ cur ph _ eq_refl Hasz Hph).
  cbn [bind].
  split; [|split; [|split; [rewrite map_app, sum_app; exact Hlfb
                           |split; [exact Hfok|]]]].
  - rewrite Hfb. repeat rewrite <- app_assoc. f_equal. f_equal.
    rewrite !len_app, !Hl2, Hph.
    rewrite (len_packed "=I" [fI] _ 4 eq_refl Hasz eq_refl).
    rewrite (len_packed "=H" [fH] _ 2 eq_refl Hacnt eq_refl). reflexivity.
  - rewrite Hlfb. lia.
  - unfold erase_frame, wire_frame, frame_size, wire_chunks.
    cbn [wf wf_size wf_duration wf_chunks]. rewrite Her.
    fold t1 t2. rewrite map_app, sum_app. reflexivity.
Qed.

End WriterFrames.

Section WriterFile.

Variable zlib_compress : list byte -> list byte.

Lemma frame_size_min s f first : 16 <= frame_size zlib_compress s f first.
Proof.
  unfold frame_size.
  pose proof (sum_sizes_min (wire_chunks zlib_compress s f first)).
  pose proof (len_nonneg (wire_chunks zlib_compress s f first)). lia.
Qed.

Lemma frames_size_min s fs first :
  16 * len fs <= frames_size zlib_compress s fs first.
Proof.
  revert first. induction fs as [|f fs IH]; intros first;
    cbn [frames_size]; [cbn; lia|].
  rewrite len_cons. pose proof (frame_size_min s f first).
  specialize (IH false). lia.
Qed.

Lemma wire_frames_length s fs first :
  length (wire_frames zlib_compress s fs first) = length fs.
Proof.
  revert first. induction fs as [|f fs IH]; intros first;
    cbn [wire_frames length]; [reflexivity|]. now rewrite IH.
Qed.

Lemma write_frames_spec s fs :
  forall first cur rest,
    sprite_valid s = true ->
    forallb frame_valid fs = true ->
    frames_size zlib_compress s fs first <= len rest ->
    frames_size zlib_compress s fs first <= BUFFER_SIZE ->
    exists wfs rest',
      write_frames zlib_compress s fs first (cur ++ rest) (len cur)
      = Ok ((cur ++ concat (map frame_bytes wfs)) ++ rest',
            len (cur ++ concat (map frame_bytes wfs)))
      /\ len (concat (map frame_bytes wfs))
         = frames_size zlib_compress s fs first
      /\ forallb frame_ok wfs = true
      /\ map erase_frame wfs = wire_frames zlib_compress s fs first.
Proof.
  induction fs as [|f fs IH]; intros first cur rest Hv Hfs Hroom Hlim.
  - exists [], rest. cbn [write_frames map concat forallb frames_size wire_frames].
    rewrite app_nil_r. repeat split.
  - cbn [forallb] in Hfs. apply andb_prop in Hfs. destruct Hfs as [Hf Hfs].
    cbn [frames_size] in Hroom, Hlim.
    pose proof (frame_size_min s f first).
    pose proof (frames_size_min s fs false). pose proof (len_nonneg fs).
    destruct (write_frame_spec zlib_compress s f first cur rest Hv Hf
                ltac:(lia) ltac:(lia))
      as (wf & rest1 & Hw & Hr1 & Hl1 & Hok1 & Her1).
    cbn [write_frames]. rewrite Hw. cbn [bind].
    destruct (IH false (cur ++ frame_bytes wf) rest1 Hv Hfs ltac:(lia) ltac:(lia))
      as (wfs & rest2 & Hws & Hl2 & Hok2 & Her2).
    rewrite Hws. exists (wf :: wfs), rest2.
    cbn [map concat forallb frames_size wire_frames].
    rewrite Hok1, Hok2, Her1, Her2.
    split; [|split; [|split; reflexivity]].
    + repeat rewrite <- app_assoc. reflexivity.
    + rewrite len_app, Hl1, Hl2. reflexivity.
Qed.

Lemma header_record size vs :
  length vs = 16%nat ->
  packed "=IHHHHHIHIIB3BHBB" (size :: vs)
  = packed "=I" [size] ++ packed "=HHHHHIHIIBBBBHBB" vs.
Proof.
  intros H.
  do 16 (destruct vs as [|? vs]; [discriminate H|]).
  destruct vs; [|discriminate H].
  packed_unfold. reflexivity.
Qed.

(** The writer on a buffer with room for the file: what comes out is a
    well-formed file whose header and chunks are those of the sprite, up to
    the bytes the writer leaves as it finds them. *)
Lemma write_buffer_spec s data :
  sprite_valid s = true ->
  file_size zlib_compress s <= len data ->
  file_size zlib_compress s <= BUFFER_SIZE ->
  exists f,
    write_buffer zlib_compress s data = Ok (file_bytes f)
    /\ file_ok f = true
    /\ w_header f = wire_header zlib_compress s
    /\ map erase_frame (w_frames f)
       = wire_frames zlib_compress s (frames s) true
    /\ len (file_bytes f) = file_size zlib_compress s.
Proof.
  intros Hv Hroom Hlim.
  destruct (sprite_valid_inv s Hv) as (Hh & Hpal & _ & _ & _ & _ & Hfs).
  unfold file_size in *. unfold BUFFER_SIZE in Hlim.
  pose proof (frames_size_min s (frames s) true) as Hmin.
  pose proof (len_nonneg (frames s)) as Hnf.
  set (pal := opt_list (palette s)) in *.
  set (size := 128 + frames_size zlib_compress s (frames s) true) in *.
  assert (Ha : args_ok [fH; fH; fH; fH; fH; fI; fH; fI; fI; fB; fB; fB; fB; fH; fB; fB]
                 [0xA5E0; len (frames s); sprite_w s; sprite_h s;
                  if indexed s then 8 else 32; 1; speed s; 0; 0; trans s;
                  0; 0; 0; len pal; 0; 0] = true).
  { cbn [args_ok] in *. split_andb.
    repeat match goal with H : in_range _ _ = true |- _ => rewrite H end.
    assert (Hr : in_range fH (len (frames s)) = true).
    { cbn [in_range]. apply andb_true_intro.
      split; [apply Z.leb_le | apply Z.ltb_lt]; lia. }
    rewrite Hr. destruct (indexed s); reflexivity. }
  assert (Hasz : args_ok [fI] [size] = true).
  { apply args_ok1. cbn [in_range]. apply andb_true_intro.
    split; [apply Z.leb_le | apply Z.ltb_lt]; lia. }
  unfold write_buffer. rewrite Hpal. cbn [getitem bind]. fold pal.
  destruct (split_rest data 4 ltac:(lia)) as (ph & rest0 & -> & Hph & Hr0).
  destruct (pack_skip "=HHHHHIHIIBBBBHBB"
              [fH; fH; fH; fH; fH; fI; fH; fI; fI; fB; fB; fB; fB; fH; fB; fB]
              _ ph rest0 124 eq_refl Ha ltac:(cbn; lia))
    as (g & rest1 & Hp & Hl & Hg & Hr1).
  rewrite Hph in Hp. rewrite Hp. cbn [bind].
  replace (4 + 124) with (len (ph ++ packed "=HHHHHIHIIBBBBHBB"
              [0xA5E0; len (frames s); sprite_w s; sprite_h s;
               if indexed s then 8 else 32; 1; speed s; 0; 0; trans s;
               0; 0; 0; len pal; 0; 0] ++ g)) by lia.
  set (cur1 := ph ++ packed "=HHHHHIHIIBBBBHBB" _ ++ g) in *.
  destruct (write_frames_spec s (frames s) true cur1 rest1 Hv Hfs
              ltac:(lia) ltac:(unfold BUFFER_SIZE; lia))
    as (wfs & rest2 & Hw & Hlw & Hok & Her).
  rewrite Hw. cbn [bind].
  change (Z.of_nat (calcsize false
            [fH; fH; fH; fH; fH; fI; fH; fI; fI; fB; fB; fB; fB; fH; fB; fB]))
    with 32 in *.
  assert (Hsz : len (cur1 ++ concat (map frame_bytes wfs)) = size).
  { rewrite len_app, Hl, Hlw. lia. }
  rewrite Hsz.
  assert (Hdata : (cur1 ++ concat (map frame_bytes wfs)) ++ rest2
                  = [] ++ ph ++ (packed "=HHHHHIHIIBBBBHBB"
                       [0xA5E0; len (frames s); sprite_w s; sprite_h s;
                        if indexed s then 8 else 32; 1; speed s; 0; 0; trans s;
                        0; 0; 0; len pal; 0; 0] ++ g
                       ++ concat (map frame_bytes wfs)) ++ rest2).
  { subst cur1. cbn [app]. repeat rewrite <- app_assoc. reflexivity. }
  rewrite Hdata.
  change 0 with (len (@nil byte)) at 1.
  rewrite (pack_patch "=I" [fI] _ [] ph _ eq_refl Hasz Hph). cbn [bind app].
  set (f := mkWFile (wire_header zlib_compress s) g wfs).
  assert (Hfb : file_bytes f
                = packed "=I" [size] ++ packed "=HHHHHIHIIBBBBHBB"
                       [0xA5E0; len (frames s); sprite_w s; sprite_h s;
                        if indexed s then 8 else 32; 1; speed s; 0; 0; trans s;
                        0; 0; 0; len pal; 0; 0] ++ g
                       ++ concat (map frame_bytes wfs)).
  { unfold file_bytes. cbn [f w_header w_gap w_frames]. unfold wire_header.
    rewrite header_record by reflexivity.
    unfold file_size. fold size. fold pal.
    repeat rewrite <- app_assoc. reflexivity. }
  assert (Hlf : len (file_bytes f) = size).
  { rewrite Hfb, !len_app. rewrite !len_app in Hsz.
    subst cur1. rewrite !len_app in Hsz.
    rewrite (len_packed "=I" [fI] _ 4 eq_refl Hasz eq_refl). lia. }
  exists f. split; [|split; [|split; [reflexivity|split; [exact Her|exact Hlf]]]].
  - f_equal. apply slice_to with (r := rest2).
    + rewrite Hfb. repeat rewrite <- app_assoc. apply suffix_at_start.
    + lia.
  - unfold file_ok. cbn [f w_header w_gap w_frames]. rewrite Hok.
    assert (Hg92 : length g = 92%nat) by (unfold len in Hg; lia).
    rewrite (proj2 (Nat.eqb_eq _ _) Hg92).
    assert (Hlen : len wfs = len (frames s)).
    { apply (f_equal (@length _)) in Her.
      rewrite length_map, wire_frames_length in Her. unfold len. now rewrite Her. }
    unfold wire_header, HEADER_CODES. cbn [item nth].
    rewrite Hlen, Z.eqb_refl.
    cbn [args_ok] in *. unfold file_size. fold size. fold pal.
    apply andb_prop in Hasz. destruct Hasz as [Hasz _]. rewrite Hasz.
    rewrite Ha. reflexivity.
Qed.

End WriterFile.

(* ===================================================================== *)
(** ** The stored-block codec is a codec *)
(* ===================================================================== *)

Module StoredFacts.

Import Stored.

Lemma le16 (v : Z) :
  le_encode 2 v = [z2b (v mod 256); z2b ((v / 256) mod 256)].
Proof. reflexivity. Qed.

Lemma le16_decode (v : Z) :
  0 <= v < 65536 -> le_decode [z2b (v mod 256); z2b ((v / 256) mod 256)] = v.
Proof.
  intros Hv. rewrite <- le16. apply le_decode_encode. cbn. lia.
Qed.

Lemma inflate_deflate fuel :
  forall bs fuel' tl,
    (length bs < fuel)%nat -> (length bs < fuel')%nat ->
    inflate fuel' (deflate fuel bs ++ tl) = Ok (bs, tl).
Proof.
  induction fuel as [|fuel IH]; intros bs fuel' tl Hf Hf'; [lia|].
  destruct fuel' as [|fuel']; [lia|].
  cbn [deflate]. unfold BLOCK in *.
  destruct (len bs <=? 65535) eqn:E.
  - apply Z.leb_le in E. pose proof (len_nonneg bs) as Hn.
    rewrite !le16. cbn [app inflate].
    rewrite !le16_decode by lia.
    change (b2z Byte.x01) with 1. cbn [Z.leb Z.compare Pos.compare Pos.compare_cont
                                         Z.eqb Pos.eqb andb].
    rewrite Z.eqb_refl. cbn [andb].
    rewrite len_app.
    destruct (len bs <=? len bs + len tl) eqn:E2.
    2:{ apply Z.leb_gt in E2. pose proof (len_nonneg tl). lia. }
    unfold len. rewrite Nat2Z.id.
    now rewrite firstn_app_length, skipn_app_length.
  - apply Z.leb_gt in E. unfold len in E.
    rewrite !le16. cbn [app inflate].
    rewrite !le16_decode by lia.
    change (b2z Byte.x00) with 0. cbn [Z.leb Z.compare andb Z.eqb].
    change (65535 - 65535) with 0. cbn [Z.eqb andb].
    assert (Hl : length (firstn (Z.to_nat 65535) bs) = Z.to_nat 65535)
      by (rewrite length_firstn; lia).
    rewrite <- app_assoc.
    destruct (65535 <=? len (firstn (Z.to_nat 65535) bs
                               ++ deflate fuel (skipn (Z.to_nat 65535) bs) ++ tl))
      eqn:E2.
    2:{ apply Z.leb_gt in E2. rewrite len_app in E2. unfold len in E2. lia. }
    set (blk := firstn (Z.to_nat 65535) bs) in *.
    rewrite <- Hl.
    rewrite firstn_app_length, skipn_app_length.
    rewrite IH by (rewrite length_skipn; lia). cbn [bind].
    subst blk. rewrite Hl. now rewrite firstn_skipn.
Qed.

Lemma deflate_length fuel bs :
  (length bs < fuel)%nat -> (length bs < length (deflate fuel bs))%nat.
Proof.
  revert bs. induction fuel as [|fuel IH]; intros bs Hf; [lia|].
  cbn [deflate]. unfold BLOCK.
  destruct (len bs <=? 65535) eqn:E.
  - cbn [length]. rewrite !length_app, !le_encode_length. lia.
  - apply Z.leb_gt in E. unfold len in E.
    cbn [length]. rewrite !length_app, !le_encode_length, length_firstn.
    specialize (IH (skipn (Z.to_nat 65535) bs)).
    rewrite length_skipn in IH. lia.
Qed.

(** Decompressing what was compressed gives the data back. *)
Lemma decompress_compress (bs : list byte) :
  decompress (compress bs) = Ok bs.
Proof.
  unfold compress, decompress. cbn [app].
  change (b2z Byte.x78 =? 120) with true. change (b2z Byte.x01 =? 1) with true.
  cbn [andb].
  rewrite inflate_deflate.
  - cbn [bind]. destruct (list_eq_dec _ _ _) as [_|n]; [reflexivity|].
    now destruct n.
  - lia.
  - rewrite length_app. pose proof (deflate_length (S (length bs)) bs). lia.
Qed.

End StoredFacts.

(* ===================================================================== *)
(** ** Reading back what the writer lays out *)
(* ===================================================================== *)

Section ReadBack.

Variable zlib_compress : list byte -> list byte.
Variable zlib_decompress : list byte -> result (list byte).

(** The reserved bytes do not matter to the reader. *)
Lemma apply_tags_erase ts sprite :
  apply_tags (map erase_tag ts) sprite = apply_tags ts sprite.
Proof.
  revert sprite. induction ts as [|t ts IH]; intros sprite; [reflexivity|].
  cbn [map apply_tags]. unfold apply_tag.
  cbn [erase_tag wt_name wt_from wt_to wt_dir].
  destruct (utf8_decode (wt_name t)); cbn [bind]; [|reflexivity].
  destruct (getitem (tags sprite)); cbn [bind]; [|reflexivity].
  apply IH.
Qed.

Lemma apply_chunk_erase c st :
  apply_chunk zlib_decompress (erase c) st = apply_chunk zlib_decompress c st.
Proof.
  destruct st as [sprite frame].
  destruct c; cbn [erase apply_chunk]; try reflexivity.
  now rewrite apply_tags_erase.
Qed.

Lemma apply_chunks_erase cs st :
  apply_chunks zlib_decompress (map erase cs) st
  = apply_chunks zlib_decompress cs st.
Proof.
  revert st. induction cs as [|c cs IH]; intros st; [reflexivity|].
  cbn [map apply_chunks]. rewrite apply_chunk_erase.
  destruct (apply_chunk _ c st); cbn [bind]; [apply IH|reflexivity].
Qed.

Lemma apply_frames_erase fs sprite :
  apply_frames zlib_decompress (map erase_frame fs) sprite
  = apply_frames zlib_decompress fs sprite.
Proof.
  revert sprite. induction fs as [|f fs IH]; intros sprite; [reflexivity|].
  cbn [map apply_frames]. unfold apply_frame.
  cbn [erase_frame wf_chunks wf_duration]. rewrite apply_chunks_erase.
  destruct (apply_chunks _ _ _) as [[sp fr]|]; cbn [bind]; [apply IH|reflexivity].
Qed.

Lemma apply_chunks_app a b st :
  apply_chunks zlib_decompress (a ++ b) st
  = (st <- apply_chunks zlib_decompress a st ;;
     apply_chunks zlib_decompress b st).
Proof.
  revert st. induction a as [|c a IH]; intros st; [reflexivity|].
  cbn [app apply_chunks]. destruct (apply_chunk _ c st); cbn [bind];
    [apply IH|reflexivity].
Qed.

(** *** Tags and layers *)

Lemma apply_tags_wire ts :
  forall sprite acc,
    apply_tags (map wire_tag ts) (set_tags sprite (Some acc))
    = (ts' <- mapM read_back_tag ts ;;
       Ok (set_tags sprite (Some (acc ++ ts')))).
Proof.
  induction ts as [|t ts IH]; intros sprite acc.
  - cbn [map apply_tags mapM bind]. now rewrite app_nil_r.
  - cbn [map apply_tags mapM]. unfold apply_tag.
    unfold read_back_tag at 1. unfold read_back_name.
    cbn [wire_tag wt_name wt_from wt_to wt_dir].
    destruct (utf8_decode (name_bytes (tag_name t))) as [nm|e]; cbn [bind];
      [|reflexivity].
    change (tags (set_tags sprite (Some acc))) with (Some acc).
    cbn [getitem bind].
    change (set_tags (set_tags sprite (Some acc)) ?x) with (set_tags sprite x).
    rewrite IH.
    destruct (mapM read_back_tag ts) as [ts'|e]; cbn [bind]; [|reflexivity].
    now rewrite <- app_assoc.
Qed.

Lemma apply_layers_wire ls :
  forall sprite frame acc,
    apply_chunks zlib_decompress (map wire_layer ls)
      (set_layers sprite (Some acc), frame)
    = (ls' <- mapM read_back_layer ls ;;
       Ok (set_layers sprite (Some (acc ++ ls')), frame)).
Proof.
  induction ls as [|l ls IH]; intros sprite frame acc.
  - cbn [map apply_chunks mapM bind]. now rewrite app_nil_r.
  - cbn [map apply_chunks mapM]. unfold read_back_layer at 1.
    unfold read_back_name. cbn [wire_layer apply_chunk].
    destruct (utf8_decode (name_bytes (layer_name l))) as [nm|e]; cbn [bind];
      [|reflexivity].
    change (layers (set_layers sprite (Some acc))) with (Some acc).
    cbn [getitem bind].
    change (set_layers (set_layers sprite (Some acc)) ?x)
      with (set_layers sprite x).
    rewrite IH.
    destruct (mapM read_back_layer ls) as [ls'|e]; cbn [bind]; [|reflexivity].
    now rewrite <- app_assoc.
Qed.

(** *** Cels *)

Hypothesis zlib_inverse :
  forall bs, zlib_decompress (zlib_compress bs) = Ok bs.

Lemma apply_cel_wire c sprite frame :
  cel_valid c = true ->
  apply_chunk zlib_decompress (wire_cel zlib_compress c) (sprite, frame)
  = Ok (sprite, add_cel frame (read_back_cel c)).
Proof.
  intros Hok. unfold cel_valid in Hok. apply andb_prop in Hok.
  destruct Hok as [_ Hb].
  unfold wire_cel, wire_cel_body, read_back_cel. cbn [apply_chunk].
  destruct (linked c) as [f|]; cbn [apply_cel_body bind]; [reflexivity|].
  destruct (cel_w c) as [cw|]; [|discriminate].
  destruct (cel_h c) as [ch|]; [|discriminate].
  destruct (pixels c) as [px|]; [|discriminate].
  cbn [opt_list]. rewrite zlib_inverse. reflexivity.
Qed.

Lemma apply_cels_wire cs :
  forall sprite frame,
    forallb cel_valid cs = true ->
    apply_chunks zlib_decompress (map (wire_cel zlib_compress) cs)
      (sprite, frame)
    = Ok (sprite, mkFrame (duration frame)
                    (cels frame ++ map read_back_cel cs)).
Proof.
  induction cs as [|c cs IH]; intros sprite frame Hok.
  - cbn [map apply_chunks]. rewrite app_nil_r. now destruct frame.
  - cbn [forallb] in Hok. apply andb_prop in Hok. destruct Hok as [Hc Hok].
    cbn [map apply_chunks]. rewrite apply_cel_wire by assumption.
    cbn [bind]. rewrite IH by assumption.
    unfold add_cel. cbn [duration cels]. now rewrite <- app_assoc.
Qed.


(** *** Frames *)

Lemma wire_colors pal : map snd (map wire_color pal) = map read_back_color pal.
Proof.
  rewrite map_map. apply map_ext. intros [[[r g] b] a]. reflexivity.
Qed.

Lemma apply_first s nm sw sh tr fs0 spd frame :
  apply_chunks zlib_decompress (wire_first s)
    (mkSprite nm sw sh tr fs0 (Some []) spd (indexed s) None None, frame)
  = (ts <- match tags s with
           | Some ts => ts' <- mapM read_back_tag ts ;; Ok (Some ts')
           | None => Ok None
           end ;;
     ls <- mapM read_back_layer (opt_list (layers s)) ;;
     Ok (mkSprite nm sw sh tr fs0 (Some ls) spd (indexed s)
           (if indexed s
            then Some (map read_back_color (opt_list (palette s)))
            else None)
           ts, frame)).
Proof.
  unfold wire_first. rewrite !apply_chunks_app.
  set (p := if indexed s
            then Some (map read_back_color (opt_list (palette s)))
            else None).
  assert (H1 : apply_chunks zlib_decompress
                 (if indexed s then [wire_palette (opt_list (palette s))] else [])
                 (mkSprite nm sw sh tr fs0 (Some []) spd (indexed s) None None,
                  frame)
               = Ok (mkSprite nm sw sh tr fs0 (Some []) spd (indexed s) p None,
                     frame)).
  { subst p. destruct (indexed s); [|reflexivity].
    cbn [apply_chunks wire_palette apply_chunk bind set_palette].
    now rewrite wire_colors. }
  rewrite H1. cbn [bind]. rewrite apply_chunks_app.
  destruct (tags s) as [ts|].
  - cbn [apply_chunks wire_tags apply_chunk].
    change (set_tags ?sp (Some [])) with
      (set_tags (mkSprite nm sw sh tr fs0 (Some []) spd (indexed s) p None)
         (Some [])).
    rewrite apply_tags_wire.
    destruct (mapM read_back_tag ts) as [ts'|e]; cbn [bind]; [|reflexivity].
    change (set_tags ?sp (Some ([] ++ ts'))) with
      (set_layers (mkSprite nm sw sh tr fs0 (Some []) spd (indexed s) p
                     (Some ts')) (Some [])).
    rewrite apply_layers_wire.
    destruct (mapM read_back_layer _) as [ls'|e]; reflexivity.
  - cbn [apply_chunks bind].
    change (mkSprite nm sw sh tr fs0 (Some []) spd (indexed s) p None) with
      (set_layers (mkSprite nm sw sh tr fs0 (Some []) spd (indexed s) p None)
         (Some [])).
    rewrite apply_layers_wire.
    destruct (mapM read_back_layer _) as [ls'|e]; reflexivity.
Qed.

Lemma apply_frames_rest s fs :
  forall sprite,
    forallb frame_valid fs = true ->
    apply_frames zlib_decompress (wire_frames zlib_compress s fs false) sprite
    = Ok (set_frames sprite (frames sprite ++ map read_back_frame fs)).
Proof.
  induction fs as [|f fs IH]; intros sprite Hok.
  - cbn [wire_frames apply_frames map]. rewrite app_nil_r. now destruct sprite.
  - cbn [forallb] in Hok. apply andb_prop in Hok. destruct Hok as [Hf Hok].
    unfold frame_valid in Hf. apply andb_prop in Hf. destruct Hf as [_ Hcs].
    cbn [wire_frames apply_frames map]. unfold apply_frame.
    cbn [wire_frame wf_chunks wf_duration]. unfold wire_chunks. cbn [app].
    rewrite apply_cels_wire by assumption. cbn [bind duration cels app].
    rewrite IH by assumption. f_equal.
    unfold set_frames. cbn [frames sprite_name sprite_w sprite_h trans layers
                              speed indexed palette tags].
    unfold read_back_frame at 2. now rewrite <- app_assoc.
Qed.

(** The frames the writer lays out, read from the sprite the header gives. *)
Lemma apply_wire_frames name s :
  forallb frame_valid (frames s) = true ->
  apply_frames zlib_decompress
    (wire_frames zlib_compress s (frames s) true)
    (init_sprite name (wire_header zlib_compress s))
  = read_back name s.
Proof.
  intros Hok. unfold init_sprite, wire_header, read_back. cbn [item nth].
  replace ((if indexed s then 8 else 32) =? 8) with (indexed s)
    by (destruct (indexed s); reflexivity).
  destruct (frames s) as [|f fs] eqn:Ef; [reflexivity|].
  cbn [forallb] in Hok. apply andb_prop in Hok. destruct Hok as [Hf Hok].
  unfold frame_valid in Hf. apply andb_prop in Hf. destruct Hf as [_ Hcs].
  cbn [wire_frames apply_frames]. unfold apply_frame.
  cbn [wire_frame wf_chunks wf_duration]. unfold wire_chunks.
  rewrite apply_chunks_app, apply_first.
  destruct (match tags s with Some _ => _ | None => _ end) as [ts|e];
    cbn [bind]; [|reflexivity].
  destruct (mapM read_back_layer _) as [ls|e]; cbn [bind]; [|reflexivity].
  rewrite apply_cels_wire by assumption. cbn [bind duration cels app].
  rewrite apply_frames_rest by assumption.
  reflexivity.
Qed.

(** *** The round trip *)

(** What [write_aseprite_file] produces for a valid sprite that fits. *)
Lemma write_file_spec s :
  sprite_valid s = true ->
  fits zlib_compress s = true ->
  exists f,
    write_aseprite_file zlib_compress s = Ok (file_bytes f)
    /\ file_ok f = true
    /\ w_header f = wire_header zlib_compress s
    /\ map erase_frame (w_frames f)
       = wire_frames zlib_compress s (frames s) true
    /\ len (file_bytes f) = file_size zlib_compress s.
Proof.
  intros Hv Hfit. unfold fits in Hfit. apply Z.leb_le in Hfit.
  assert (Hbuf : file_size zlib_compress s
                 <= len (repeat Byte.x00 (Z.to_nat BUFFER_SIZE))).
  { unfold len. rewrite repeat_length. unfold BUFFER_SIZE in *. lia. }
  exact (write_buffer_spec zlib_compress s
           (repeat Byte.x00 (Z.to_nat BUFFER_SIZE)) Hv Hbuf Hfit).
Qed.

(** Writing a valid sprite that fits the buffer succeeds, and reading the
    bytes written gives [read_back] of the sprite. *)
Theorem read_after_write name s :
  sprite_valid s = true ->
  fits zlib_compress s = true ->
  exists bytes,
    write_aseprite_file zlib_compress s = Ok bytes
    /\ len bytes = file_size zlib_compress s
    /\ read_aseprite_file zlib_decompress name bytes = read_back name s.
Proof.
  intros Hv Hfit.
  destruct (sprite_valid_inv s Hv) as (_ & _ & _ & _ & _ & _ & Hfs).
  destruct (write_file_spec s Hv Hfit) as (f & Hw & Hok & Hh & Her & Hlen).
  exists (file_bytes f). split; [exact Hw|]. split; [exact Hlen|].
  rewrite (read_file_spec zlib_decompress name f Hok).
  rewrite <- apply_frames_erase, Her, Hh.
  now apply apply_wire_frames.
Qed.

End ReadBack.

(* ===================================================================== *)
(** ** Names: characters and bytes *)
(* ===================================================================== *)

Lemma utf8_decode_nil : utf8_decode [] = Ok [].
Proof. reflexivity. Qed.

Lemma utf8_decode_low x r :
  (b2z x <? 128) = true ->
  utf8_decode (x :: r) = (s <- utf8_decode r ;; Ok (b2z x :: s)).
Proof.
  intros H. unfold utf8_decode at 1. fold utf8_decode. now rewrite H.
Qed.

Lemma utf8_encode_cons c s :
  utf8_encode (c :: s)
  = (bs <- utf8_encode_char c ;; rest <- utf8_encode s ;; Ok (bs ++ rest)).
Proof. reflexivity. Qed.

Lemma utf8_encode_ascii name :
  ascii_str name = true -> utf8_encode name = Ok (map z2b name).
Proof.
  induction name as [|c name IH]; intros H; [reflexivity|].
  cbn [ascii_str forallb] in H. apply andb_prop in H. destruct H as [Hc H].
  rewrite utf8_encode_cons. unfold utf8_encode_char. rewrite Hc.
  cbn [bind]. unfold ascii_str in IH. rewrite IH by assumption. reflexivity.
Qed.

Lemma utf8_decode_ascii name :
  ascii_str name = true -> utf8_decode (map z2b name) = Ok name.
Proof.
  induction name as [|c name IH]; intros H; [reflexivity|].
  cbn [ascii_str forallb] in H. apply andb_prop in H. destruct H as [Hc H].
  apply andb_prop in Hc. destruct Hc as [H0 H1].
  apply Z.leb_le in H0. apply Z.ltb_lt in H1.
  cbn [map]. rewrite utf8_decode_low; rewrite b2z_z2b by lia.
  - unfold ascii_str in IH. now rewrite IH.
  - now apply Z.ltb_lt.
Qed.

Lemma name_bytes_ascii name :
  ascii_str name = true -> name_bytes name = map z2b name.
Proof.
  intros H. unfold name_bytes. rewrite utf8_encode_ascii by assumption.
  rewrite <- (length_map z2b name). apply firstn_all.
Qed.

Lemma read_back_name_ascii name :
  ascii_str name = true -> read_back_name name = Ok name.
Proof.
  intros H. unfold read_back_name. rewrite name_bytes_ascii by assumption.
  now apply utf8_decode_ascii.
Qed.

(** Decoding yields at most one character per byte, and exactly one per
    byte only when every character is ASCII. *)
Lemma utf8_decode_count n :
  forall bs s,
    (length bs <= n)%nat ->
    utf8_decode bs = Ok s ->
    (length s <= length bs)%nat
    /\ (length s = length bs -> ascii_str s = true).
Proof.
  induction n as [|n IH]; intros bs s Hn Hd.
  - destruct bs; [|cbn in Hn; lia]. rewrite utf8_decode_nil in Hd.
    inversion Hd. split; [cbn; lia|reflexivity].
  - destruct bs as [|x0 r0].
    { rewrite utf8_decode_nil in Hd. inversion Hd.
      split; [cbn; lia|reflexivity]. }
    cbn [length] in Hn.
    unfold utf8_decode in Hd. fold utf8_decode in Hd.
    destruct (b2z x0 <? 128) eqn:E0.
    { destruct (utf8_decode r0) as [s'|] eqn:Er; cbn [bind] in Hd;
        [|discriminate].
      inversion Hd; subst s. destruct (IH r0 s' ltac:(lia) Er) as [Hl Ha].
      cbn [length]. split; [lia|]. intros Heq.
      cbn [ascii_str forallb]. pose proof (b2z_range x0) as Hr.
      rewrite E0, (proj2 (Z.leb_le 0 _)) by lia. cbn [andb].
      apply Ha. lia. }
    assert (Hshort : forall r s' c, (length r < length r0)%nat ->
              utf8_decode r = Ok s' ->
              (length (c :: s') <= length (x0 :: r0))%nat
              /\ (length (c :: s') = length (x0 :: r0) ->
                  ascii_str (c :: s') = true)).
    { intros r s' c Hr Er. destruct (IH r s' ltac:(lia) Er) as [Hl _].
      cbn [length]. split; lia. }
    destruct (between 194 (b2z x0) 223).
    { destruct r0 as [|x1 r1]; [discriminate|].
      destruct (cont (b2z x1)); [|discriminate].
      destruct (utf8_decode r1) as [s'|] eqn:Er; cbn [bind] in Hd;
        [|discriminate].
      injection Hd as <-. apply (Hshort r1 s'); [cbn; lia|exact Er]. }
    destruct (between 224 (b2z x0) 239).
    { destruct r0 as [|x1 [|x2 r2]]; try discriminate.
      destruct (second_ok (b2z x0) (b2z x1) && cont (b2z x2)); [|discriminate].
      destruct (utf8_decode r2) as [s'|] eqn:Er; cbn [bind] in Hd;
        [|discriminate].
      injection Hd as <-. apply (Hshort r2 s'); [cbn; lia|exact Er]. }
    destruct (between 240 (b2z x0) 244); [|discriminate].
    destruct r0 as [|x1 [|x2 [|x3 r3]]]; try discriminate.
    destruct (second_ok (b2z x0) (b2z x1) && cont (b2z x2) && cont (b2z x3));
      [|discriminate].
    destruct (utf8_decode r3) as [s'|] eqn:Er; cbn [bind] in Hd;
      [|discriminate].
    injection Hd as <-. apply (Hshort r3 s'); [cbn; lia|exact Er].
Qed.

(** A name comes back unchanged only if it is ASCII. *)
Lemma read_back_name_same name :
  read_back_name name = Ok name -> ascii_str name = true.
Proof.
  unfold read_back_name, name_bytes. intros H.
  destruct (utf8_encode name) as [bs|e] eqn:E.
  - apply utf8_encode_length in E.
    destruct (utf8_decode_count _ _ _ (Nat.le_refl _) H) as [Hl Ha].
    apply Ha. rewrite length_firstn in *. lia.
  - rewrite utf8_decode_nil in H. inversion H. reflexivity.
Qed.

Lemma read_back_name_iff name :
  read_back_name name = Ok name <-> ascii_str name = true.
Proof.
  split; [apply read_back_name_same | apply read_back_name_ascii].
Qed.

(** The encoding of a name has one byte per character exactly when the
    name is ASCII. *)
Lemma utf8_length_iff name bs :
  utf8_encode name = Ok bs ->
  (len bs = len name <-> ascii_str name = true).
Proof.
  revert bs. induction name as [|c name IH]; intros bs H.
  - inversion H. split; reflexivity.
  - rewrite utf8_encode_cons in H.
    destruct (utf8_encode_char c) as [b1|] eqn:E1; cbn [bind] in H;
      [|discriminate].
    destruct (utf8_encode name) as [b2|] eqn:E2; cbn [bind] in H;
      [|discriminate].
    inversion H; subst bs. specialize (IH b2 eq_refl).
    pose proof (utf8_encode_length _ _ E2) as Hl2.
    rewrite len_app, len_cons. cbn [ascii_str forallb].
    unfold ascii_str in IH. unfold len in *.
    unfold utf8_encode_char in E1.
    destruct ((0 <=? c) && (c <? 128)) eqn:Ec.
    + inversion E1; subst b1. cbn [length andb]. rewrite <- IH. lia.
    + cbn [andb]. split; [|discriminate]. intros Heq. exfalso.
      repeat match type of E1 with
        | (if ?b then _ else _) = _ => destruct b
        end; inversion E1; subst b1; cbn [length] in Heq; lia.
Qed.

(** *** The names of a sprite *)

Lemma mapM_layers_ascii ls :
  forallb ascii_str (map layer_name ls) = true ->
  mapM read_back_layer ls = Ok ls.
Proof.
  induction ls as [|l ls IH]; intros H; [reflexivity|].
  cbn [map forallb] in H. apply andb_prop in H. destruct H as [Hl H].
  cbn [mapM]. unfold read_back_layer at 1.
  rewrite read_back_name_ascii by assumption. cbn [bind].
  rewrite IH by assumption. now destruct l.
Qed.

Lemma mapM_tags_ascii ts :
  forallb ascii_str (map tag_name ts) = true ->
  mapM read_back_tag ts = Ok ts.
Proof.
  induction ts as [|t ts IH]; intros H; [reflexivity|].
  cbn [map forallb] in H. apply andb_prop in H. destruct H as [Ht H].
  cbn [mapM]. unfold read_back_tag at 1.
  rewrite read_back_name_ascii by assumption. cbn [bind].
  rewrite IH by assumption. now destruct t.
Qed.

Lemma mapM_layers_same ls :
  forall ls',
    mapM read_back_layer ls = Ok ls' ->
    map layer_name ls' = map layer_name ls ->
    forallb ascii_str (map layer_name ls) = true.
Proof.
  induction ls as [|l ls IH]; intros ls' Hm Hn; [reflexivity|].
  cbn [mapM] in Hm. unfold read_back_layer at 1 in Hm.
  destruct (read_back_name (layer_name l)) as [nm|] eqn:En; cbn [bind] in Hm;
    [|discriminate].
  destruct (mapM read_back_layer ls) as [ls0|] eqn:El; cbn [bind] in Hm;
    [|discriminate].
  injection Hm as <-. cbn [map layer_name] in Hn.
  injection Hn as Hnm Hrest. subst nm.
  cbn [map forallb]. rewrite (read_back_name_same _ En).
  now rewrite (IH ls0 eq_refl Hrest).
Qed.

Lemma mapM_tags_same ts :
  forall ts',
    mapM read_back_tag ts = Ok ts' ->
    map tag_name ts' = map tag_name ts ->
    forallb ascii_str (map tag_name ts) = true.
Proof.
  induction ts as [|t ts IH]; intros ts' Hm Hn; [reflexivity|].
  cbn [mapM] in Hm. unfold read_back_tag at 1 in Hm.
  destruct (read_back_name (tag_name t)) as [nm|] eqn:En; cbn [bind] in Hm;
    [|discriminate].
  destruct (mapM read_back_tag ts) as [ts0|] eqn:El; cbn [bind] in Hm;
    [|discriminate].
  injection Hm as <-. cbn [map tag_name] in Hn.
  injection Hn as Hnm Hrest. subst nm.
  cbn [map forallb]. rewrite (read_back_name_same _ En).
  now rewrite (IH ts0 eq_refl Hrest).
Qed.

Lemma read_back_ascii name s :
  frames s <> [] ->
  ascii_names s = true ->
  read_back name s = Ok (normal_form name s).
Proof.
  intros Hf Ha. unfold ascii_names, layer_names, tag_names in Ha.
  apply andb_prop in Ha. destruct Ha as [Hl Ht].
  unfold read_back, normal_form.
  destruct (frames s) as [|f fs]; [congruence|].
  rewrite (mapM_layers_ascii _ Hl).
  destruct (tags s) as [ts|]; cbn [opt_list] in *.
  - now rewrite (mapM_tags_ascii _ Ht).
  - reflexivity.
Qed.

(** With at least one frame, the names come back unchanged exactly when
    all of them are ASCII. *)
Lemma read_back_names name s :
  frames s <> [] ->
  ((exists s1, read_back name s = Ok s1
               /\ layer_names s1 = layer_names s
               /\ tag_names s1 = tag_names s)
   <-> ascii_names s = true).
Proof.
  intros Hf. split.
  - intros (s1 & Hr & Hl & Ht). unfold read_back in Hr.
    destruct (frames s) as [|f fs]; [congruence|].
    unfold ascii_names, layer_names, tag_names in *.
    destruct (mapM read_back_layer (opt_list (layers s))) as [ls|] eqn:El.
    2:{ destruct (match tags s with Some _ => _ | None => _ end);
          discriminate. }
    destruct (tags s) as [ts|] eqn:Et.
    + destruct (mapM read_back_tag ts) as [ts'|] eqn:Em; [|discriminate].
      cbn [bind] in Hr. injection Hr as <-. cbn [layers tags opt_list] in *.
      rewrite (mapM_layers_same _ _ El Hl).
      now rewrite (mapM_tags_same _ _ Em Ht).
    + cbn [bind] in Hr. injection Hr as <-. cbn [layers tags opt_list] in *.
      now rewrite (mapM_layers_same _ _ El Hl).
  - intros Ha. exists (normal_form name s).
    split; [now apply read_back_ascii|].
    unfold layer_names, tag_names, normal_form. cbn [layers tags opt_list].
    split; reflexivity.
Qed.

(* ===================================================================== *)
(** ** The properties of the specification *)
(* ===================================================================== *)

(** *** Encoding twice *)

Lemma write_needs_palette zlib_compress s :
  palette s = None -> write_aseprite_file zlib_compress s = Raise KeyError.
Proof.
  intros H. unfold write_aseprite_file, write_buffer. now rewrite H.
Qed.

(** C1 (fails on the code).  The sprite read back from the encoding of an
    rgba sprite has no palette, and encoding it a second time raises
    KeyError: decode(encode(decode(encode(s)))) does not exist, so it is
    not equal to decode(encode(s)). *)
Theorem rgba_second_encode_fails :
  exists bytes s1,
    write_aseprite_file Stored.compress Samples.rgba_sprite = Ok bytes
    /\ read_aseprite_file Stored.decompress [] bytes = Ok s1
    /\ write_aseprite_file Stored.compress s1 = Raise KeyError.
Proof.
  destruct (read_after_write Stored.compress Stored.decompress
              StoredFacts.decompress_compress [] Samples.rgba_sprite
              eq_refl eq_refl) as (bytes & Hw & _ & Hr).
  exists bytes. eexists. split; [exact Hw|]. split; [exact Hr|].
  apply write_needs_palette. reflexivity.
Qed.


(** *** The palette *)

(** C2 (counterexample).  A colour written with alpha 4 is read back with
    alpha 255. *)
Lemma alpha_not_kept :
  exists bytes s1,
    write_aseprite_file Stored.compress Samples.alpha_sprite = Ok bytes
    /\ read_aseprite_file Stored.decompress [] bytes = Ok s1
    /\ palette Samples.alpha_sprite = Some [(1, 2, 3, 4)]
    /\ palette s1 = Some [(1, 2, 3, 255)].
Proof.
  destruct (read_after_write Stored.compress Stored.decompress
              StoredFacts.decompress_compress [] Samples.alpha_sprite
              eq_refl eq_refl) as (bytes & Hw & _ & Hr).
  exists bytes. eexists. split; [exact Hw|]. split; [exact Hr|].
  split; reflexivity.
Qed.

(** C2 (amended).  For every valid indexed sprite with at least one frame
    and ASCII names whose output fits the buffer, encoding then decoding
    succeeds and yields a palette with as many entries, in the same order,
    with the same r, g and b; the alpha of every entry read back is 255. *)
Theorem palette_round_trip zc zd name s pal :
  (forall bs, zd (zc bs) = Ok bs) ->
  sprite_valid s = true ->
  fits zc s = true ->
  indexed s = true ->
  frames s <> [] ->
  ascii_names s = true ->
  palette s = Some pal ->
  exists bytes s1,
    write_aseprite_file zc s = Ok bytes
    /\ read_aseprite_file zd name bytes = Ok s1
    /\ palette s1 = Some (map read_back_color pal)
    /\ length (map read_back_color pal) = length pal.
Proof.
  intros Hz Hv Hfit Hi Hf Ha Hp.
  destruct (read_after_write zc zd Hz name s Hv Hfit) as (bytes & Hw & _ & Hr).
  exists bytes, (normal_form name s).
  split; [exact Hw|]. split.
  - rewrite Hr. now apply read_back_ascii.
  - unfold normal_form. cbn [palette]. rewrite Hi, Hp. cbn [opt_list].
    split; [reflexivity|apply length_map].
Qed.

Lemma palette_round_trip_witness :
  exists bytes s1,
    write_aseprite_file Stored.compress Samples.small_sprite = Ok bytes
    /\ read_aseprite_file Stored.decompress [] bytes = Ok s1
    /\ palette s1
       = Some (map read_back_color [(0, 0, 0, 255); (255, 255, 255, 255)])
    /\ length (map read_back_color [(0, 0, 0, 255); (255, 255, 255, 255)])
       = length [(0, 0, 0, 255); (255, 255, 255, 255)].
Proof.
  apply (palette_round_trip Stored.compress Stored.decompress []
           Samples.small_sprite [(0, 0, 0, 255); (255, 255, 255, 255)]
           StoredFacts.decompress_compress).
  - reflexivity.
  - reflexivity.
  - reflexivity.
  - discriminate.
  - reflexivity.
  - reflexivity.
Defined.

(** *** The chunk count of a frame *)

(** C3 (fails on the code).  The frame record of the sample announces two
    chunks in its 32-bit new-chunk-count field and one in the old 16-bit
    field; the reader takes its count from the byte at offset 10 of the
    record, finds 0 there, falls back on the old field and parses one chunk
    where the claim calls for two. *)
Theorem new_chunk_count_ignored :
  unpack "IHHHBBI" (pyslice Samples.two_counts_file 128 144)
  = Ok [64; 0xF1FA; 1; 100; 0; 0; 2]
  /\ frame_chunks [64; 0xF1FA; 1; 100; 0; 0; 2] = 1
  /\ exists s1 f,
       read_aseprite_file Stored.decompress [] Samples.two_counts_file = Ok s1
       /\ frames s1 = [f]
       /\ map cel_layer (cels f) = [0].
Proof.
  split; [vm_compute; reflexivity|]. split; [reflexivity|].
  eexists. eexists. split; [vm_compute; reflexivity|]. split; reflexivity.
Qed.

(** *** Cel types *)

Lemma read_chunk_at zd c pre r sprite frame :
  chunk_ok c = true ->
  read_chunk zd (pre ++ chunk_bytes c ++ r) (sprite, frame, len pre)
  = ('(sprite, frame) <- apply_chunk zd c (sprite, frame) ;;
     Ok (sprite, frame, len pre + len (chunk_bytes c))).
Proof.
  intros Hok. apply read_chunk_spec with (r := r); [assumption|].
  now exists pre.
Qed.

(** C4 (counterexample).  A well-formed file whose only cel has type 3 is
    decoded without error, and the cel is in the frame with its four common
    keys only. *)
Lemma odd_cel_kept :
  file_ok Samples.odd_cel_file = true
  /\ exists s1,
       read_aseprite_file Stored.decompress []
         (file_bytes Samples.odd_cel_file) = Ok s1
       /\ frames s1 = [mkFrame 100 [mkCel 0 5 6 255 None None None None]].
Proof.
  split; [reflexivity|]. eexists. split; [vm_compute; reflexivity|].
  reflexivity.
Qed.

(** C4 (amended).  For every cel chunk whose type is not 0, 1 or 2, the
    reader raises nothing: it appends a cel that has the layer, x, y and
    opacity of the chunk and no width, height, pixels or link, and goes on
    at the end of the chunk. *)
Theorem unknown_cel_type_appended zd pre r sprite frame layer x y opacity gap t
    rest :
  chunk_ok (CCel layer x y opacity gap (BOther t rest)) = true ->
  read_chunk zd
    (pre ++ chunk_bytes (CCel layer x y opacity gap (BOther t rest)) ++ r)
    (sprite, frame, len pre)
  = Ok (sprite,
        add_cel frame (mkCel layer x y opacity None None None None),
        len pre
        + len (chunk_bytes (CCel layer x y opacity gap (BOther t rest)))).
Proof.
  intros Hok. now rewrite read_chunk_at.
Qed.

Lemma unknown_cel_type_appended_witness :
  read_chunk Stored.decompress
    ([] ++ chunk_bytes Samples.odd_cel ++ [])
    (Samples.rgba_sprite, mkFrame 100 [], len (@nil byte))
  = Ok (Samples.rgba_sprite,
        add_cel (mkFrame 100 []) (mkCel 0 5 6 255 None None None None),
        len (@nil byte) + len (chunk_bytes Samples.odd_cel)).
Proof.
  apply (unknown_cel_type_appended Stored.decompress [] []
           Samples.rgba_sprite (mkFrame 100 []) 0 5 6 255 (zeros 7) 3
           [Byte.x01; Byte.x02]).
  reflexivity.
Defined.

(** *** Compressed cels *)

(** C6 (counterexample).  A well-formed indexed file with a 2x2 compressed
    cel whose payload decompresses to one byte is decoded without error,
    and the cel holds one pixel byte where 2*2*1 are called for. *)
Lemma short_pixels_accepted :
  file_ok Samples.short_cel_file = true
  /\ exists s1,
       read_aseprite_file Stored.decompress []
         (file_bytes Samples.short_cel_file) = Ok s1
       /\ indexed s1 = true
       /\ frames s1
          = [mkFrame 100 [mkCel 0 0 0 255 None (Some 2) (Some 2)
                            (Some [Byte.x07])]].
Proof.
  split; [reflexivity|]. eexists. split; [vm_compute; reflexivity|].
  split; reflexivity.
Qed.

(** C6 (amended).  For every compressed cel chunk the reader stores as
    pixels exactly what zlib.decompress returns for the bytes that follow
    the width and height up to the end of the chunk, whatever their number,
    and raises what zlib.decompress raises; it makes no comparison with
    width * height * bytes per pixel. *)
Theorem compressed_cel_unchecked zd pre r sprite frame layer x y opacity gap w h
    z :
  chunk_ok (CCel layer x y opacity gap (BCompressed w h z)) = true ->
  read_chunk zd
    (pre ++ chunk_bytes (CCel layer x y opacity gap (BCompressed w h z)) ++ r)
    (sprite, frame, len pre)
  = (px <- zd z ;;
     Ok (sprite,
         add_cel frame (mkCel layer x y opacity None (Some w) (Some h) (Some px)),
         len pre
         + len (chunk_bytes (CCel layer x y opacity gap (BCompressed w h z))))).
Proof.
  intros Hok. rewrite read_chunk_at by assumption.
  cbn [apply_chunk apply_cel_body]. destruct (zd z); reflexivity.
Qed.

Lemma compressed_cel_unchecked_witness :
  read_chunk Stored.decompress
    ([] ++ chunk_bytes Samples.short_cel ++ [])
    (Samples.rgba_sprite, mkFrame 100 [], len (@nil byte))
  = (px <- Stored.decompress (Stored.compress [Byte.x07]) ;;
     Ok (Samples.rgba_sprite,
         add_cel (mkFrame 100 [])
           (mkCel 0 0 0 255 None (Some 2) (Some 2) (Some px)),
         len (@nil byte) + len (chunk_bytes Samples.short_cel))).
Proof.
  apply (compressed_cel_unchecked Stored.decompress [] []
           Samples.rgba_sprite (mkFrame 100 []) 0 0 0 255 (zeros 7) 2 2
           (Stored.compress [Byte.x07])).
  reflexivity.
Defined.

(** *** Magic numbers *)

Lemma read_frames_add zd data n m st :
  read_frames zd data (n + m) st
  = (st <- read_frames zd data n st ;; read_frames zd data m st).
Proof.
  revert st. induction n as [|n IH]; intros st; [reflexivity|].
  cbn [Nat.add read_frames].
  destruct (read_frame zd data st); cbn [bind]; [apply IH|reflexivity].
Qed.

Lemma read_frame_bad_magic zd data sprite p sz magic old dur b1 b2 nw r :
  suffix_at data p (packed "=IHHHBBI" [sz; magic; old; dur; b1; b2; nw] ++ r) ->
  args_ok [fI; fH; fH; fH; fB; fB; fI] [sz; magic; old; dur; b1; b2; nw] = true ->
  magic <> 0xF1FA ->
  read_frame zd data (sprite, p) = Raise AssertionError.
Proof.
  intros Hs Ha Hm. unfold read_frame.
  rewrite (slice_at _ _ _ _ 16 Hs)
    by (symmetry; eapply len_packed; [reflexivity|eassumption|reflexivity]).
  unpack_packed_tac "IHHHBBI"%string "=IHHHBBI"%string.
  cbn [bind item nth]. apply Z.eqb_neq in Hm. now rewrite Hm.
Qed.

Lemma with_magic_ok f magic :
  file_ok f = true ->
  in_range fH magic = true ->
  file_ok (with_magic f magic) = true
  /\ forall name,
       init_sprite name (w_header (with_magic f magic))
       = init_sprite name (w_header f).
Proof.
  intros Hok Hm. unfold file_ok in Hok.
  apply andb_prop in Hok. destruct Hok as [Hok Hfs].
  apply andb_prop in Hok. destruct Hok as [Hok Hg].
  apply andb_prop in Hok. destruct Hok as [Ha Hn].
  unfold file_ok, with_magic. cbn [w_header w_gap w_frames].
  destruct (w_header f) as [|size [|m fields]];
    [discriminate Ha
    |cbn in Ha; rewrite andb_false_r in Ha; discriminate Ha|].
  split; [|reflexivity].
  rewrite Hfs, Hg. change (item (size :: magic :: fields) 2)
    with (item (size :: m :: fields) 2). rewrite Hn.
  unfold HEADER_CODES in *. cbn [args_ok] in *.
  apply andb_prop in Ha. destruct Ha as [Hs Ha].
  apply andb_prop in Ha. destruct Ha as [_ Ha].
  now rewrite Hs, Hm, Ha.
Qed.

(** C5 (counterexample).  A file whose magic number is 0 is decoded
    without error. *)
Lemma wrong_file_magic_accepted :
  item (w_header Samples.no_magic_file) 1 = 0
  /\ read_aseprite_file Stored.decompress []
       (file_bytes Samples.no_magic_file)
     = Ok (mkSprite [] 1 1 0 [] (Some []) 100 false None None).
Proof.
  split; [reflexivity|]. vm_compute. reflexivity.
Qed.

(** C5 (amended).  The reader does not look at the magic number of the
    file header: a well-formed file is decoded to the same result whatever
    that field holds.  When the frames before it are decoded, a frame
    record whose magic number is not 0xF1FA makes the reader raise
    AssertionError. *)
Theorem magic_numbers zd name :
  (forall f magic,
      file_ok f = true ->
      in_range fH magic = true ->
      read_aseprite_file zd name (file_bytes (with_magic f magic))
      = read_aseprite_file zd name (file_bytes f))
  /\ (forall header gap fs sz magic old dur b1 b2 nw rest,
         args_ok HEADER_CODES header = true ->
         length gap = 92%nat ->
         forallb frame_ok fs = true ->
         len fs < item header 2 ->
         args_ok [fI; fH; fH; fH; fB; fB; fI] [sz; magic; old; dur; b1; b2; nw]
         = true ->
         magic <> 0xF1FA ->
         read_aseprite_file zd name
           (packed "=IHHHHHIHIIB3BHBB" header ++ gap
              ++ concat (map frame_bytes fs)
              ++ packed "=IHHHBBI" [sz; magic; old; dur; b1; b2; nw] ++ rest)
         = (sprite <- apply_frames zd fs (init_sprite name header) ;;
            Raise AssertionError)).
Proof.
  split.
  - intros f magic Hok Hm.
    destruct (with_magic_ok f magic Hok Hm) as (Hok' & Hi).
    rewrite !read_file_spec by assumption. now rewrite Hi.
  - intros header gap fs sz magic old dur b1 b2 nw rest Hh Hg Hfs Hn Ha Hm.
    assert (Hl : len (packed "=IHHHHHIHIIB3BHBB" header) = 36)
      by (eapply len_packed; [reflexivity | eassumption | reflexivity]).
    assert (Hl2 : len gap = 92) by (unfold len; now rewrite Hg).
    set (bad := packed "=IHHHBBI" [sz; magic; old; dur; b1; b2; nw]) in *.
    set (data := packed "=IHHHHHIHIIB3BHBB" header ++ gap
                   ++ concat (map frame_bytes fs) ++ bad ++ rest).
    assert (Hs : suffix_at data 0
              (packed "=IHHHHHIHIIB3BHBB" header ++ gap
                 ++ concat (map frame_bytes fs) ++ bad ++ rest))
      by apply suffix_at_start.
    unfold read_aseprite_file.
    rewrite (slice_to _ 0 _ _ 36 Hs) by (now rewrite Hl).
    unpack_packed_tac "=IHHHHHIHIIB3BHBB"%string "=IHHHHHIHIIB3BHBB"%string.
    cbn [bind].
    assert (Hs1 := suffix_at_skip2 _ _ _ _ _ 128 Hs ltac:(lia)).
    change (0 + 128) with 128 in Hs1.
    replace (Z.to_nat (item header 2))
      with (length fs + S (Z.to_nat (item header 2) - S (length fs)))%nat
      by (unfold len in Hn; lia).
    rewrite read_frames_add.
    rewrite (read_frames_spec zd data fs _ _ _ Hfs Hs1).
    fold (init_sprite name header).
    destruct (apply_frames zd fs (init_sprite name header)) as [sp|e];
      cbn [bind]; [|reflexivity].
    assert (Hs2 := suffix_at_skip _ _ _ _ _ Hs1 eq_refl).
    cbn [read_frames].
    now rewrite (read_frame_bad_magic zd data sp _ sz magic old dur b1 b2 nw
                   rest Hs2 Ha Hm).
Qed.

Lemma magic_numbers_witness :
  read_aseprite_file Stored.decompress []
    (file_bytes (with_magic Samples.odd_cel_file 7))
  = read_aseprite_file Stored.decompress [] (file_bytes Samples.odd_cel_file)
  /\ read_aseprite_file Stored.decompress []
       (packed "=IHHHHHIHIIB3BHBB" (Samples.header 0xA5E0 1 32) ++ zeros 92
          ++ concat (map frame_bytes [])
          ++ packed "=IHHHBBI" [16; 0xF1FB; 0; 100; 0; 0; 0] ++ [])
     = (sprite <- apply_frames Stored.decompress []
                    (init_sprite [] (Samples.header 0xA5E0 1 32)) ;;
        Raise AssertionError).
Proof.
  split.
  - apply (proj1 (magic_numbers Stored.decompress [])); reflexivity.
  - apply (proj2 (magic_numbers Stored.decompress [])
             (Samples.header 0xA5E0 1 32) (zeros 92) [] 16 0xF1FB 0 100 0 0 0 []).
    + reflexivity.
    + reflexivity.
    + reflexivity.
    + reflexivity.
    + reflexivity.
    + discriminate.
Defined.

(** *** Truncated buffers *)

Lemma unpack_truncated fmt native fs data p n :
  parse_fmt fmt = Some (native, fs) ->
  n = Z.of_nat (calcsize native fs) ->
  0 < n ->
  0 <= p ->
  len data < p + n ->
  unpack fmt (pyslice data p (p + n)) = Raise struct_error.
Proof.
  intros Hp -> Hn H0 Hl. apply (unpack_short _ _ _ _ Hp).
  pose proof (pyslice_length data p (Z.of_nat (calcsize native fs)) H0
                ltac:(lia)) as Hs.
  unfold len in *. lia.
Qed.

(** C7 (counterexample).  The file written for a sprite whose last chunk is
    the layer "bg", cut one byte short, is decoded without error; the layer
    comes out named "b". *)
Lemma truncated_name_accepted :
  exists bytes s1,
    write_aseprite_file Stored.compress Samples.layer_sprite = Ok bytes
    /\ read_aseprite_file Stored.decompress [] (removelast bytes) = Ok s1
    /\ layers s1 = Some [mkLayer 1 0 0 0 255 [98]].
Proof.
  eexists. eexists. split; [vm_compute; reflexivity|].
  split; [vm_compute; reflexivity|reflexivity].
Qed.

(** C7 (amended).  A buffer that ends inside the 36 header bytes read, a
    16-byte frame record or a 6-byte chunk record makes the reader raise
    struct.error.  The end of a chunk is the cursor plus the size the chunk
    declares, whatever the length of the buffer: for a chunk of a type
    without a handler the reader continues there without any check. *)
Theorem truncation zd :
  (forall name data,
      len data < 36 ->
      read_aseprite_file zd name data = Raise struct_error)
  /\ (forall data sprite p,
         0 <= p -> len data < p + 16 ->
         read_frame zd data (sprite, p) = Raise struct_error)
  /\ (forall data sprite frame p,
         0 <= p -> len data < p + 6 ->
         read_chunk zd data (sprite, frame, p) = Raise struct_error)
  /\ (forall data sprite frame p t,
         unpack "=IH" (pyslice data p (p + 6)) = Ok t ->
         (item t 1 =? PALETTE) = false ->
         (item t 1 =? LAYER) = false ->
         (item t 1 =? TAGS) = false ->
         (item t 1 =? CEL) = false ->
         read_chunk zd data (sprite, frame, p) = Ok (sprite, frame, p + item t 0)).
Proof.
  repeat split.
  - intros name data Hl. unfold read_aseprite_file.
    change 36 with (0 + 36) at 1.
    now rewrite (unpack_truncated "=IHHHHHIHIIB3BHBB" false HEADER_CODES data 0 36
                   eq_refl eq_refl eq_refl).
  - intros data sprite p Hp Hl. unfold read_frame.
    now rewrite (unpack_truncated "IHHHBBI" true
                   [fI; fH; fH; fH; fB; fB; fI] data p 16 eq_refl eq_refl
                   eq_refl).
  - intros data sprite frame p Hp Hl. unfold read_chunk.
    now rewrite (unpack_truncated "=IH" false [fI; fH] data p 6 eq_refl eq_refl
                   eq_refl).
  - intros data sprite frame p t Hu H1 H2 H3 H4. unfold read_chunk.
    rewrite Hu. cbn [bind]. now rewrite H1, H2, H3, H4.
Qed.

Lemma truncation_witness :
  read_aseprite_file Stored.decompress [] [Byte.xe0; Byte.xa5]
  = Raise struct_error
  /\ read_frame Stored.decompress [Byte.xfa; Byte.xf1] (Samples.rgba_sprite, 0)
     = Raise struct_error
  /\ read_chunk Stored.decompress [Byte.x10; Byte.x00]
       (Samples.rgba_sprite, mkFrame 100 [], 0)
     = Raise struct_error
  /\ read_chunk Stored.decompress
       [Byte.xff; Byte.x00; Byte.x00; Byte.x00; Byte.x20; Byte.x20]
       (Samples.rgba_sprite, mkFrame 100 [], 0)
     = Ok (Samples.rgba_sprite, mkFrame 100 [], 0 + item [255; 0x2020] 0).
Proof.
  destruct (truncation Stored.decompress) as (H1 & H2 & H3 & H4).
  split; [|split; [|split]].
  - apply H1. reflexivity.
  - apply H2; [lia|reflexivity].
  - apply H3; [lia|reflexivity].
  - apply H4; reflexivity.
Defined.

(** *** Chunks without a handler *)

Lemma file_ok_single h g fr :
  file_ok (mkWFile h g [fr])
  = args_ok HEADER_CODES h && (item h 2 =? 1)
    && (length g =? 92)%nat && frame_ok fr.
Proof.
  unfold file_ok. cbn [w_header w_gap w_frames forallb].
  now rewrite andb_true_r.
Qed.

Lemma frame_ok_fields sz dur cs :
  frame_ok (mkWFrame sz dur cs)
  = in_range fI sz && in_range fH (len cs) && in_range fH dur
    && forallb chunk_ok cs.
Proof.
  unfold frame_ok. cbn [wf_size wf_duration wf_chunks args_ok].
  change (in_range fH 61946) with true. change (in_range fB 0) with true.
  change (in_range fI 0) with true.
  cbn [andb]. rewrite !andb_true_r. now rewrite !andb_assoc.
Qed.

(** Dropping the USER chunk of a well-formed file leaves it well formed. *)
Lemma file_ok_without_user header gap sz sz' dur first last pgap es payload
    layer x y opacity cgap body :
  file_ok
    (mkWFile header gap
       [mkWFrame sz dur
          [CPalette first last pgap es; COther USER payload;
           CCel layer x y opacity cgap body]]) = true ->
  in_range fI sz' = true ->
  file_ok
    (mkWFile header gap
       [mkWFrame sz' dur
          [CPalette first last pgap es;
           CCel layer x y opacity cgap body]]) = true.
Proof.
  intros Hok Hsz.
  rewrite file_ok_single in *.
  apply andb_prop in Hok. destruct Hok as [Hok Hfr].
  rewrite Hok.
  rewrite frame_ok_fields in *.
  apply andb_prop in Hfr. destruct Hfr as [Hrec Hch].
  apply andb_prop in Hrec. destruct Hrec as [_ Hdur].
  rewrite Hsz, Hdur.
  assert (Hch2 : forallb chunk_ok
                   [CPalette first last pgap es;
                    CCel layer x y opacity cgap body] = true).
  { apply forallb_forall. intros c Hin.
    apply (proj1 (forallb_forall _ _) Hch).
    destruct Hin as [<-|[<-|[]]]; [left|right; right; left]; reflexivity. }
  rewrite Hch2. reflexivity.
Qed.

(** C8.  A frame made of a PALETTE chunk, a USER chunk with any payload and
    a CEL chunk is decoded, and to the same sprite as the frame without the
    USER chunk: its palette and its cel are those of the two chunks.  More
    generally a chunk of any type other than PALETTE, LAYER, TAGS and CEL
    changes nothing and raises nothing, and the reader continues at the end
    the chunk declares. *)
Theorem unknown_chunk_skipped zd name :
  (forall header gap sz sz' dur first last pgap es payload layer x y opacity
          cgap body cel,
      file_ok
        (mkWFile header gap
           [mkWFrame sz dur
              [CPalette first last pgap es; COther USER payload;
               CCel layer x y opacity cgap body]]) = true ->
      in_range fI sz' = true ->
      apply_cel_body zd layer x y opacity body = Ok cel ->
      read_aseprite_file zd name
        (file_bytes
           (mkWFile header gap
              [mkWFrame sz dur
                 [CPalette first last pgap es; COther USER payload;
                  CCel layer x y opacity cgap body]]))
      = Ok (mkSprite name (item header 3) (item header 4) (item header 10)
              [mkFrame dur [cel]] (Some []) (item header 7)
              (item header 5 =? 8) (Some (map snd es)) None)
      /\ read_aseprite_file zd name
           (file_bytes
              (mkWFile header gap
                 [mkWFrame sz' dur
                    [CPalette first last pgap es;
                     CCel layer x y opacity cgap body]]))
         = Ok (mkSprite name (item header 3) (item header 4) (item header 10)
                 [mkFrame dur [cel]] (Some []) (item header 7)
                 (item header 5 =? 8) (Some (map snd es)) None))
  /\ (forall pre r sprite frame t payload,
         chunk_ok (COther t payload) = true ->
         read_chunk zd (pre ++ chunk_bytes (COther t payload) ++ r)
           (sprite, frame, len pre)
         = Ok (sprite, frame, len pre + len (chunk_bytes (COther t payload)))).
Proof.
  split.
  - intros header gap sz sz' dur first last pgap es payload layer x y opacity
      cgap body cel Hok Hsz Hcel.
    pose proof (file_ok_without_user header gap sz sz' dur first last pgap
                  es payload layer x y opacity cgap body Hok Hsz) as Hok2.
    rewrite !read_file_spec by assumption.
    cbn [w_frames w_header apply_frames]. unfold apply_frame.
    cbn [wf_chunks wf_duration apply_chunks apply_chunk bind].
    rewrite Hcel. split; reflexivity.
  - intros pre r sprite frame t payload Hok. now rewrite read_chunk_at.
Qed.

Lemma unknown_chunk_skipped_witness :
  (read_aseprite_file Stored.decompress []
     (file_bytes
        (mkWFile (Samples.header 0xA5E0 1 8) (zeros 92)
           [mkWFrame 90 100
              [CPalette 0 1 (zeros 8)
                 [(0, (0, 0, 0, 255)); (0, (255, 255, 255, 255))];
               COther USER [Byte.x2a; Byte.x2b; Byte.x2c];
               CCel 0 0 0 255 (zeros 7) (BRaw 1 1 [Byte.x01])]]))
   = Ok (mkSprite [] 1 1 0
           [mkFrame 100 [mkCel 0 0 0 255 None (Some 1) (Some 1) (Some [Byte.x01])]]
           (Some []) 100 true
           (Some [(0, 0, 0, 255); (255, 255, 255, 255)]) None)
   /\ read_aseprite_file Stored.decompress []
        (file_bytes
           (mkWFile (Samples.header 0xA5E0 1 8) (zeros 92)
              [mkWFrame 81 100
                 [CPalette 0 1 (zeros 8)
                    [(0, (0, 0, 0, 255)); (0, (255, 255, 255, 255))];
                  CCel 0 0 0 255 (zeros 7) (BRaw 1 1 [Byte.x01])]]))
      = Ok (mkSprite [] 1 1 0
              [mkFrame 100 [mkCel 0 0 0 255 None (Some 1) (Some 1) (Some [Byte.x01])]]
              (Some []) 100 true
              (Some [(0, 0, 0, 255); (255, 255, 255, 255)]) None))
  /\ read_chunk Stored.decompress
       ([] ++ chunk_bytes Samples.user_chunk ++ [])
       (Samples.rgba_sprite, mkFrame 100 [], len (@nil byte))
     = Ok (Samples.rgba_sprite, mkFrame 100 [],
           len (@nil byte) + len (chunk_bytes Samples.user_chunk)).
Proof.
  split.
  - apply (proj1 (unknown_chunk_skipped Stored.decompress [])
             (Samples.header 0xA5E0 1 8) (zeros 92) 90 81 100 0 1 (zeros 8)
             [(0, (0, 0, 0, 255)); (0, (255, 255, 255, 255))]
             [Byte.x2a; Byte.x2b; Byte.x2c] 0 0 0 255 (zeros 7)
             (BRaw 1 1 [Byte.x01])); reflexivity.
  - apply (proj2 (unknown_chunk_skipped Stored.decompress [])
             [] [] Samples.rgba_sprite (mkFrame 100 []) USER
             [Byte.x2a; Byte.x2b; Byte.x2c]).
    reflexivity.
Defined.

(** *** The palette and the writer *)

Lemma chunk_type_erase c : chunk_type_of (erase c) = chunk_type_of c.
Proof. destruct c; reflexivity. Qed.

Lemma wire_chunks_no_palette zc s f b c :
  indexed s = false ->
  In c (wire_chunks zc s f b) ->
  chunk_type_of c <> PALETTE.
Proof.
  intros Hi Hin. unfold wire_chunks, wire_first in Hin. rewrite Hi in Hin.
  assert (Hcel : In c (map (wire_cel zc) (cels f)) ->
                 chunk_type_of c <> PALETTE).
  { intros H. apply in_map_iff in H. destruct H as (x & <- & _).
    cbn. unfold CEL, PALETTE. lia. }
  apply in_app_or in Hin. destruct Hin as [Hin|Hin]; [|now apply Hcel].
  destruct b; [|contradiction].
  cbn [app] in Hin. apply in_app_or in Hin. destruct Hin as [Hin|Hin].
  - destruct (tags s) as [ts|]; [|contradiction].
    destruct Hin as [<-|[]]. cbn. unfold TAGS, PALETTE. lia.
  - apply in_map_iff in Hin. destruct Hin as (x & <- & _).
    cbn. unfold LAYER, PALETTE. lia.
Qed.

Lemma wire_frames_no_palette zc s fs b wf c :
  indexed s = false ->
  In wf (wire_frames zc s fs b) ->
  In c (wf_chunks wf) ->
  chunk_type_of c <> PALETTE.
Proof.
  intros Hi. revert b. induction fs as [|f fs IH]; intros b Hwf Hc.
  - contradiction.
  - destruct Hwf as [<-|Hwf].
    + now apply (wire_chunks_no_palette zc s f b).
    + now apply (IH false).
Qed.

(** C9.  The writer reads the palette of every sprite for the header:
    without a palette it raises KeyError, whatever the colour mode.  For a
    valid rgba sprite it writes a file whose header holds the length of the
    palette and none of whose chunks is a PALETTE chunk; for a valid indexed
    sprite with a frame, the first chunk of the first frame is the PALETTE
    chunk of the sprite's colours. *)
Theorem palette_always_read zc :
  (forall s, palette s = None -> write_aseprite_file zc s = Raise KeyError)
  /\ (forall s,
         sprite_valid s = true -> fits zc s = true -> indexed s = false ->
         exists f,
           write_aseprite_file zc s = Ok (file_bytes f)
           /\ file_ok f = true
           /\ item (w_header f) 14 = len (opt_list (palette s))
           /\ forall fr c,
                In fr (w_frames f) -> In c (wf_chunks fr) ->
                chunk_type_of c <> PALETTE)
  /\ (forall s,
         sprite_valid s = true -> fits zc s = true -> indexed s = true ->
         frames s <> [] ->
         exists f fr frs c cs,
           write_aseprite_file zc s = Ok (file_bytes f)
           /\ file_ok f = true
           /\ item (w_header f) 14 = len (opt_list (palette s))
           /\ w_frames f = fr :: frs
           /\ wf_chunks fr = c :: cs
           /\ erase c = wire_palette (opt_list (palette s))).
Proof.
  split; [|split].
  - intros s. apply write_needs_palette.
  - intros s Hv Hfit Hi.
    destruct (write_file_spec zc s Hv Hfit) as (f & Hw & Hok & Hh & Her & _).
    exists f. split; [exact Hw|]. split; [exact Hok|]. split.
    + rewrite Hh. reflexivity.
    + intros fr c Hfr Hc. rewrite <- chunk_type_erase.
      apply (wire_frames_no_palette zc s (frames s) true (erase_frame fr));
        [exact Hi| |].
      * rewrite <- Her. now apply in_map.
      * cbn [erase_frame wf_chunks]. now apply in_map.
  - intros s Hv Hfit Hi Hf.
    destruct (write_file_spec zc s Hv Hfit) as (f & Hw & Hok & Hh & Her & _).
    destruct (frames s) as [|f0 fs0]; [congruence|].
    cbn [wire_frames] in Her.
    destruct (w_frames f) as [|fr frs] eqn:Efr; [discriminate|].
    cbn [map] in Her. injection Her as _ _ Hcs _.
    unfold wire_chunks, wire_first in Hcs. rewrite Hi in Hcs.
    cbn [app] in Hcs.
    destruct (wf_chunks fr) as [|c cs] eqn:Ecs; [discriminate|].
    cbn [map] in Hcs. injection Hcs as Hc _.
    exists f, fr, frs, c, cs.
    split; [exact Hw|]. split; [exact Hok|]. split; [now rewrite Hh|].
    split; [exact Efr|]. split; [exact Ecs|exact Hc].
Qed.

Lemma palette_always_read_witness :
  write_aseprite_file Stored.compress
    (mkSprite [] 1 1 0 [mkFrame 100 []] (Some []) 100 false None None)
  = Raise KeyError
  /\ (exists f,
         write_aseprite_file Stored.compress Samples.rgba_sprite
         = Ok (file_bytes f)
         /\ file_ok f = true
         /\ item (w_header f) 14
            = len (opt_list (palette Samples.rgba_sprite))
         /\ forall fr c,
              In fr (w_frames f) -> In c (wf_chunks fr) ->
              chunk_type_of c <> PALETTE)
  /\ (exists f fr frs c cs,
         write_aseprite_file Stored.compress Samples.small_sprite
         = Ok (file_bytes f)
         /\ file_ok f = true
         /\ item (w_header f) 14
            = len (opt_list (palette Samples.small_sprite))
         /\ w_frames f = fr :: frs
         /\ wf_chunks fr = c :: cs
         /\ erase c = wire_palette (opt_list (palette Samples.small_sprite))).
Proof.
  split; [|split].
  - apply (proj1 (palette_always_read Stored.compress)). reflexivity.
  - apply (proj1 (proj2 (palette_always_read Stored.compress))).
    + vm_compute. reflexivity.
    + vm_compute. reflexivity.
    + reflexivity.
  - apply (proj2 (proj2 (palette_always_read Stored.compress))).
    + vm_compute. reflexivity.
    + vm_compute. reflexivity.
    + reflexivity.
    + discriminate.
Defined.

(** *** Names *)

(** What [write_name] leaves in the buffer: the number of characters in
    the length field, then the whole UTF-8 encoding, with the cursor moved
    past as many bytes as the name has characters. *)
Lemma write_name_bytes name cur rest :
  name_ok name = true ->
  2 + len name <= len rest ->
  exists bs rest',
    utf8_encode name = Ok bs
    /\ write_name name (cur ++ rest) (len cur)
       = Ok (cur ++ packed "=H" [len name] ++ bs ++ rest',
             len cur + 2 + len name).
Proof.
  intros Hok Hroom. unfold name_ok in Hok. apply andb_prop in Hok.
  destruct Hok as [Hr Henc].
  pose proof (len_nonneg name) as Hnn.
  assert (Ha : args_ok [fH] [len name] = true) by (now apply args_ok1).
  destruct (utf8_encode name) as [bs|] eqn:E; [|discriminate].
  unfold write_name.
  destruct (pack_exact "=H" [fH] [len name] cur rest eq_refl Ha ltac:(cbn; lia))
    as (rest1 & Hp & Hl & Hr1).
  rewrite Hp. cbn [bind]. rewrite E. cbn [bind].
  change (Z.of_nat (calcsize false [fH])) with 2 in *.
  assert (Hc : len cur + 2 = len (cur ++ packed "=H" [len name])).
  { rewrite len_app.
    now rewrite (len_packed "=H" [fH] _ 2 eq_refl Ha eq_refl). }
  rewrite Hc. rewrite pyslice_assign_at by lia.
  exists bs, (skipn (Z.to_nat (len name)) rest1).
  split; [reflexivity|]. rewrite <- Hc.
  f_equal. f_equal.
  now rewrite <- !app_assoc.
Qed.

(** C10.  [write_name] stores the number of characters of the name in the
    length field and the UTF-8 encoding of the name after it, and moves the
    cursor by the number of characters; the encoding has as many bytes as
    the name has characters exactly when the name is ASCII, and more
    otherwise.  For a valid sprite with a frame, the layer names and the tag
    names read from the written file are those of the sprite exactly when
    all of them are ASCII. *)
Theorem names_survive_iff_ascii zc zd :
  (forall bs, zd (zc bs) = Ok bs) ->
  (forall name cur rest,
      name_ok name = true ->
      2 + len name <= len rest ->
      exists bs rest',
        utf8_encode name = Ok bs
        /\ write_name name (cur ++ rest) (len cur)
           = Ok (cur ++ packed "=H" [len name] ++ bs ++ rest',
                 len cur + 2 + len name)
        /\ (len bs = len name <-> ascii_str name = true)
        /\ (ascii_str name = false -> len name < len bs))
  /\ (forall name s,
         sprite_valid s = true -> fits zc s = true -> frames s <> [] ->
         ((exists bytes s1,
              write_aseprite_file zc s = Ok bytes
              /\ read_aseprite_file zd name bytes = Ok s1
              /\ layer_names s1 = layer_names s
              /\ tag_names s1 = tag_names s)
          <-> ascii_names s = true)).
Proof.
  intros Hz. split.
  - intros name cur rest Hok Hroom.
    destruct (write_name_bytes name cur rest Hok Hroom)
      as (bs & rest' & He & Hw).
    exists bs, rest'. split; [exact He|]. split; [exact Hw|].
    pose proof (utf8_length_iff name bs He) as Hiff.
    split; [exact Hiff|].
    intros Hna. pose proof (utf8_encode_length _ _ He) as Hle.
    assert (len bs <> len name).
    { intros Heq. apply Hiff in Heq. congruence. }
    unfold len in *. lia.
  - intros name s Hv Hfit Hf.
    destruct (read_after_write zc zd Hz name s Hv Hfit)
      as (bytes & Hw & _ & Hr).
    pose proof (read_back_names name s Hf) as Hiff.
    split.
    + intros (bytes' & s1 & Hw' & Hr' & Hl & Ht).
      apply Hiff. exists s1.
      rewrite Hw in Hw'. injection Hw' as <-.
      rewrite <- Hr. auto.
    + intros Ha. apply Hiff in Ha. destruct Ha as (s1 & Hrb & Hl & Ht).
      exists bytes, s1. rewrite Hr. auto.
Qed.

Lemma names_survive_iff_ascii_witness :
  (exists bs rest',
      utf8_encode [233] = Ok bs
      /\ write_name [233] ([] ++ zeros 4) (len (@nil byte))
         = Ok ([] ++ packed "=H" [len [233]] ++ bs ++ rest',
               len (@nil byte) + 2 + len [233])
      /\ (len bs = len [233] <-> ascii_str [233] = true)
      /\ (ascii_str [233] = false -> len [233] < len bs))
  /\ ((exists bytes s1,
          write_aseprite_file Stored.compress Samples.small_sprite = Ok bytes
          /\ read_aseprite_file Stored.decompress [] bytes = Ok s1
          /\ layer_names s1 = layer_names Samples.small_sprite
          /\ tag_names s1 = tag_names Samples.small_sprite)
      <-> ascii_names Samples.small_sprite = true).
Proof.
  split.
  - apply (proj1 (names_survive_iff_ascii Stored.compress Stored.decompress
                    StoredFacts.decompress_compress)).
    + reflexivity.
    + vm_compute. discriminate.
  - apply (proj2 (names_survive_iff_ascii Stored.compress Stored.decompress
                    StoredFacts.decompress_compress)).
    + vm_compute. reflexivity.
    + vm_compute. reflexivity.
    + discriminate.
Defined.

(** *** A second round trip *)

Lemma forallb_map_same {A} (f : A -> bool) (g : A -> A) (l : list A) :
  (forall x, f (g x) = f x) -> forallb f (map g l) = forallb f l.
Proof.
  intros H. induction l as [|a l IH]; [reflexivity|].
  cbn [map forallb]. now rewrite H, IH.
Qed.

Lemma wire_color_read_back c : wire_color (read_back_color c) = wire_color c.
Proof. destruct c as [[[r g] b] a]. reflexivity. Qed.

Lemma color_ok_read_back c : color_ok (read_back_color c) = color_ok c.
Proof. destruct c as [[[r g] b] a]. reflexivity. Qed.

Lemma read_back_color_idem c :
  read_back_color (read_back_color c) = read_back_color c.
Proof. destruct c as [[[r g] b] a]. reflexivity. Qed.

Lemma wire_cel_read_back zc c :
  wire_cel zc (read_back_cel c) = wire_cel zc c.
Proof.
  unfold wire_cel, wire_cel_body, read_back_cel.
  destruct (linked c); reflexivity.
Qed.

Lemma cel_valid_read_back c : cel_valid (read_back_cel c) = cel_valid c.
Proof.
  unfold cel_valid, read_back_cel. destruct (linked c); reflexivity.
Qed.

Lemma read_back_cel_idem c :
  read_back_cel (read_back_cel c) = read_back_cel c.
Proof.
  unfold read_back_cel. destruct (linked c) eqn:E; cbn; reflexivity.
Qed.

Lemma read_back_frame_idem f :
  read_back_frame (read_back_frame f) = read_back_frame f.
Proof.
  unfold read_back_frame. cbn [duration cels]. f_equal.
  rewrite map_map. apply map_ext. apply read_back_cel_idem.
Qed.

Lemma frame_valid_read_back f :
  frame_valid (read_back_frame f) = frame_valid f.
Proof.
  unfold frame_valid, read_back_frame. cbn [duration cels]. f_equal.
  apply forallb_map_same. apply cel_valid_read_back.
Qed.

Lemma wire_chunks_normal zc name s f b :
  wire_chunks zc (normal_form name s) (read_back_frame f) b
  = wire_chunks zc s f b.
Proof.
  unfold wire_chunks, wire_first, normal_form, read_back_frame.
  cbn [indexed palette tags layers cels opt_list].
  f_equal.
  - destruct b; [|reflexivity]. f_equal.
    destruct (indexed s); [|reflexivity].
    cbn [opt_list]. unfold wire_palette. rewrite len_map, map_map.
    f_equal. f_equal. apply map_ext. apply wire_color_read_back.
  - rewrite map_map. apply map_ext. apply wire_cel_read_back.
Qed.

Lemma frames_size_normal zc name s fs b :
  frames_size zc (normal_form name s) (map read_back_frame fs) b
  = frames_size zc s fs b.
Proof.
  revert b. induction fs as [|f fs IH]; intros b; [reflexivity|].
  cbn [map frames_size]. rewrite IH. unfold frame_size.
  now rewrite wire_chunks_normal.
Qed.

Lemma fits_normal zc name s : fits zc (normal_form name s) = fits zc s.
Proof.
  unfold fits, file_size. unfold normal_form at 2. cbn [frames].
  now rewrite frames_size_normal.
Qed.

Lemma sprite_valid_normal name s :
  indexed s = true ->
  sprite_valid s = true ->
  sprite_valid (normal_form name s) = true.
Proof.
  intros Hi Hv. unfold sprite_valid in *. unfold normal_form.
  cbn [sprite_w sprite_h speed trans palette indexed tags layers frames].
  rewrite Hi in *. cbn [opt_list].
  rewrite len_map.
  rewrite (forallb_map_same _ _ _ color_ok_read_back).
  rewrite (forallb_map_same _ _ _ frame_valid_read_back).
  destruct (palette s); [exact Hv|].
  cbn in Hv. rewrite !andb_false_r in Hv. discriminate.
Qed.

Lemma ascii_names_normal name s :
  ascii_names (normal_form name s) = ascii_names s.
Proof. reflexivity. Qed.

Lemma normal_form_idem name s :
  normal_form name (normal_form name s) = normal_form name s.
Proof.
  unfold normal_form.
  cbn [sprite_w sprite_h speed trans palette indexed tags layers frames
         opt_list].
  f_equal.
  - rewrite map_map. apply map_ext. apply read_back_frame_idem.
  - destruct (indexed s); [|reflexivity]. cbn [opt_list]. f_equal.
    rewrite map_map. apply map_ext. apply read_back_color_idem.
Qed.

(** For an indexed sprite with a frame and ASCII names, the sprite read
    from its encoding is encoded again and read again as itself. *)
Theorem round_trip_fixed_point zc zd name s :
  (forall bs, zd (zc bs) = Ok bs) ->
  sprite_valid s = true ->
  fits zc s = true ->
  indexed s = true ->
  frames s <> [] ->
  ascii_names s = true ->
  exists b1 s1 b2,
    write_aseprite_file zc s = Ok b1
    /\ read_aseprite_file zd name b1 = Ok s1
    /\ write_aseprite_file zc s1 = Ok b2
    /\ read_aseprite_file zd name b2 = Ok s1
    /\ s1 = normal_form name s.
Proof.
  intros Hz Hv Hfit Hi Hf Ha.
  destruct (read_after_write zc zd Hz name s Hv Hfit)
    as (b1 & Hw1 & _ & Hr1).
  rewrite (read_back_ascii name s Hf Ha) in Hr1.
  assert (Hv1 : sprite_valid (normal_form name s) = true)
    by (now apply sprite_valid_normal).
  assert (Hfit1 : fits zc (normal_form name s) = true)
    by (now rewrite fits_normal).
  assert (Hf1 : frames (normal_form name s) <> []).
  { unfold normal_form. cbn [frames]. destruct (frames s); [congruence|].
    discriminate. }
  destruct (read_after_write zc zd Hz name (normal_form name s) Hv1 Hfit1)
    as (b2 & Hw2 & _ & Hr2).
  rewrite (read_back_ascii name _ Hf1) in Hr2
    by (now rewrite ascii_names_normal).
  rewrite normal_form_idem in Hr2.
  exists b1, (normal_form name s), b2. auto.
Qed.

Lemma round_trip_fixed_point_witness :
  exists b1 s1 b2,
    write_aseprite_file Stored.compress Samples.small_sprite = Ok b1
    /\ read_aseprite_file Stored.decompress [] b1 = Ok s1
    /\ write_aseprite_file Stored.compress s1 = Ok b2
    /\ read_aseprite_file Stored.decompress [] b2 = Ok s1
    /\ s1 = normal_form [] Samples.small_sprite.
Proof.
  apply (round_trip_fixed_point Stored.compress Stored.decompress []
           Samples.small_sprite StoredFacts.decompress_compress).
  - vm_compute. reflexivity.
  - vm_compute. reflexivity.
  - reflexivity.
  - discriminate.
  - reflexivity.
Defined.

(* ===================================================================== *)
(** ** Further properties of the reader and the writer *)
(* ===================================================================== *)

(** The first 36 bytes of a well-formed file unpack to its header. *)
Lemma header_of_file_bytes f :
  file_ok f = true ->
  unpack "=IHHHHHIHIIB3BHBB" (pyslice (file_bytes f) 0 36) = Ok (w_header f).
Proof.
  intros Hok. unfold file_ok in Hok. split_andb.
  assert (Hl : len (packed "=IHHHHHIHIIB3BHBB" (w_header f)) = 36)
    by (eapply len_packed; [reflexivity | eassumption | reflexivity]).
  assert (Hs := suffix_at_start (file_bytes f)).
  unfold file_bytes in Hs at 2.
  rewrite (slice_to _ 0 _ _ 36 Hs) by (now rewrite Hl).
  unpack_packed_tac "=IHHHHHIHIIB3BHBB"%string "=IHHHHHIHIIB3BHBB"%string.
  reflexivity.
Qed.

(** Encoding then decoding: for a valid sprite with at least one frame and
    ASCII names whose encoding fits the buffer, the writer succeeds, its
    output has the size computed from the sprite, and the reader returns the
    normal form of the sprite: the name given to the reader, every alpha
    255, the palette only when the sprite is indexed, a layer list even when
    the sprite had none, and for a linked cel the link alone. *)
Theorem encode_then_decode zc zd name s :
  (forall bs, zd (zc bs) = Ok bs) ->
  sprite_valid s = true ->
  fits zc s = true ->
  frames s <> [] ->
  ascii_names s = true ->
  exists bytes,
    write_aseprite_file zc s = Ok bytes
    /\ len bytes = file_size zc s
    /\ read_aseprite_file zd name bytes = Ok (normal_form name s).
Proof.
  intros Hz Hv Hfit Hf Ha.
  destruct (read_after_write zc zd Hz name s Hv Hfit)
    as (bytes & Hw & Hl & Hr).
  exists bytes. split; [exact Hw|]. split; [exact Hl|].
  now rewrite Hr, (read_back_ascii name s Hf Ha).
Qed.

Lemma encode_then_decode_witness :
  exists bytes,
    write_aseprite_file Stored.compress Samples.small_sprite = Ok bytes
    /\ len bytes = file_size Stored.compress Samples.small_sprite
    /\ read_aseprite_file Stored.decompress [110] bytes
       = Ok (normal_form [110] Samples.small_sprite).
Proof.
  apply (encode_then_decode Stored.compress Stored.decompress [110]
           Samples.small_sprite StoredFacts.decompress_compress).
  - vm_compute. reflexivity.
  - vm_compute. reflexivity.
  - discriminate.
  - reflexivity.
Defined.

(** The header of a written file: its first field is the length of the
    output, the magic number is 0xA5E0, the depth 8 or 32, the flags 1, and
    the palette size the length of the sprite's palette, in whatever colour
    mode. *)
Theorem written_header zc s :
  sprite_valid s = true ->
  fits zc s = true ->
  exists bytes,
    write_aseprite_file zc s = Ok bytes
    /\ len bytes = file_size zc s
    /\ unpack "=IHHHHHIHIIB3BHBB" (pyslice bytes 0 36)
       = Ok [len bytes; 0xA5E0; len (frames s); sprite_w s; sprite_h s;
             if indexed s then 8 else 32; 1; speed s; 0; 0; trans s; 0; 0; 0;
             len (opt_list (palette s)); 0; 0].
Proof.
  intros Hv Hfit.
  destruct (write_file_spec zc s Hv Hfit) as (f & Hw & Hok & Hh & _ & Hl).
  exists (file_bytes f). split; [exact Hw|]. split; [exact Hl|].
  rewrite (header_of_file_bytes f Hok), Hh, Hl. reflexivity.
Qed.

Lemma written_header_witness :
  exists bytes,
    write_aseprite_file Stored.compress Samples.rgba_sprite = Ok bytes
    /\ len bytes = file_size Stored.compress Samples.rgba_sprite
    /\ unpack "=IHHHHHIHIIB3BHBB" (pyslice bytes 0 36)
       = Ok [len bytes; 0xA5E0; len (frames Samples.rgba_sprite);
             sprite_w Samples.rgba_sprite; sprite_h Samples.rgba_sprite;
             if indexed Samples.rgba_sprite then 8 else 32; 1;
             speed Samples.rgba_sprite; 0; 0; trans Samples.rgba_sprite;
             0; 0; 0; len (opt_list (palette Samples.rgba_sprite)); 0; 0].
Proof.
  apply (written_header Stored.compress Samples.rgba_sprite).
  - vm_compute. reflexivity.
  - vm_compute. reflexivity.
Defined.

(** A sprite without frames is written as the 128 header bytes alone: its
    palette, tags and layers are not written, and the file reads back as a
    sprite with no palette, no tags and an empty layer list. *)
Theorem no_frames_header_only zc zd name s :
  sprite_valid s = true ->
  frames s = [] ->
  exists bytes,
    write_aseprite_file zc s = Ok bytes
    /\ len bytes = 128
    /\ read_aseprite_file zd name bytes
       = Ok (mkSprite name (sprite_w s) (sprite_h s) (trans s) [] (Some [])
               (speed s) (indexed s) None None).
Proof.
  intros Hv Hf.
  assert (Hsize : file_size zc s = 128)
    by (unfold file_size; now rewrite Hf).
  assert (Hfit : fits zc s = true)
    by (unfold fits; now rewrite Hsize).
  destruct (write_file_spec zc s Hv Hfit) as (f & Hw & Hok & Hh & Her & Hl).
  exists (file_bytes f). split; [exact Hw|]. split; [now rewrite Hl|].
  rewrite (read_file_spec zd name f Hok).
  rewrite Hf in Her. cbn [wire_frames] in Her.
  destruct (w_frames f); [|discriminate].
  cbn [apply_frames]. rewrite Hh. unfold init_sprite, wire_header.
  change (item ?l 3) with (nth 3 l 0).
  destruct (indexed s); reflexivity.
Qed.

Lemma no_frames_header_only_witness :
  exists bytes,
    write_aseprite_file Stored.compress
      (mkSprite [] 4 2 9 [] (Some [mkLayer 1 0 0 0 255 [98; 103]]) 100 true
         (Some [(1, 2, 3, 4)]) (Some [mkTag [103; 111] 0 0 0])) = Ok bytes
    /\ len bytes = 128
    /\ read_aseprite_file Stored.decompress [110] bytes
       = Ok (mkSprite [110] 4 2 9 [] (Some []) 100 true None None).
Proof.
  apply (no_frames_header_only Stored.compress Stored.decompress [110]
           (mkSprite [] 4 2 9 [] (Some [mkLayer 1 0 0 0 255 [98; 103]]) 100
              true (Some [(1, 2, 3, 4)]) (Some [mkTag [103; 111] 0 0 0]))).
  - vm_compute. reflexivity.
  - reflexivity.
Defined.

(** When the header announces no frame, the reader needs the 36 bytes of
    the header fields and nothing more: it returns the width, height,
    transparent index, speed and colour mode of the header, whatever the
    magic number and the size field hold and whatever follows, even
    nothing. *)
Theorem header_without_frames zd name header rest :
  args_ok HEADER_CODES header = true ->
  item header 2 = 0 ->
  read_aseprite_file zd name (packed "=IHHHHHIHIIB3BHBB" header ++ rest)
  = Ok (mkSprite name (item header 3) (item header 4) (item header 10) []
          (Some []) (item header 7) (item header 5 =? 8) None None).
Proof.
  intros Ha Hn.
  assert (Hl : len (packed "=IHHHHHIHIIB3BHBB" header) = 36)
    by (eapply len_packed; [reflexivity | eassumption | reflexivity]).
  assert (Hs := suffix_at_start (packed "=IHHHHHIHIIB3BHBB" header ++ rest)).
  unfold read_aseprite_file.
  rewrite (slice_to _ 0 _ _ 36 Hs) by (now rewrite Hl).
  unpack_packed_tac "=IHHHHHIHIIB3BHBB"%string "=IHHHHHIHIIB3BHBB"%string.
  cbn [bind]. rewrite Hn. reflexivity.
Qed.

Lemma header_without_frames_witness :
  read_aseprite_file Stored.decompress [110]
    (packed "=IHHHHHIHIIB3BHBB" (Samples.header 0 0 8) ++ [])
  = Ok (mkSprite [110] (item (Samples.header 0 0 8) 3)
          (item (Samples.header 0 0 8) 4) (item (Samples.header 0 0 8) 10) []
          (Some []) (item (Samples.header 0 0 8) 7)
          (item (Samples.header 0 0 8) 5 =? 8) None None).
Proof.
  apply (header_without_frames Stored.decompress [110]
           (Samples.header 0 0 8) []); reflexivity.
Defined.

(** Each PALETTE chunk starts the palette afresh: of two PALETTE chunks in
    a frame the reader keeps the colours of the second, in the order of the
    chunk, whatever the first and last indices and the entry flags say. *)
Theorem later_palette_replaces zd name header gap sz dur first1 last1 gap1 es1
    first2 last2 gap2 es2 :
  file_ok
    (mkWFile header gap
       [mkWFrame sz dur
          [CPalette first1 last1 gap1 es1; CPalette first2 last2 gap2 es2]])
  = true ->
  read_aseprite_file zd name
    (file_bytes
       (mkWFile header gap
          [mkWFrame sz dur
             [CPalette first1 last1 gap1 es1; CPalette first2 last2 gap2 es2]]))
  = Ok (mkSprite name (item header 3) (item header 4) (item header 10)
          [mkFrame dur []] (Some []) (item header 7) (item header 5 =? 8)
          (Some (map snd es2)) None).
Proof.
  intros Hok. rewrite (read_file_spec zd name _ Hok). reflexivity.
Qed.

Lemma later_palette_replaces_witness :
  read_aseprite_file Stored.decompress [110]
    (file_bytes
       (mkWFile (Samples.header 0xA5E0 1 8) (zeros 92)
          [mkWFrame 86 100
             [CPalette 0 0 (zeros 8) [(0, (9, 9, 9, 255))];
              CPalette 5 7 (zeros 8)
                [(1, (1, 2, 3, 4)); (0, (5, 6, 7, 8))]]]))
  = Ok (mkSprite [110] (item (Samples.header 0xA5E0 1 8) 3)
          (item (Samples.header 0xA5E0 1 8) 4)
          (item (Samples.header 0xA5E0 1 8) 10)
          [mkFrame 100 []] (Some []) (item (Samples.header 0xA5E0 1 8) 7)
          (item (Samples.header 0xA5E0 1 8) 5 =? 8)
          (Some (map snd [(1, (1, 2, 3, 4)); (0, (5, 6, 7, 8))])) None).
Proof.
  apply (later_palette_replaces Stored.decompress [110]
           (Samples.header 0xA5E0 1 8) (zeros 92) 86 100 0 0 (zeros 8)
           [(0, (9, 9, 9, 255))] 5 7 (zeros 8)
           [(1, (1, 2, 3, 4)); (0, (5, 6, 7, 8))]).
  vm_compute. reflexivity.
Defined.

(* ===================================================================== *)
(** ** dump_pixels *)
(* ===================================================================== *)

Lemma skipn_nil_nth {A} (l : list A) k :
  skipn k l = [] -> nth_error l k = None.
Proof.
  revert l. induction k as [|k IH]; intros [|a l] H; cbn in *;
    try reflexivity; try discriminate.
  now apply IH.
Qed.

Lemma skipn_cons_nth {A} (l : list A) k a l' :
  skipn k l = a :: l' -> nth_error l k = Some a /\ skipn (S k) l = l'.
Proof.
  revert l. induction k as [|k IH]; intros [|b l] H; cbn in H;
    try discriminate.
  - injection H as -> ->. split; reflexivity.
  - destruct (IH l H) as [H1 H2]. split; [exact H1|exact H2].
Qed.

Lemma index_nonneg {A} (l : list A) i :
  0 <= i -> Dump.index l i = nth_error l (Z.to_nat i).
Proof.
  intros H. unfold Dump.index.
  destruct (i <? 0) eqn:E; [apply Z.ltb_lt in E; lia|reflexivity].
Qed.

Lemma palette_index v :
  0 <= v ->
  Dump.index Dump.palette v
  = if v <? 16 then Some (nth (Z.to_nat v) Dump.palette Dump.space) else None.
Proof.
  intros Hv. rewrite index_nonneg by exact Hv.
  destruct (v <? 16) eqn:E.
  - apply Z.ltb_lt in E. apply nth_error_nth'.
    change (length Dump.palette) with 16%nat. lia.
  - apply Z.ltb_ge in E. apply nth_error_None.
    change (length Dump.palette) with 16%nat. lia.
Qed.

(** One row: it prints the glyphs of the next [n] pixels when there are [n]
    more pixels and all are printable, and raises IndexError otherwise. *)
Lemma dump_row_spec pixels transp n :
  forall l i out,
    0 <= i ->
    skipn (Z.to_nat i) pixels = l ->
    ((n <=? length l)%nat && forallb (Dump.printable transp) (firstn n l)
     = true ->
     Dump.dump_row pixels transp n i out
     = (out ++ concat (map (Dump.glyph transp) (firstn n l)),
        Dump.Returned (i + Z.of_nat n)))
    /\ ((n <=? length l)%nat && forallb (Dump.printable transp) (firstn n l)
        = false ->
        exists out',
          Dump.dump_row pixels transp n i out = (out', Dump.IndexError)).
Proof.
  induction n as [|n IH]; intros l i out Hi Hl.
  - split.
    + intros _. cbn. rewrite app_nil_r. f_equal. f_equal. lia.
    + cbn. discriminate.
  - cbn [Dump.dump_row]. rewrite index_nonneg by exact Hi.
    destruct l as [|p l'].
    + rewrite (skipn_nil_nth _ _ Hl). split; [discriminate|].
      intros _. now exists out.
    + destruct (skipn_cons_nth _ _ _ _ Hl) as [Hn Hs]. rewrite Hn.
      assert (Hs' : skipn (Z.to_nat (i + 1)) pixels = l').
      { replace (Z.to_nat (i + 1)) with (S (Z.to_nat i)) by lia. exact Hs. }
      assert (Hi' : 0 <= i + 1) by lia.
      cbn [firstn forallb map concat length].
      change (S n <=? S (length l'))%nat with (n <=? length l')%nat.
      unfold Dump.printable at 1. unfold Dump.printable at 2.
      unfold Dump.glyph at 1.
      pose proof (b2z_range p) as Hp.
      destruct (b2z p =? transp) eqn:Et.
      * cbn [orb andb].
        destruct (IH l' (i + 1) (out ++ [Dump.dot; Dump.dot]) Hi' Hs')
          as [Hok Hfail].
        split.
        -- intros Hc. rewrite (Hok Hc). rewrite <- app_assoc.
           f_equal. f_equal. lia.
        -- exact Hfail.
      * cbn [orb]. rewrite palette_index by lia.
        destruct (b2z p <? 16) eqn:E16.
        -- cbn [andb].
           destruct (IH l' (i + 1)
                       (out ++ [nth (Z.to_nat (b2z p)) Dump.palette Dump.space;
                                nth (Z.to_nat (b2z p)) Dump.palette Dump.space])
                       Hi' Hs') as [Hok Hfail].
           split.
           ++ intros Hc. rewrite (Hok Hc). rewrite <- app_assoc.
              f_equal. f_equal. lia.
           ++ exact Hfail.
        -- split.
           ++ rewrite andb_false_r. discriminate.
           ++ intros _. now exists out.
Qed.

Lemma firstn_add {A} (a b : nat) (l : list A) :
  firstn (a + b) l = firstn a l ++ firstn b (skipn a l).
Proof.
  revert l. induction a as [|a IH]; intros [|x l]; cbn;
    try reflexivity.
  - now rewrite firstn_nil.
  - now rewrite IH.
Qed.

(** The check for [S n] rows is the check for the first row and the check
    for the [n] rows after it. *)
Lemma cells_check_step {A} (P : A -> bool) (w n : nat) (l : list A) :
  (w * S n <=? length l)%nat && forallb P (firstn (w * S n) l)
  = ((w <=? length l)%nat && forallb P (firstn w l))
    && ((w * n <=? length (skipn w l))%nat
        && forallb P (firstn (w * n) (skipn w l))).
Proof.
  replace (w * S n)%nat with (w + w * n)%nat by lia.
  rewrite firstn_add, forallb_app, length_skipn.
  destruct (w <=? length l)%nat eqn:E1.
  - apply Nat.leb_le in E1.
    replace (w + w * n <=? length l)%nat with (w * n <=? length l - w)%nat.
    + cbn [andb].
      destruct (w * n <=? length l - w)%nat; cbn [andb];
        [reflexivity|now rewrite andb_false_r].
    + destruct (w * n <=? length l - w)%nat eqn:E2.
      * apply Nat.leb_le in E2. symmetry. apply Nat.leb_le. lia.
      * apply Nat.leb_gt in E2. symmetry. apply Nat.leb_gt. lia.
  - apply Nat.leb_gt in E1. cbn [andb].
    apply andb_false_intro1. apply Nat.leb_gt. lia.
Qed.

Lemma dump_rows_spec pixels w transp n :
  forall l i out,
    0 <= i ->
    skipn (Z.to_nat i) pixels = l ->
    ((Z.to_nat w * n <=? length l)%nat
     && forallb (Dump.printable transp) (firstn (Z.to_nat w * n) l) = true ->
     Dump.dump_rows pixels w transp n i out
     = (out ++ Dump.rows_text transp (Z.to_nat w) n l, Dump.Returned tt))
    /\ ((Z.to_nat w * n <=? length l)%nat
        && forallb (Dump.printable transp) (firstn (Z.to_nat w * n) l) = false ->
        exists out',
          Dump.dump_rows pixels w transp n i out = (out', Dump.IndexError)).
Proof.
  induction n as [|n IH]; intros l i out Hi Hl.
  - rewrite Nat.mul_0_r. split.
    + intros _. cbn. now rewrite app_nil_r.
    + cbn. discriminate.
  - rewrite cells_check_step. cbn [Dump.dump_rows Dump.rows_text].
    destruct (dump_row_spec pixels transp (Z.to_nat w) l i
                (out ++ repeat Dump.space 6) Hi Hl) as [Hok Hfail].
    destruct ((Z.to_nat w <=? length l)%nat
              && forallb (Dump.printable transp) (firstn (Z.to_nat w) l))
      eqn:Erow.
    + rewrite (Hok eq_refl). cbn [andb].
      assert (Hi' : 0 <= i + Z.of_nat (Z.to_nat w)) by lia.
      assert (Hl' : skipn (Z.to_nat (i + Z.of_nat (Z.to_nat w))) pixels
                    = skipn (Z.to_nat w) l).
      { rewrite <- Hl, skipn_skipn. f_equal. lia. }
      destruct (IH (skipn (Z.to_nat w) l) (i + Z.of_nat (Z.to_nat w))
                  ((((out ++ repeat Dump.space 6)
                     ++ concat (map (Dump.glyph transp)
                                  (firstn (Z.to_nat w) l)))
                    ++ [Dump.newline])) Hi' Hl') as [Hok' Hfail'].
      split.
      * intros Hc. rewrite (Hok' Hc). now rewrite <- !app_assoc.
      * exact Hfail'.
    + cbn [andb]. split; [discriminate|].
      intros _. destruct (Hfail eq_refl) as (out' & ->). now exists out'.
Qed.

Lemma glyph_length transp p : length (Dump.glyph transp p) = 2%nat.
Proof. unfold Dump.glyph. now destruct (b2z p =? transp). Qed.

Lemma glyphs_length transp l :
  length (concat (map (Dump.glyph transp) l)) = (2 * length l)%nat.
Proof.
  induction l as [|p l IH]; [reflexivity|].
  cbn [map concat length]. rewrite length_app, glyph_length, IH. lia.
Qed.

Lemma rows_text_length transp w n :
  forall l, (w * n <= length l)%nat ->
  length (Dump.rows_text transp w n l) = (n * (7 + 2 * w))%nat.
Proof.
  induction n as [|n IH]; intros l Hl; [reflexivity|].
  cbn [Dump.rows_text]. rewrite !length_app, repeat_length, glyphs_length.
  rewrite length_firstn, IH by (rewrite length_skipn; lia).
  cbn [length]. lia.
Qed.

(** [dump_pixels] prints when the pixel data holds the w*h pixels of the
    cel and each of them is the transparent index or below 16: the text is
    one line per row, six spaces then two characters per pixel, two full
    stops for a transparent pixel whatever its value, and so h lines of
    7 + 2*w characters, the line end counted. *)
Theorem dump_pixels_prints pixels w h transp :
  (Z.to_nat w * Z.to_nat h <= length pixels)%nat ->
  forallb (Dump.printable transp) (firstn (Z.to_nat w * Z.to_nat h) pixels)
  = true ->
  Dump.dump_pixels pixels w h transp
  = (Dump.rows_text transp (Z.to_nat w) (Z.to_nat h) pixels, Dump.Returned tt)
  /\ length (Dump.rows_text transp (Z.to_nat w) (Z.to_nat h) pixels)
     = (Z.to_nat h * (7 + 2 * Z.to_nat w))%nat.
Proof.
  intros Hlen Hall. split.
  - unfold Dump.dump_pixels.
    destruct (dump_rows_spec pixels w transp (Z.to_nat h) pixels 0 []
                ltac:(lia) eq_refl) as [Hok _].
    apply Hok. rewrite Hall, andb_true_r. now apply Nat.leb_le.
  - now apply rows_text_length.
Qed.

Lemma dump_pixels_prints_witness :
  Dump.dump_pixels [Byte.x00; Byte.xff; Byte.x0f; Byte.x01; Byte.x63] 2 2 255
  = (Dump.rows_text 255 (Z.to_nat 2) (Z.to_nat 2)
       [Byte.x00; Byte.xff; Byte.x0f; Byte.x01; Byte.x63],
     Dump.Returned tt)
  /\ length (Dump.rows_text 255 (Z.to_nat 2) (Z.to_nat 2)
               [Byte.x00; Byte.xff; Byte.x0f; Byte.x01; Byte.x63])
     = (Z.to_nat 2 * (7 + 2 * Z.to_nat 2))%nat.
Proof.
  apply (dump_pixels_prints
           [Byte.x00; Byte.xff; Byte.x0f; Byte.x01; Byte.x63] 2 2 255).
  - vm_compute. lia.
  - vm_compute. reflexivity.
Defined.

(** [dump_pixels] raises IndexError exactly when the pixel data is shorter
    than w*h pixels or one of the first w*h pixels is neither the
    transparent index nor below 16. *)
Theorem dump_pixels_index_error pixels w h transp :
  (exists out, Dump.dump_pixels pixels w h transp = (out, Dump.IndexError))
  <-> ((length pixels < Z.to_nat w * Z.to_nat h)%nat
       \/ forallb (Dump.printable transp)
            (firstn (Z.to_nat w * Z.to_nat h) pixels) = false).
Proof.
  unfold Dump.dump_pixels.
  destruct (dump_rows_spec pixels w transp (Z.to_nat h) pixels 0 []
              ltac:(lia) eq_refl) as [Hok Hfail].
  destruct ((Z.to_nat w * Z.to_nat h <=? length pixels)%nat
            && forallb (Dump.printable transp)
                 (firstn (Z.to_nat w * Z.to_nat h) pixels)) eqn:E.
  - rewrite (Hok eq_refl). apply andb_prop in E. destruct E as [E1 E2].
    apply Nat.leb_le in E1. split.
    + intros (out & H). discriminate.
    + intros [H|H]; [lia|congruence].
  - split.
    + intros _. apply andb_false_iff in E. destruct E as [E|E].
      * left. now apply Nat.leb_gt in E.
      * now right.
    + intros _. exact (Hfail eq_refl).
Qed.

(* ===================================================================== *)
(** ** What the writer does not look at *)
(* ===================================================================== *)

Lemma write_palette_entries_alpha pal data ptr :
  write_palette_entries (map read_back_color pal) data ptr
  = write_palette_entries pal data ptr.
Proof.
  revert data ptr. induction pal as [|[[[r g] b] a] pal IH]; intros data ptr;
    [reflexivity|].
  cbn [map read_back_color write_palette_entries].
  destruct (pack_into _ _ _ _); [|reflexivity].
  cbn [bind]. apply IH.
Qed.

Lemma write_palette_alpha pal data ptr :
  write_palette (map read_back_color pal) data ptr
  = write_palette pal data ptr.
Proof.
  unfold write_palette. rewrite len_map.
  destruct (pack_into _ _ _ _); [|reflexivity].
  cbn [bind]. now rewrite write_palette_entries_alpha.
Qed.

Lemma write_cel_read_back zc c data ptr :
  write_cel zc (read_back_cel c) data ptr = write_cel zc c data ptr.
Proof.
  unfold write_cel, read_back_cel. destruct (linked c); reflexivity.
Qed.

Lemma write_cels_read_back zc cs st :
  write_cels zc (map read_back_cel cs) st = write_cels zc cs st.
Proof.
  revert st. induction cs as [|c cs IH]; intros [[data ptr] n];
    [reflexivity|].
  cbn [map write_cels]. rewrite write_cel_read_back.
  destruct (write_cel zc c data ptr) as [[d p]|]; [|reflexivity].
  cbn [bind]. apply IH.
Qed.

Lemma write_first_frame_normal name s pal st :
  indexed s = true ->
  palette s = Some pal ->
  write_first_frame (normal_form name s) st = write_first_frame s st.
Proof.
  intros Hi Hp. unfold write_first_frame, normal_form.
  cbn [indexed palette tags layers]. rewrite Hi, Hp.
  destruct st as [[data ptr] n]. cbn [opt_list getitem bind].
  rewrite write_palette_alpha.
  destruct (write_palette pal data ptr) as [[d p]|]; [|reflexivity].
  cbn [bind].
  destruct (match tags s with Some _ => _ | None => _ end) as [st|];
    [|reflexivity].
  cbn [bind]. destruct (layers s); reflexivity.
Qed.

Lemma write_frame_normal zc name s pal f b data ptr :
  indexed s = true ->
  palette s = Some pal ->
  write_frame zc (normal_form name s) (read_back_frame f) b data ptr
  = write_frame zc s f b data ptr.
Proof.
  intros Hi Hp. unfold write_frame, read_back_frame. cbn [duration cels].
  destruct (pack_into _ _ _ _); [|reflexivity].
  cbn [bind]. destruct b.
  - rewrite (write_first_frame_normal name s pal _ Hi Hp).
    destruct (write_first_frame s _); [|reflexivity].
    cbn [bind]. now rewrite write_cels_read_back.
  - cbn [bind]. now rewrite write_cels_read_back.
Qed.

Lemma write_frames_normal zc name s pal fs b data ptr :
  indexed s = true ->
  palette s = Some pal ->
  write_frames zc (normal_form name s) (map read_back_frame fs) b data ptr
  = write_frames zc s fs b data ptr.
Proof.
  intros Hi Hp. revert b data ptr.
  induction fs as [|f fs IH]; intros b data ptr; [reflexivity|].
  cbn [map write_frames]. rewrite (write_frame_normal zc name s pal) by assumption.
  destruct (write_frame zc s f b data ptr) as [[d p]|]; [|reflexivity].
  cbn [bind]. apply IH.
Qed.

(** The writer looks neither at the name of the sprite, nor at the alpha
    of its colours, nor at the width, height and pixels of a linked cel:
    an indexed sprite and its normal form are written as the same bytes,
    or fail alike. *)
Lemma write_normal_form zc name s pal :
  indexed s = true ->
  palette s = Some pal ->
  write_aseprite_file zc (normal_form name s) = write_aseprite_file zc s.
Proof.
  intros Hi Hp. unfold write_aseprite_file, write_buffer.
  change (palette (normal_form name s))
    with (if indexed s
          then Some (map read_back_color (opt_list (palette s)))
          else None).
  change (indexed (normal_form name s)) with (indexed s).
  change (frames (normal_form name s)) with (map read_back_frame (frames s)).
  change (sprite_w (normal_form name s)) with (sprite_w s).
  change (sprite_h (normal_form name s)) with (sprite_h s).
  change (speed (normal_form name s)) with (speed s).
  change (trans (normal_form name s)) with (trans s).
  rewrite Hi, Hp. cbn [opt_list getitem bind]. rewrite !len_map.
  destruct (pack_into _ _ _ _); [|reflexivity].
  cbn [bind].
  now rewrite (write_frames_normal zc name s pal) by assumption.
Qed.

(** Encoding, decoding and encoding again gives the bytes of the first
    encoding, for a valid indexed sprite with a frame and ASCII names. *)
Theorem reencode_same_bytes zc zd name s :
  (forall bs, zd (zc bs) = Ok bs) ->
  sprite_valid s = true ->
  fits zc s = true ->
  indexed s = true ->
  frames s <> [] ->
  ascii_names s = true ->
  exists bytes s1,
    write_aseprite_file zc s = Ok bytes
    /\ read_aseprite_file zd name bytes = Ok s1
    /\ write_aseprite_file zc s1 = Ok bytes.
Proof.
  intros Hz Hv Hfit Hi Hf Ha.
  destruct (read_after_write zc zd Hz name s Hv Hfit)
    as (bytes & Hw & _ & Hr).
  rewrite (read_back_ascii name s Hf Ha) in Hr.
  destruct (sprite_valid_inv s Hv) as (_ & Hp & _).
  exists bytes, (normal_form name s).
  split; [exact Hw|]. split; [exact Hr|].
  now rewrite (write_normal_form zc name s _ Hi Hp).
Qed.

Lemma reencode_same_bytes_witness :
  exists bytes s1,
    write_aseprite_file Stored.compress Samples.small_sprite = Ok bytes
    /\ read_aseprite_file Stored.decompress [110] bytes = Ok s1
    /\ write_aseprite_file Stored.compress s1 = Ok bytes.
Proof.
  apply (reencode_same_bytes Stored.compress Stored.decompress [110]
           Samples.small_sprite StoredFacts.decompress_compress).
  - vm_compute. reflexivity.
  - vm_compute. reflexivity.
  - reflexivity.
  - discriminate.
  - reflexivity.
Defined.

(** A sprite with a frame count, width, height, speed or palette size
    outside 0..65535, or a transparent index outside 0..255, is not
    written: packing the header raises struct.error. *)
Theorem header_out_of_range zc s pal :
  palette s = Some pal ->
  args_ok [fH; fH; fH; fH; fB; fH]
    [len (frames s); sprite_w s; sprite_h s; speed s; trans s; len pal]
  = false ->
  write_aseprite_file zc s = Raise struct_error.
Proof.
  intros Hp Ha. unfold write_aseprite_file, write_buffer.
  rewrite Hp. cbn [getitem bind]. unfold pack_into.
  let x := eval vm_compute in (parse_fmt "=HHHHHIHIIBBBBHBB"%string) in
  change (parse_fmt "=HHHHHIHIIBBBBHBB"%string) with x.
  cbv beta iota.
  change (4 <? 0) with false. cbn [andb].
  unfold len at 1. rewrite repeat_length.
  rewrite Z2Nat.id by (unfold BUFFER_SIZE; lia).
  change (Z.of_nat (calcsize false
                      [fH; fH; fH; fH; fH; fI; fH; fI; fI; fB; fB; fB; fB;
                       fH; fB; fB])) with 32.
  change (BUFFER_SIZE - 4 <? 32) with false.
  cbv beta iota.
  assert (Hargs : args_ok
            [fH; fH; fH; fH; fH; fI; fH; fI; fI; fB; fB; fB; fB; fH; fB; fB]
            [0xA5E0; len (frames s); sprite_w s; sprite_h s;
             if indexed s then 8 else 32; 1; speed s; 0; 0; trans s; 0; 0; 0;
             len pal; 0; 0] = false).
  { cbn [args_ok] in *.
    destruct (in_range fH (len (frames s))), (in_range fH (sprite_w s)),
      (in_range fH (sprite_h s)), (in_range fH (speed s)),
      (in_range fB (trans s)), (in_range fH (len pal));
      try discriminate Ha; cbn [andb];
      repeat (reflexivity || rewrite andb_false_r || cbn [andb]). }
  rewrite Hargs. reflexivity.
Qed.

Lemma header_out_of_range_witness :
  write_aseprite_file Stored.compress
    (mkSprite [] 70000 1 0 [mkFrame 100 []] (Some []) 100 false (Some [])
       None)
  = Raise struct_error.
Proof.
  apply (header_out_of_range Stored.compress
           (mkSprite [] 70000 1 0 [mkFrame 100 []] (Some []) 100 false
              (Some []) None) []); reflexivity.
Defined.

(* ===================================================================== *)
(** ** When the writer succeeds *)
(* ===================================================================== *)

Lemma pack_into_ok fmt native fs data off vs d :
  parse_fmt fmt = Some (native, fs) ->
  pack_into fmt data off vs = Ok d ->
  args_ok fs vs = true.
Proof.
  intros Hp H. unfold pack_into in H. rewrite Hp in H.
  destruct ((off <? 0) && _); [discriminate|].
  destruct (_ <? _); [discriminate|].
  destruct (args_ok fs vs); [reflexivity|discriminate].
Qed.

(** Splits [H : (x <- m ;; k x) = Ok r] into [m = Ok x] and the rest. *)
Ltac bind_ok H x E :=
  match type of H with
  | bind ?m _ = Ok _ =>
      destruct m as [x|] eqn:E; [cbn [bind] in H | discriminate H]
  end.

Lemma write_palette_entries_valid pal data ptr r :
  write_palette_entries pal data ptr = Ok r -> forallb color_ok pal = true.
Proof.
  revert data ptr. induction pal as [|[[[cr cg] cb] ca] pal IH];
    intros data ptr H; [reflexivity|].
  cbn [write_palette_entries] in H. bind_ok H d E.
  apply (pack_into_ok _ false [fH; fB; fB; fB; fB]) in E; [|reflexivity].
  cbn [args_ok] in E. split_andb.
  cbn [forallb color_ok args_ok].
  rewrite (IH _ _ H).
  repeat match goal with
         | Hr : in_range _ ?v = true |- context [in_range _ ?v] => rewrite Hr
         end.
  reflexivity.
Qed.

Lemma write_palette_valid pal data ptr r :
  write_palette pal data ptr = Ok r ->
  1 <= len pal /\ forallb color_ok pal = true.
Proof.
  intros H. unfold write_palette in H. bind_ok H d E.
  apply (pack_into_ok _ false [fH; fI; fI; fI]) in E; [|reflexivity].
  bind_ok H st E2. destruct st as [d2 p2].
  split; [|exact (write_palette_entries_valid _ _ _ _ E2)].
  cbn [args_ok] in E. split_andb.
  match goal with
  | Hr : in_range fI (len pal - 1) = true |- _ =>
      unfold in_range in Hr; apply andb_prop in Hr; destruct Hr as [Hr _];
      apply Z.leb_le in Hr; lia
  end.
Qed.

Lemma write_name_valid name data ptr r :
  write_name name data ptr = Ok r -> name_ok name = true.
Proof.
  intros H. unfold write_name in H. bind_ok H d E.
  apply (pack_into_ok _ false [fH]) in E; [|reflexivity].
  cbn [args_ok] in E. apply andb_prop in E. destruct E as [E _].
  unfold name_ok. rewrite E.
  destruct (utf8_encode name); [reflexivity|discriminate].
Qed.

Lemma write_tag_entries_valid ts data ptr r :
  write_tag_entries ts data ptr = Ok r -> forallb tag_valid ts = true.
Proof.
  revert data ptr. induction ts as [|t ts IH]; intros data ptr H;
    [reflexivity|].
  cbn [write_tag_entries] in H. bind_ok H d E.
  apply (pack_into_ok _ false [fH; fH; fB]) in E; [|reflexivity].
  bind_ok H st E2. destruct st as [d2 p2].
  cbn [forallb]. unfold tag_valid at 1.
  now rewrite E, (write_name_valid _ _ _ _ E2), (IH _ _ H).
Qed.

Lemma write_tags_valid ts data ptr r :
  write_tags ts data ptr = Ok r -> forallb tag_valid ts = true.
Proof.
  intros H. unfold write_tags in H. bind_ok H d E.
  bind_ok H st E2. destruct st as [d2 p2].
  exact (write_tag_entries_valid _ _ _ _ E2).
Qed.

Lemma write_layer_valid l data ptr r :
  write_layer l data ptr = Ok r -> layer_valid l = true.
Proof.
  intros H. unfold write_layer in H. bind_ok H d E. bind_ok H d1 E1.
  apply (pack_into_ok _ false [fH; fH; fH; fH; fH; fH; fB]) in E1;
    [|reflexivity].
  bind_ok H st E2. destruct st as [d2 p2].
  unfold layer_valid. rewrite (write_name_valid _ _ _ _ E2).
  cbn [args_ok] in *. split_andb.
  repeat match goal with
         | Hr : in_range _ ?v = true |- context [in_range _ ?v] => rewrite Hr
         end.
  reflexivity.
Qed.

Lemma write_layers_valid ls st r :
  write_layers ls st = Ok r -> forallb layer_valid ls = true.
Proof.
  revert st. induction ls as [|l ls IH]; intros [[data ptr] n] H;
    [reflexivity|].
  cbn [write_layers] in H. bind_ok H st E. destruct st as [d p].
  cbn [forallb]. now rewrite (write_layer_valid _ _ _ _ E), (IH _ H).
Qed.

Lemma write_cel_valid zc c data ptr r :
  write_cel zc c data ptr = Ok r -> cel_valid c = true.
Proof.
  intros H. unfold write_cel in H. bind_ok H d E.
  apply (pack_into_ok _ false [fH; fH; fh; fh; fB; fH]) in E; [|reflexivity].
  cbn [args_ok] in E. split_andb.
  unfold cel_valid. cbn [args_ok].
  repeat match goal with
         | Hr : in_range _ ?v = true |- context [in_range _ ?v] => rewrite Hr
         end.
  cbn [andb].
  destruct (linked c) as [fp|].
  - bind_ok H st K1. bind_ok K1 d2 K2.
    apply (pack_into_ok _ false [fH]) in K2; [|reflexivity].
    cbn [args_ok] in K2. apply andb_prop in K2. now destruct K2.
  - bind_ok H st K1.
    destruct (cel_w c) as [cw|]; [|discriminate K1].
    destruct (cel_h c) as [ch|]; [|discriminate K1].
    cbn [getitem bind] in K1. bind_ok K1 d2 K2.
    apply (pack_into_ok _ false [fH; fH]) in K2; [|reflexivity].
    destruct (pixels c); [exact K2|discriminate K1].
Qed.

Lemma write_cels_valid zc cs st r :
  write_cels zc cs st = Ok r -> forallb cel_valid cs = true.
Proof.
  revert st. induction cs as [|c cs IH]; intros [[data ptr] n] H;
    [reflexivity|].
  cbn [write_cels] in H. bind_ok H st E. destruct st as [d p].
  cbn [forallb]. now rewrite (write_cel_valid _ _ _ _ _ E), (IH _ H).
Qed.

Lemma write_first_frame_valid s pal st r :
  indexed s = true ->
  palette s = Some pal ->
  write_first_frame s st = Ok r ->
  1 <= len pal
  /\ forallb color_ok pal = true
  /\ forallb tag_valid (opt_list (tags s)) = true
  /\ forallb layer_valid (opt_list (layers s)) = true.
Proof.
  intros Hi Hp H. unfold write_first_frame in H. rewrite Hi, Hp in H.
  destruct st as [[data ptr] n]. cbn [getitem bind] in H.
  bind_ok H st1 E1. bind_ok E1 st E. destruct st as [d p].
  destruct (write_palette_valid _ _ _ _ E) as [Hlen Hcol].
  split; [exact Hlen|]. split; [exact Hcol|].
  bind_ok H st2 E2. split.
  - destruct (tags s) as [ts|]; [|reflexivity].
    destruct st1 as [[d1 p1] n1]. bind_ok E2 st E3. destruct st as [d3 p3].
    exact (write_tags_valid _ _ _ _ E3).
  - destruct (layers s) as [ls|]; [|reflexivity].
    exact (write_layers_valid _ _ _ H).
Qed.

Lemma write_frame_valid zc s f b data ptr r :
  write_frame zc s f b data ptr = Ok r -> frame_valid f = true.
Proof.
  intros H. unfold write_frame in H. bind_ok H d E.
  apply (pack_into_ok _ false [fH; fH; fH; fB; fB; fI]) in E; [|reflexivity].
  bind_ok H st E1. bind_ok H st2 E2.
  unfold frame_valid. rewrite (write_cels_valid _ _ _ _ E2).
  cbn [args_ok] in E. split_andb.
  repeat match goal with
         | Hr : in_range _ ?v = true |- context [in_range _ ?v] => rewrite Hr
         end.
  reflexivity.
Qed.

Lemma write_frames_valid zc s fs b data ptr r :
  write_frames zc s fs b data ptr = Ok r -> forallb frame_valid fs = true.
Proof.
  revert b data ptr. induction fs as [|f fs IH]; intros b data ptr H;
    [reflexivity|].
  cbn [write_frames] in H. bind_ok H st E. destruct st as [d p].
  cbn [forallb]. now rewrite (write_frame_valid _ _ _ _ _ _ _ E), (IH _ _ _ H).
Qed.

Lemma write_frame_first zc s f data ptr r :
  write_frame zc s f true data ptr = Ok r ->
  exists st st', write_first_frame s st = Ok st'.
Proof.
  intros H. unfold write_frame in H. bind_ok H d E. bind_ok H st E1.
  eauto.
Qed.

(** What the writer needs: when it returns bytes for an indexed sprite
    with a frame, every value of the sprite lies in the range of its field,
    every name can be encoded, the palette is not empty, and every cel has
    a link or else a width, a height and pixels. *)
Lemma write_buffer_ok_valid zc s data bytes :
  indexed s = true ->
  frames s <> [] ->
  write_buffer zc s data = Ok bytes ->
  sprite_valid s = true.
Proof.
  intros Hi Hf H. unfold write_buffer in H.
  destruct (palette s) as [pal|] eqn:Hp; [|discriminate H].
  cbn [getitem bind] in H. bind_ok H d E.
  apply (pack_into_ok _ false
           [fH; fH; fH; fH; fH; fI; fH; fI; fI; fB; fB; fB; fB; fH; fB; fB])
    in E; [|reflexivity].
  bind_ok H st E1. destruct st as [d1 p1].
  pose proof (write_frames_valid _ _ _ _ _ _ _ E1) as Hfr.
  destruct (frames s) as [|f0 fs0] eqn:Efs; [congruence|].
  cbn [write_frames] in E1. bind_ok E1 st E2.
  destruct (write_frame_first _ _ _ _ _ _ E2) as (st1 & st1' & Hff).
  destruct (write_first_frame_valid s pal _ _ Hi Hp Hff)
    as (Hlen & Hcol & Htags & Hlayers).
  unfold sprite_valid. rewrite Hp, Hi, Efs. cbn [opt_list getitem is_ok].
  rewrite Hcol, Htags, Hlayers, Hfr.
  apply Z.leb_le in Hlen. rewrite Hlen.
  cbn [args_ok] in *. split_andb.
  repeat match goal with
         | Hr : in_range _ ?v = true |- context [in_range _ ?v] => rewrite Hr
         end.
  reflexivity.
Qed.

(** For an indexed sprite with at least one frame whose encoding fits the
    buffer, the writer returns bytes exactly when the sprite is valid:
    every number inside the range of the field it is packed into, every
    name encodable, a palette of at least one colour, and every cel with a
    link or else with a width, a height and pixels. *)
Theorem encode_succeeds_iff_valid zc s :
  indexed s = true ->
  frames s <> [] ->
  fits zc s = true ->
  ((exists bytes, write_aseprite_file zc s = Ok bytes)
   <-> sprite_valid s = true).
Proof.
  intros Hi Hf Hfit. split.
  - intros (bytes & H). exact (write_buffer_ok_valid zc s _ bytes Hi Hf H).
  - intros Hv.
    destruct (write_file_spec zc s Hv Hfit) as (f & Hw & _).
    now exists (file_bytes f).
Qed.

Lemma encode_succeeds_iff_valid_witness :
  (exists bytes,
      write_aseprite_file Stored.compress Samples.small_sprite = Ok bytes)
  <-> sprite_valid Samples.small_sprite = true.
Proof.
  apply (encode_succeeds_iff_valid Stored.compress Samples.small_sprite).
  - reflexivity.
  - discriminate.
  - vm_compute. reflexivity.
Defined.

(* ===================================================================== *)
(** ** Cels and layers as the reader keeps them *)
(* ===================================================================== *)

(** A raw cel (type 0) is kept with its width, its height and, as pixels,
    the bytes that follow them up to the end of the chunk, as they are and
    whatever their number; a linked cel (type 1) is kept with the frame it
    links to and without width, height or pixels.  Both are appended to the
    cels of the frame and the reader goes on at the end of the chunk. *)
Theorem raw_and_linked_cels zd pre r sprite frame layer x y opacity gap :
  (forall w h px,
      chunk_ok (CCel layer x y opacity gap (BRaw w h px)) = true ->
      read_chunk zd
        (pre ++ chunk_bytes (CCel layer x y opacity gap (BRaw w h px)) ++ r)
        (sprite, frame, len pre)
      = Ok (sprite,
            mkFrame (duration frame)
              (cels frame
               ++ [mkCel layer x y opacity None (Some w) (Some h) (Some px)]),
            len pre
            + len (chunk_bytes (CCel layer x y opacity gap (BRaw w h px)))))
  /\ (forall f,
         chunk_ok (CCel layer x y opacity gap (BLinked f)) = true ->
         read_chunk zd
           (pre ++ chunk_bytes (CCel layer x y opacity gap (BLinked f)) ++ r)
           (sprite, frame, len pre)
         = Ok (sprite,
               mkFrame (duration frame)
                 (cels frame
                  ++ [mkCel layer x y opacity (Some f) None None None]),
               len pre
               + len (chunk_bytes (CCel layer x y opacity gap (BLinked f))))).
Proof.
  split.
  - intros w h px Hok. now rewrite read_chunk_at.
  - intros f Hok. now rewrite read_chunk_at.
Qed.

Lemma raw_and_linked_cels_witness :
  read_chunk Stored.decompress
    ([] ++ chunk_bytes
             (CCel 0 (-3) 4 255 (zeros 7) (BRaw 2 2 [Byte.x01])) ++ [])
    (Samples.rgba_sprite, mkFrame 100 [], len (@nil byte))
  = Ok (Samples.rgba_sprite,
        mkFrame (duration (mkFrame 100 []))
          (cels (mkFrame 100 [])
           ++ [mkCel 0 (-3) 4 255 None (Some 2) (Some 2) (Some [Byte.x01])]),
        len (@nil byte)
        + len (chunk_bytes
                 (CCel 0 (-3) 4 255 (zeros 7) (BRaw 2 2 [Byte.x01]))))
  /\ read_chunk Stored.decompress
       ([] ++ chunk_bytes (CCel 0 (-3) 4 255 (zeros 7) (BLinked 5)) ++ [])
       (Samples.rgba_sprite, mkFrame 100 [], len (@nil byte))
     = Ok (Samples.rgba_sprite,
           mkFrame (duration (mkFrame 100 []))
             (cels (mkFrame 100 [])
              ++ [mkCel 0 (-3) 4 255 (Some 5) None None None]),
           len (@nil byte)
           + len (chunk_bytes (CCel 0 (-3) 4 255 (zeros 7) (BLinked 5)))).
Proof.
  split.
  - apply (proj1 (raw_and_linked_cels Stored.decompress [] []
                    Samples.rgba_sprite (mkFrame 100 []) 0 (-3) 4 255
                    (zeros 7))).
    reflexivity.
  - apply (proj2 (raw_and_linked_cels Stored.decompress [] []
                    Samples.rgba_sprite (mkFrame 100 []) 0 (-3) 4 255
                    (zeros 7))).
    reflexivity.
Defined.

(** The layers of a sprite are those of all its frames, in file order:
    a well-formed file with a LAYER chunk in each of two frames decodes to
    a sprite with both layers, the layer of the first frame first. *)
Theorem layers_of_all_frames zd name header gap sz1 dur1 sz2 dur2
    fl1 ty1 ch1 a1 b1 bm1 op1 g1 nb1 n1
    fl2 ty2 ch2 a2 b2 bm2 op2 g2 nb2 n2 :
  file_ok
    (mkWFile header gap
       [mkWFrame sz1 dur1 [CLayer fl1 ty1 ch1 a1 b1 bm1 op1 g1 nb1];
        mkWFrame sz2 dur2 [CLayer fl2 ty2 ch2 a2 b2 bm2 op2 g2 nb2]]) = true ->
  utf8_decode nb1 = Ok n1 ->
  utf8_decode nb2 = Ok n2 ->
  read_aseprite_file zd name
    (file_bytes
       (mkWFile header gap
          [mkWFrame sz1 dur1 [CLayer fl1 ty1 ch1 a1 b1 bm1 op1 g1 nb1];
           mkWFrame sz2 dur2 [CLayer fl2 ty2 ch2 a2 b2 bm2 op2 g2 nb2]]))
  = Ok (mkSprite name (item header 3) (item header 4) (item header 10)
          [mkFrame dur1 []; mkFrame dur2 []]
          (Some [mkLayer fl1 ty1 ch1 bm1 op1 n1; mkLayer fl2 ty2 ch2 bm2 op2 n2])
          (item header 7) (item header 5 =? 8) None None).
Proof.
  intros Hok H1 H2. rewrite (read_file_spec zd name _ Hok).
  cbn [w_frames w_header apply_frames]. unfold apply_frame.
  cbn [wf_chunks wf_duration apply_chunks apply_chunk].
  rewrite H1. cbn. rewrite H2. reflexivity.
Qed.

Lemma layers_of_all_frames_witness :
  read_aseprite_file Stored.decompress [110]
    (file_bytes
       (mkWFile (Samples.header 0xA5E0 2 8) (zeros 92)
          [mkWFrame 41 100 [CLayer 1 0 0 0 0 0 255 (zeros 3) [Byte.x61]];
           mkWFrame 41 50 [CLayer 3 0 0 0 0 0 128 (zeros 3) [Byte.x62]]]))
  = Ok (mkSprite [110] (item (Samples.header 0xA5E0 2 8) 3)
          (item (Samples.header 0xA5E0 2 8) 4)
          (item (Samples.header 0xA5E0 2 8) 10)
          [mkFrame 100 []; mkFrame 50 []]
          (Some [mkLayer 1 0 0 0 255 [97]; mkLayer 3 0 0 0 128 [98]])
          (item (Samples.header 0xA5E0 2 8) 7)
          (item (Samples.header 0xA5E0 2 8) 5 =? 8) None None).
Proof.
  apply (layers_of_all_frames Stored.decompress [110]
           (Samples.header 0xA5E0 2 8) (zeros 92) 41 100 41 50
           1 0 0 0 0 0 255 (zeros 3) [Byte.x61] [97]
           3 0 0 0 0 0 128 (zeros 3) [Byte.x62] [98]).
  - vm_compute. reflexivity.
  - vm_compute. reflexivity.
  - vm_compute. reflexivity.
Defined.
